(** * Feed repository of the social-feed server: model and properties

    A shallow embedding of [src/modules/feed/feed.repository.ts].  The
    relational store is a record of tables (lists of rows, in storage
    order) with one auto-increment counter per table.  A transaction body
    is a state transformer over the working copy of the store that may
    throw; [dataSource_transaction] commits the working copy when the body
    returns and keeps the committed store when it throws.  The [async]
    callbacks that a body hands to [Promise.all] run interleaved, each up
    to its next [await].

    Numbers are integers ([Z]), ids included; a query without [orderBy]
    returns rows in storage order; string comparison is exact.  Entities,
    DTOs and helpers whose declarations are not among the sources are
    given the fields and the behaviour the repository code uses. *)

From Stdlib Require Import ZArith List String Bool Lia.
Import ListNotations.
Local Open Scope string_scope.
Local Open Scope list_scope.
Local Open Scope Z_scope.

(** ** Enumerations of [src/common] *)

Inductive YN : Type := Y | N.

(** Only [ACTIVE] and [DELETED] are named by the repository; every other
    member of the enumeration is kept under its name. *)
Inductive FEED_STATUS : Type :=
| ACTIVE
| DELETED
| OTHER_STATUS (name : string).

Definition YN_eqb (a b : YN) : bool :=
  match a, b with
  | Y, Y | N, N => true
  | _, _ => false
  end.

Definition FEED_STATUS_eqb (a b : FEED_STATUS) : bool :=
  match a, b with
  | ACTIVE, ACTIVE | DELETED, DELETED => true
  | OTHER_STATUS x, OTHER_STATUS y => String.eqb x y
  | _, _ => false
  end.

(** ** Entities (the persisted columns) *)

Module User.
Record t : Type := mk {
  id : Z;
  feedCount : Z;
  delYn : YN;
  followingIds : list Z
}.
Definition set_feedCount (u : t) (n : Z) : t :=
  mk (id u) n (delYn u) (followingIds u).
End User.

Module Feed.
Record t : Type := mk {
  id : Z;
  userId : Z;
  description : string;
  likeCount : Z;
  showLikeCountYn : YN;
  commentCount : Z;
  displayYn : YN;
  status : FEED_STATUS;
  createdAt : Z;
  updatedAt : Z
}.
Definition set_likeCount (f : t) (n : Z) : t :=
  mk (id f) (userId f) (description f) n (showLikeCountYn f)
     (commentCount f) (displayYn f) (status f) (createdAt f) (updatedAt f).
Definition set_status (f : t) (s : FEED_STATUS) : t :=
  mk (id f) (userId f) (description f) (likeCount f) (showLikeCountYn f)
     (commentCount f) (displayYn f) s (createdAt f) (updatedAt f).
Definition set_description (f : t) (d : string) (now : Z) : t :=
  mk (id f) (userId f) d (likeCount f) (showLikeCountYn f)
     (commentCount f) (displayYn f) (status f) (createdAt f) now.
End Feed.

Module FeedImage.
Record t : Type := mk { id : Z; feedId : Z; image : string; sortOrder : Z }.
End FeedImage.

Module FeedLike.
Record t : Type := mk { id : Z; feedId : Z; userId : Z }.
End FeedLike.

Module FeedBookmark.
Record t : Type := mk { id : Z; feedId : Z; userId : Z }.
End FeedBookmark.

Module Tag.
Record t : Type := mk { id : Z; tagName : string }.
End Tag.

Module MapperFeedTag.
Record t : Type := mk { id : Z; feedId : Z; tagId : Z }.
End MapperFeedTag.

(** ** The store *)

Record DB : Type := mkDB {
  users : list User.t;
  feeds : list Feed.t;
  feedImages : list FeedImage.t;
  feedLikes : list FeedLike.t;
  feedBookmarks : list FeedBookmark.t;
  tags : list Tag.t;
  mapperFeedTags : list MapperFeedTag.t;
  nextFeedId : Z;
  nextFeedImageId : Z;
  nextFeedLikeId : Z;
  nextFeedBookmarkId : Z;
  nextTagId : Z;
  nextMapperFeedTagId : Z
}.

Definition with_users (d : DB) (x : list User.t) : DB :=
  mkDB x (feeds d) (feedImages d) (feedLikes d) (feedBookmarks d) (tags d)
       (mapperFeedTags d) (nextFeedId d) (nextFeedImageId d)
       (nextFeedLikeId d) (nextFeedBookmarkId d) (nextTagId d)
       (nextMapperFeedTagId d).

Definition with_feeds (d : DB) (x : list Feed.t) (next : Z) : DB :=
  mkDB (users d) x (feedImages d) (feedLikes d) (feedBookmarks d) (tags d)
       (mapperFeedTags d) next (nextFeedImageId d)
       (nextFeedLikeId d) (nextFeedBookmarkId d) (nextTagId d)
       (nextMapperFeedTagId d).

Definition with_feedImages (d : DB) (x : list FeedImage.t) (next : Z) : DB :=
  mkDB (users d) (feeds d) x (feedLikes d) (feedBookmarks d) (tags d)
       (mapperFeedTags d) (nextFeedId d) next
       (nextFeedLikeId d) (nextFeedBookmarkId d) (nextTagId d)
       (nextMapperFeedTagId d).

Definition with_feedLikes (d : DB) (x : list FeedLike.t) (next : Z) : DB :=
  mkDB (users d) (feeds d) (feedImages d) x (feedBookmarks d) (tags d)
       (mapperFeedTags d) (nextFeedId d) (nextFeedImageId d)
       next (nextFeedBookmarkId d) (nextTagId d)
       (nextMapperFeedTagId d).

Definition with_feedBookmarks (d : DB) (x : list FeedBookmark.t) (next : Z)
  : DB :=
  mkDB (users d) (feeds d) (feedImages d) (feedLikes d) x (tags d)
       (mapperFeedTags d) (nextFeedId d) (nextFeedImageId d)
       (nextFeedLikeId d) next (nextTagId d)
       (nextMapperFeedTagId d).

Definition with_tags (d : DB) (x : list Tag.t) (next : Z) : DB :=
  mkDB (users d) (feeds d) (feedImages d) (feedLikes d) (feedBookmarks d) x
       (mapperFeedTags d) (nextFeedId d) (nextFeedImageId d)
       (nextFeedLikeId d) (nextFeedBookmarkId d) next
       (nextMapperFeedTagId d).

Definition with_mapperFeedTags (d : DB) (x : list MapperFeedTag.t) (next : Z)
  : DB :=
  mkDB (users d) (feeds d) (feedImages d) (feedLikes d) (feedBookmarks d)
       (tags d) x (nextFeedId d) (nextFeedImageId d)
       (nextFeedLikeId d) (nextFeedBookmarkId d) (nextTagId d) next.

(** ** Exceptions and the transaction monad *)

(** The only exception the repository code itself can raise is the
    [TypeError] of reading a property of [null] or [undefined]. *)
Inductive Error : Type := TypeError.

Inductive Result (A : Type) : Type :=
| Ok (a : A)
| Err (e : Error).
Arguments Ok {A} a.
Arguments Err {A} e.

(** A transaction body: runs on the working copy of the store. *)
Definition Tx (A : Type) : Type := DB -> Result (A * DB).

Definition ret {A} (a : A) : Tx A := fun w => Ok (a, w).

Definition bind {A B} (m : Tx A) (k : A -> Tx B) : Tx B :=
  fun w => match m w with
           | Ok (a, w') => k a w'
           | Err e => Err e
           end.

Definition throw {A} (e : Error) : Tx A := fun _ => Err e.

Definition liftR {A} (r : Result A) : Tx A :=
  fun w => match r with Ok a => Ok (a, w) | Err e => Err e end.

Declare Scope tx_scope.
Delimit Scope tx_scope with tx.
Notation "x <- m ;; k" := (bind m (fun x => k))
  (at level 61, m at next level, right associativity) : tx_scope.
Notation "m ;;; k" := (bind m (fun _ => k))
  (at level 61, right associativity) : tx_scope.

(** ** Asynchronous callbacks and [Promise.all] *)

(** An [async] callback while it runs: resolved with a value, rejected
    with an exception, or suspended at an [await] on an operation of the
    store, with what it does with the operation's result. *)
Inductive Async (A : Type) : Type :=
| Resolved (a : A)
| Rejected (e : Error)
| Await {X : Type} (operation : Tx X) (continuation : X -> Async A).
Arguments Resolved {A} a.
Arguments Rejected {A} e.
Arguments Await {A X} operation continuation.

Declare Scope async_scope.
Delimit Scope async_scope with async.
Notation "x <~ op ;; k" := (Await op (fun x => k))
  (at level 61, op at next level, right associativity) : async_scope.

(** [await c] inside a callback, [c] being a promise itself. *)
Fixpoint await {A B} (c : Async A) (k : A -> Async B) : Async B :=
  match c with
  | Resolved a => k a
  | Rejected e => Rejected e
  | Await op k0 => Await op (fun x => await (k0 x) k)
  end.

(** Two callbacks started together.  Each runs up to its next [await]
    before either is resumed; the operations they wait for are carried
    out in the order in which they were issued, so the callbacks advance
    in rounds, one operation each, in the order of the array; a callback
    that has resolved waits for the other, and a rejection rejects the
    pair: the body of the transaction throws, and nothing of what the
    callbacks have written is kept. *)
Fixpoint par {A} (c : Async A) : Async (list A) -> Async (list A) :=
  fix par_c (r : Async (list A)) : Async (list A) :=
    match c, r with
    | Rejected e, _ => Rejected e
    | _, Rejected e => Rejected e
    | Resolved a, Resolved l => Resolved (a :: l)
    | Resolved a, Await opr kr => Await opr (fun y => par_c (kr y))
    | Await op k, Resolved l => Await op (fun x => par (k x) (Resolved l))
    | Await op k, Await opr kr =>
        Await (bind op (fun x => bind opr (fun y => ret (x, y))))
              (fun xy => par (k (fst xy)) (kr (snd xy)))
    end.

(** [Promise.all(xs.map(async (x) => ...))] on the callbacks of the
    elements: all are started, in the order of the array, before any is
    resumed. *)
Definition Promise_all {A} (callbacks : list (Async A)) : Async (list A) :=
  fold_right par (Resolved []) callbacks.

(** [await c] in the body of the transaction. *)
Fixpoint run {A} (c : Async A) : Tx A :=
  match c with
  | Resolved a => ret a
  | Rejected e => throw e
  | Await op k => bind op (fun x => run (k x))
  end.

(** Statements of a body that are awaited one after another. *)
Fixpoint in_sequence (statements : list (Tx unit)) : Tx unit :=
  match statements with
  | [] => ret tt
  | statement :: rest => bind statement (fun _ => in_sequence rest)
  end.

(** [dataSource.transaction(body)]: commit on return, roll back on throw. *)
Definition dataSource_transaction {A} (body : Tx A) (db : DB)
  : Result A * DB :=
  match body db with
  | Ok (a, w) => (Ok a, w)
  | Err e => (Err e, db)
  end.

(** Reads issued through the injected repositories and the entities' static
    query builders do not go through the transaction's entity manager.
    Whether they observe the transaction's own uncommitted writes is a
    property of the store; both behaviours are covered.  Under
    [ReadCommitted] what a callback of [Promise_all] reads does not depend
    on what the callbacks have written. *)
Inductive Isolation : Type := ReadCommitted | ReadUncommitted.

Definition view (iso : Isolation) (committed working : DB) : DB :=
  match iso with
  | ReadCommitted => committed
  | ReadUncommitted => working
  end.

Definition outside (iso : Isolation) (committed : DB) : Tx DB :=
  fun w => Ok (view iso committed w, w).

(** ** Primitive statements of the entity manager *)

Definition nonempty {A} (l : list A) : bool :=
  match l with [] => false | _ :: _ => true end.

(** [transaction.save(e)] of an entity that has no id yet: INSERT, the
    store assigns the next id of the table. *)
Definition insert_Feed (mkrow : Z -> Feed.t) : Tx Feed.t :=
  fun w => let row := mkrow (nextFeedId w) in
           Ok (row, with_feeds w (feeds w ++ [row]) (nextFeedId w + 1)).

Definition insert_FeedImage (feedId : Z) (image : string) (sortOrder : Z)
  : Tx FeedImage.t :=
  fun w => let row := FeedImage.mk (nextFeedImageId w) feedId image sortOrder in
           Ok (row, with_feedImages w (feedImages w ++ [row])
                                    (nextFeedImageId w + 1)).

Definition insert_FeedLike (feedId userId : Z) : Tx FeedLike.t :=
  fun w => let row := FeedLike.mk (nextFeedLikeId w) feedId userId in
           Ok (row, with_feedLikes w (feedLikes w ++ [row])
                                   (nextFeedLikeId w + 1)).

Definition insert_Tag (tagName : string) : Tx Tag.t :=
  fun w => let row := Tag.mk (nextTagId w) tagName in
           Ok (row, with_tags w (tags w ++ [row]) (nextTagId w + 1)).

Definition insert_MapperFeedTag (feedId tagId : Z) : Tx MapperFeedTag.t :=
  fun w => let row := MapperFeedTag.mk (nextMapperFeedTagId w) feedId tagId in
           Ok (row, with_mapperFeedTags w (mapperFeedTags w ++ [row])
                                        (nextMapperFeedTagId w + 1)).

(** [transaction.save(e)] of an entity loaded from the store: the row with
    the entity's id takes the entity's column values (and the entity is
    inserted under its id when the row is gone). *)
Definition replace_by {A} (key : A -> Z) (x : A) (l : list A) : list A :=
  map (fun r => if key r =? key x then x else r) l.

Definition save_Feed (f : Feed.t) : Tx Feed.t :=
  fun w =>
    if existsb (fun r => Feed.id r =? Feed.id f) (feeds w)
    then Ok (f, with_feeds w (replace_by Feed.id f (feeds w)) (nextFeedId w))
    else Ok (f, with_feeds w (feeds w ++ [f])
                           (Z.max (nextFeedId w) (Feed.id f + 1))).

Definition save_User (u : User.t) : Tx User.t :=
  fun w =>
    if existsb (fun r => User.id r =? User.id u) (users w)
    then Ok (u, with_users w (replace_by User.id u (users w)))
    else Ok (u, with_users w (users w ++ [u])).

(** [transaction.createQueryBuilder().delete().from(T).where(...)] *)
Definition delete_FeedImage (where_ : FeedImage.t -> bool) : Tx unit :=
  fun w => Ok (tt, with_feedImages w
                     (filter (fun r => negb (where_ r)) (feedImages w))
                     (nextFeedImageId w)).

Definition delete_FeedLike (where_ : FeedLike.t -> bool) : Tx unit :=
  fun w => Ok (tt, with_feedLikes w
                     (filter (fun r => negb (where_ r)) (feedLikes w))
                     (nextFeedLikeId w)).

Definition delete_FeedBookmark (where_ : FeedBookmark.t -> bool) : Tx unit :=
  fun w => Ok (tt, with_feedBookmarks w
                     (filter (fun r => negb (where_ r)) (feedBookmarks w))
                     (nextFeedBookmarkId w)).

Definition delete_Feed (where_ : Feed.t -> bool) : Tx unit :=
  fun w => Ok (tt, with_feeds w
                     (filter (fun r => negb (where_ r)) (feeds w))
                     (nextFeedId w)).

Definition delete_MapperFeedTag (where_ : MapperFeedTag.t -> bool) : Tx unit :=
  fun w => Ok (tt, with_mapperFeedTags w
                     (filter (fun r => negb (where_ r)) (mapperFeedTags w))
                     (nextMapperFeedTagId w)).

(** ** Lookups ([findOne] with a [where] object) *)

Definition userRepository_findOne (db : DB) (id : Z) : option User.t :=
  find (fun u => User.id u =? id) (users db).

Definition feedRepository_findOne (db : DB) (id : Z) : option Feed.t :=
  find (fun f => Feed.id f =? id) (feeds db).

Definition tagRepository_findOne_tagName (db : DB) (tagName : string)
  : option Tag.t :=
  find (fun t => String.eqb (Tag.tagName t) tagName) (tags db).

Definition tagRepository_findOne_id (db : DB) (id : Z) : option Tag.t :=
  find (fun t => Tag.id t =? id) (tags db).

Definition MapperFeedTag_findOne (db : DB) (tagId feedId : Z)
  : option MapperFeedTag.t :=
  find (fun m => (MapperFeedTag.tagId m =? tagId)
                 && (MapperFeedTag.feedId m =? feedId))
       (mapperFeedTags db).

(** ** Hydrated feeds *)

Module FeedFindOneVo.
(** A [Feed] object as the read paths hand it out: the columns, the
    joined [user], and the transient fields attached after the fetch. *)
Record t : Type := mk {
  feed : Feed.t;
  user : option User.t;
  feedImages : list FeedImage.t;
  tags : list (option Tag.t);
  likedYn : option bool;
  bookmarkedYn : option bool
}.
End FeedFindOneVo.

Definition __get_feed_tags (db : DB) (feedId : Z) : list (option Tag.t) :=
  let feedTags :=
    filter (fun m => MapperFeedTag.feedId m =? feedId) (mapperFeedTags db) in
  let tagIds := map MapperFeedTag.tagId feedTags in
  map (fun tagId => tagRepository_findOne_id db tagId) tagIds.

Definition __get_feed_images (db : DB) (feedId : Z) : list FeedImage.t :=
  filter (fun i => FeedImage.feedId i =? feedId) (feedImages db).

Definition __get_feed_like_by_user (db : DB) (userId feedId : Z) : bool :=
  existsb (fun l => (FeedLike.feedId l =? feedId)
                    && (FeedLike.userId l =? userId)) (feedLikes db).

Definition __get_feed_bookmark_by_user (db : DB) (userId feedId : Z) : bool :=
  existsb (fun b => (FeedBookmark.feedId b =? feedId)
                    && (FeedBookmark.userId b =? userId)) (feedBookmarks db).

(** [if (userId)]: [undefined] and [0] are falsy. *)
Definition truthy (n : option Z) : option Z :=
  match n with
  | Some z => if z =? 0 then None else Some z
  | None => None
  end.

(** [processFeedItem(item, userId?)]: reading [item.id] of a missing item
    throws; otherwise the transient fields of the item are overwritten. *)
Definition processFeedItem (db : DB) (item : option FeedFindOneVo.t)
    (userId : option Z) : Result FeedFindOneVo.t :=
  match item with
  | None => Err TypeError
  | Some item =>
      let id := Feed.id (FeedFindOneVo.feed item) in
      let feedImages := __get_feed_images db id in
      let tags := __get_feed_tags db id in
      let likedYn :=
        match truthy userId with
        | Some u => Some (__get_feed_like_by_user db u id)
        | None => FeedFindOneVo.likedYn item
        end in
      let bookmarkedYn :=
        match truthy userId with
        | Some u => Some (__get_feed_bookmark_by_user db u id)
        | None => FeedFindOneVo.bookmarkedYn item
        end in
      Ok (FeedFindOneVo.mk (FeedFindOneVo.feed item) (FeedFindOneVo.user item)
                           feedImages tags likedYn bookmarkedYn)
  end.

(** [innerJoinAndSelect('feed.user', 'user')]: a feed row is selected
    together with the user row of its [userId]; a feed whose user row is
    missing is not selected. *)
Definition join_user (db : DB) (joined : Feed.t -> list (option Tag.t))
    (f : Feed.t) : list FeedFindOneVo.t :=
  match userRepository_findOne db (Feed.userId f) with
  | Some u => [FeedFindOneVo.mk f (Some u) [] (joined f) None None]
  | None => []
  end.

(** [createQueryBuilder('feed').innerJoinAndSelect('feed.user', 'user')
    .where('feed.id = :id').getOne()] *)
Definition feed_by_id (db : DB) (feedId : Z) : option FeedFindOneVo.t :=
  hd_error (flat_map (join_user db (fun _ => []))
                     (filter (fun f => Feed.id f =? feedId) (feeds db))).

Definition findOneFeed (db : DB) (feedId : Z) : Result FeedFindOneVo.t :=
  let feed := feed_by_id db feedId in
  processFeedItem db feed None.

Definition findOneByUser (db : DB) (user : User.t) (feedId : Z)
  : Result FeedFindOneVo.t :=
  let feed := feed_by_id db feedId in
  processFeedItem db feed (Some (User.id user)).

(** ** Listing: [findAll] *)

Module FeedListDto.
Record t : Type := mk {
  tagName : option string;
  page : Z;
  limit : Z;
  status : option FEED_STATUS
}.
End FeedListDto.

Module PaginateResponseVo.
Record t (A : Type) : Type := mk {
  items : list A;
  totalCount : Z;
  page : Z;
  limit : Z
}.
Arguments mk {A}.
Arguments items {A}.
Arguments totalCount {A}.
Arguments page {A}.
Arguments limit {A}.
End PaginateResponseVo.

(** Modelled from the spec: [generatePaginatedResponse] of [src/core] is not
    among the sources; it builds the envelope "items for the current page,
    total item count, current page, limit" from its four arguments. *)
Definition generatePaginatedResponse {A} (items : list A)
    (totalCount page limit : Z) : PaginateResponseVo.t A :=
  PaginateResponseVo.mk items totalCount page limit.

(** [Array.prototype.slice(start, end)] on integer arguments. *)
Definition js_slice {A} (l : list A) (start end_ : Z) : list A :=
  let len := Z.of_nat (List.length l) in
  let k := if start <? 0 then Z.max (len + start) 0 else Z.min start len in
  let final := if end_ <? 0 then Z.max (len + end_) 0 else Z.min end_ len in
  firstn (Z.to_nat (final - k)) (skipn (Z.to_nat k) l).

(** [orderBy(column, DESC)]: rows of equal key keep the storage order. *)
Fixpoint insert_DESC {A} (key : A -> Z) (x : A) (l : list A) : list A :=
  match l with
  | [] => [x]
  | y :: rest =>
      if key y <=? key x then x :: y :: rest
      else y :: insert_DESC key x rest
  end.

Definition orderBy_DESC {A} (key : A -> Z) (l : list A) : list A :=
  fold_right (insert_DESC key) [] l.

(** Modelled from the spec: the [tags] relation that
    [leftJoinAndSelect('feed.tags', 'tags')] follows is not declared in the
    entity file; the spec resolves a feed's tags through the mapper table. *)
Definition joined_tags (db : DB) (f : Feed.t) : list (option Tag.t) :=
  flat_map
    (fun m => map Some (filter (fun t => Tag.id t =? MapperFeedTag.tagId m)
                               (tags db)))
    (filter (fun m => MapperFeedTag.feedId m =? Feed.id f)
            (mapperFeedTags db)).

(** The feeds fetched by [getMany] are objects; the arrays [filteredFeeds]
    and [paginatedFeeds] hold references to them, and [processFeedItem]
    mutates the object behind a reference.  Objects live in a heap, a
    reference is a position in it. *)
Fixpoint heap_set {A} (h : list A) (r : nat) (v : A) : list A :=
  match h, r with
  | [], _ => []
  | _ :: t, O => v :: t
  | x :: t, S r' => x :: heap_set t r' v
  end.

Definition deref {A} (h : list A) (refs : list nat) : list A :=
  flat_map (fun r => match nth_error h r with
                     | Some v => [v]
                     | None => []
                     end) refs.

(** [for (const item of refs) await this.processFeedItem(item, userId)] *)
Fixpoint processFeedItems (db : DB) (refs : list nat) (userId : option Z)
    (h : list FeedFindOneVo.t) : Result (list FeedFindOneVo.t) :=
  match refs with
  | [] => Ok h
  | r :: rest =>
      match processFeedItem db (nth_error h r) userId with
      | Ok v => processFeedItems db rest userId (heap_set h r v)
      | Err e => Err e
      end
  end.

Definition has_tagName (tagName : string) (item : FeedFindOneVo.t) : bool :=
  existsb (fun tag => match tag with
                      | Some t => String.eqb (Tag.tagName t) tagName
                      | None => false
                      end)
          (FeedFindOneVo.tags item).

(** The query of [findAll]: visible, active, author not excluded, newest
    first, with user and tags joined. *)
Definition findAll_query (db : DB) (excludeUserIds : list Z)
  : list FeedFindOneVo.t :=
  let feeds :=
    filter (fun f => YN_eqb (Feed.displayYn f) Y
                     && FEED_STATUS_eqb (Feed.status f) ACTIVE) (feeds db) in
  let feeds :=
    if nonempty excludeUserIds
    then filter (fun f => negb (existsb (Z.eqb (Feed.userId f))
                                        excludeUserIds)) feeds
    else feeds in
  flat_map (join_user db (joined_tags db))
           (orderBy_DESC Feed.createdAt feeds).

Definition findAll (db : DB) (user : User.t)
    (feedListDto : option FeedListDto.t) (excludeUserIds : option (list Z))
  : Result (PaginateResponseVo.t FeedFindOneVo.t) :=
  match excludeUserIds with
  | None => Err TypeError
  | Some excludeUserIds =>
      let heap := findAll_query db excludeUserIds in
      let filteredFeeds := seq 0 (List.length heap) in
      match feedListDto with
      | None => Err TypeError
      | Some dto =>
          let filteredFeeds :=
            match FeedListDto.tagName dto with
            | Some tagName =>
                if negb (String.eqb tagName "")
                then filter (fun r => match nth_error heap r with
                                      | Some feed => has_tagName tagName feed
                                      | None => false
                                      end) filteredFeeds
                else filteredFeeds
            | None => filteredFeeds
            end in
          let offset := (FeedListDto.page dto - 1) * FeedListDto.limit dto in
          let paginatedFeeds :=
            js_slice filteredFeeds offset (offset + FeedListDto.limit dto) in
          let '(items, totalCount) :=
            (paginatedFeeds, Z.of_nat (List.length filteredFeeds)) in
          match processFeedItems db filteredFeeds (Some (User.id user)) heap
          with
          | Err e => Err e
          | Ok heap' =>
              Ok (generatePaginatedResponse (deref heap' items) totalCount
                    (FeedListDto.page dto) (FeedListDto.limit dto))
          end
      end
  end.

(** ** Listing through the query: following, by user, by bookmark *)

(** Modelled from the spec: the [Paginate] extension of the query builder
    ([src/core]) is not among the sources; "given page (1-based) and limit,
    computes offset = (page-1)*limit" and "applies offset/limit to the
    query". *)
Definition Paginate {A} (feedListDto : FeedListDto.t) (rows : list A)
  : list A :=
  let offset :=
    (FeedListDto.page feedListDto - 1) * FeedListDto.limit feedListDto in
  firstn (Z.to_nat (FeedListDto.limit feedListDto))
         (skipn (Z.to_nat offset) rows).

(** [getManyAndCount()] on a paginated query: the page, and the number of
    all the rows the query matches. *)
Definition getManyAndCount {A} (feedListDto : FeedListDto.t) (rows : list A)
  : list A * Z :=
  (Paginate feedListDto rows, Z.of_nat (List.length rows)).

(** [for (const item of items) await this.processFeedItem(item, userId)]
    on the array that is returned. *)
Fixpoint processFeedItem_each (db : DB) (userId : option Z)
    (items : list FeedFindOneVo.t) : Result (list FeedFindOneVo.t) :=
  match items with
  | [] => Ok []
  | item :: rest =>
      match processFeedItem db (Some item) userId with
      | Ok v =>
          match processFeedItem_each db userId rest with
          | Ok vs => Ok (v :: vs)
          | Err e => Err e
          end
      | Err e => Err e
      end
  end.

Definition findAllByFollowing_query (db : DB) (user : User.t)
  : list FeedFindOneVo.t :=
  let userId := User.followingIds user ++ [User.id user] in
  let feeds :=
    filter (fun f => existsb (Z.eqb (Feed.userId f)) userId
                     && YN_eqb (Feed.displayYn f) Y
                     && FEED_STATUS_eqb (Feed.status f) ACTIVE) (feeds db) in
  filter (fun item => match FeedFindOneVo.user item with
                      | Some u => YN_eqb (User.delYn u) N
                      | None => false
                      end)
         (flat_map (join_user db (fun _ => []))
                   (orderBy_DESC Feed.createdAt feeds)).

Definition findAllByFollowing (db : DB) (user : User.t)
    (feedListDto : option FeedListDto.t)
  : Result (PaginateResponseVo.t FeedFindOneVo.t) :=
  match feedListDto with
  | None => Err TypeError
  | Some dto =>
      let '(items, totalCount) :=
        getManyAndCount dto (findAllByFollowing_query db user) in
      match processFeedItem_each db (Some (User.id user)) items with
      | Err e => Err e
      | Ok items =>
          Ok (generatePaginatedResponse items totalCount
                (FeedListDto.page dto) (FeedListDto.limit dto))
      end
  end.

(** [feed.status = :status] with the status of the request; a request
    without a status matches no row. *)
Definition findAllByUser_query (db : DB) (userId : Z)
    (status : option FEED_STATUS) : list FeedFindOneVo.t :=
  let feeds :=
    filter (fun f => YN_eqb (Feed.displayYn f) Y
                     && match status with
                        | Some s => FEED_STATUS_eqb (Feed.status f) s
                        | None => false
                        end
                     && (Feed.userId f =? userId)) (feeds db) in
  flat_map (join_user db (fun _ => [])) (orderBy_DESC Feed.createdAt feeds).

Definition findAllByUser (db : DB) (userId : Z)
    (feedListDto : option FeedListDto.t)
  : Result (PaginateResponseVo.t FeedFindOneVo.t) :=
  match feedListDto with
  | None => Err TypeError
  | Some dto =>
      let '(items, totalCount) :=
        getManyAndCount dto
          (findAllByUser_query db userId (FeedListDto.status dto)) in
      match processFeedItem_each db (Some userId) items with
      | Err e => Err e
      | Ok items =>
          Ok (generatePaginatedResponse items totalCount
                (FeedListDto.page dto) (FeedListDto.limit dto))
      end
  end.

(** The bookmark rows of the user, each with the feed it joins; the feed's
    user is not joined here. *)
Definition findAllByBookmark_query (db : DB) (user : User.t)
  : list (FeedBookmark.t * Feed.t) :=
  orderBy_DESC (fun row => Feed.createdAt (snd row))
    (flat_map
       (fun feedBookmark =>
          map (pair feedBookmark)
              (filter (fun f => (Feed.id f =? FeedBookmark.feedId feedBookmark)
                                && YN_eqb (Feed.displayYn f) Y
                                && FEED_STATUS_eqb (Feed.status f) ACTIVE)
                      (feeds db)))
       (filter (fun b => FeedBookmark.userId b =? User.id user)
               (feedBookmarks db))).

Definition findAllByBookmark (db : DB) (user : User.t)
    (feedListDto : option FeedListDto.t)
  : Result (PaginateResponseVo.t FeedFindOneVo.t) :=
  match feedListDto with
  | None => Err TypeError
  | Some dto =>
      let '(items, totalCount) :=
        getManyAndCount dto (findAllByBookmark_query db user) in
      let feeds :=
        map (fun item => FeedFindOneVo.mk (snd item) None [] [] None None)
            items in
      match processFeedItem_each db (Some (User.id user)) feeds with
      | Err e => Err e
      | Ok feeds =>
          Ok (generatePaginatedResponse feeds totalCount
                (FeedListDto.page dto) (FeedListDto.limit dto))
      end
  end.

(** ** Write transactions *)

Module FeedImageDto.
Record t : Type := mk { image : string; sortOrder : Z }.
End FeedImageDto.

Module FeedCreateDto.
Record t : Type := mk {
  description : string;
  feedImages : list FeedImageDto.t;
  tagNames : list string
}.
End FeedCreateDto.

Module FeedUpdateDto.
Record t : Type := mk { description : string; tagNames : list string }.
End FeedUpdateDto.

(** The column values a [feed] row gets from the schema when the insert
    does not supply them. *)
Module FeedDefaults.
Record t : Type := mk {
  likeCount : Z;
  showLikeCountYn : YN;
  commentCount : Z;
  displayYn : YN;
  status : FEED_STATUS
}.
End FeedDefaults.

Definition new_Feed (dflt : FeedDefaults.t) (now userId : Z)
    (dto : FeedCreateDto.t) (id : Z) : Feed.t :=
  Feed.mk id userId (FeedCreateDto.description dto)
          (FeedDefaults.likeCount dflt) (FeedDefaults.showLikeCountYn dflt)
          (FeedDefaults.commentCount dflt) (FeedDefaults.displayYn dflt)
          (FeedDefaults.status dflt) now now.

(** [x.f] on a value that may be [null]. *)
Definition nonNull {A} (x : option A) : Tx A :=
  match x with
  | Some a => ret a
  | None => throw TypeError
  end.

Section Transactions.
Local Open Scope tx_scope.
Local Open Scope async_scope.

(** How reads outside the entity manager see the transaction, and the
    committed store the transaction started from. *)
Variable iso : Isolation.
Variable committed : DB.

(** The callback of one image of [createFeed]. *)
Definition createFeed_image (newFeedId : Z) (image : FeedImageDto.t)
  : Async unit :=
  _ <~ insert_FeedImage newFeedId (FeedImageDto.image image)
                        (FeedImageDto.sortOrder image) ;;
  Resolved tt.

(** The callback of one tag name of [createFeed]: look the tag up by
    name, save a new Tag row when there is none, save the mapper row. *)
Definition createFeed_mapper (newFeedId : Z) (tag : Tag.t) : Async unit :=
  _ <~ insert_MapperFeedTag newFeedId (Tag.id tag) ;;
  Resolved tt.

Definition createFeed_tag (newFeedId : Z) (tagName : string) : Async unit :=
  db <~ outside iso committed ;;
  match tagRepository_findOne_tagName db tagName with
  | Some tag => createFeed_mapper newFeedId tag
  | None =>
      tag <~ insert_Tag tagName ;;
      createFeed_mapper newFeedId tag
  end.

Definition createFeed_body (dflt : FeedDefaults.t) (now userId : Z)
    (feedCreateDto : FeedCreateDto.t) : Tx Feed.t :=
  newFeed <- insert_Feed (new_Feed dflt now userId feedCreateDto) ;;
  (if nonempty (FeedCreateDto.feedImages feedCreateDto)
   then _ <- run (Promise_all
                    (map (createFeed_image (Feed.id newFeed))
                         (FeedCreateDto.feedImages feedCreateDto))) ;;
        ret tt
   else ret tt) ;;;
  db <- outside iso committed ;;
  user <- nonNull (userRepository_findOne db userId) ;;
  _ <- save_User (User.set_feedCount user (User.feedCount user + 1)) ;;
  (if nonempty (FeedCreateDto.tagNames feedCreateDto)
   then _ <- run (Promise_all
                    (map (createFeed_tag (Feed.id newFeed))
                         (FeedCreateDto.tagNames feedCreateDto))) ;;
        ret tt
   else ret tt) ;;;
  ret newFeed.

Definition likeFeed_body (userId feedId : Z) : Tx unit :=
  _ <- insert_FeedLike feedId userId ;;
  db <- outside iso committed ;;
  feed <- liftR (findOneFeed db feedId) ;;
  let feed := FeedFindOneVo.feed feed in
  _ <- save_Feed (Feed.set_likeCount feed (Feed.likeCount feed + 1)) ;;
  ret tt.

Definition deleteLikeFeed_body (userId feedId : Z) : Tx unit :=
  delete_FeedLike (fun l => (FeedLike.feedId l =? feedId)
                            && (FeedLike.userId l =? userId)) ;;;
  db <- outside iso committed ;;
  feed <- liftR (findOneFeed db feedId) ;;
  let feed := FeedFindOneVo.feed feed in
  _ <- save_Feed (Feed.set_likeCount feed (Feed.likeCount feed - 1)) ;;
  ret tt.

(** The feed that is returned is given by the columns of the row that is
    saved. *)
Definition updateFeedStatus_body (feedId : Z) (status : FEED_STATUS)
  : Tx Feed.t :=
  db <- outside iso committed ;;
  feed <- liftR (findOneFeed db feedId) ;;
  feed <- save_Feed (Feed.set_status (FeedFindOneVo.feed feed) status) ;;
  db <- outside iso committed ;;
  user <- nonNull (userRepository_findOne db (Feed.userId feed)) ;;
  _ <- save_User
         (if FEED_STATUS_eqb (Feed.status feed) ACTIVE
          then User.set_feedCount user (User.feedCount user + 1)
          else User.set_feedCount user (User.feedCount user - 1)) ;;
  ret feed.

(** [feedTags.map((tag) => tag.tagName)]: a [null] entry throws. *)
Fixpoint tagNames_of (feedTags : list (option Tag.t))
  : Result (list string) :=
  match feedTags with
  | [] => Ok []
  | None :: _ => Err TypeError
  | Some tag :: rest =>
      match tagNames_of rest with
      | Ok names => Ok (Tag.tagName tag :: names)
      | Err e => Err e
      end
  end.

(** [[...new Set(names)]]: first occurrences, in insertion order. *)
Fixpoint js_Set (names : list string) : list string :=
  match names with
  | [] => []
  | x :: rest => x :: filter (fun y => negb (String.eqb y x)) (js_Set rest)
  end.

(** The callback of one stale tag name of [updateFeed]. *)
Definition updateFeed_deleteTag (feedId : Z) (tagName : string)
  : Async unit :=
  db <~ outside iso committed ;;
  match tagRepository_findOne_tagName db tagName with
  | Some deleteTag =>
      if negb (Tag.id deleteTag =? 0)
      then _ <~ delete_MapperFeedTag
                  (fun m => (MapperFeedTag.feedId m =? feedId)
                            && (MapperFeedTag.tagId m =? Tag.id deleteTag)) ;;
           Resolved tt
      else Resolved tt
  | None => Resolved tt
  end.

(** The rest of the callback of one tag name of [updateFeed], from
    [await this.findOneFeed(feedId)] on: delete the mapper rows of the
    tags the feed is read to have and the request does not name.  The
    reads of the one [findOneFeed] see one state of the store. *)
Definition updateFeed_deletedTags (feedId : Z) (tagNames : list string)
  : Async unit :=
  found <~ (db <- outside iso committed ;; liftR (findOneFeed db feedId)) ;;
  match tagNames_of (FeedFindOneVo.tags found) with
  | Err e => Rejected e
  | Ok names =>
      let prevTags := js_Set names in
      let deletedTags :=
        filter (fun tag => negb (existsb (String.eqb tag) tagNames))
               prevTags in
      if nonempty deletedTags
      then await (Promise_all (map (updateFeed_deleteTag feedId) deletedTags))
                 (fun _ => Resolved tt)
      else Resolved tt
  end.

(** Save the (feed, tag) mapper row when there is none, and go on. *)
Definition updateFeed_mapper (feed : option Feed.t) (feedId : Z)
    (tagNames : list string) (tag : Tag.t) : Async unit :=
  db <~ outside iso committed ;;
  match MapperFeedTag_findOne db (Tag.id tag) feedId with
  | Some _ => updateFeed_deletedTags feedId tagNames
  | None =>
      match feed with
      | None => Rejected TypeError
      | Some feed =>
          _ <~ insert_MapperFeedTag (Feed.id feed) (Tag.id tag) ;;
          updateFeed_deletedTags feedId tagNames
      end
  end.

(** The callback of one tag name of [updateFeed]. *)
Definition updateFeed_tag (feed : option Feed.t) (feedId : Z)
    (tagNames : list string) (tagName : string) : Async unit :=
  db <~ outside iso committed ;;
  match tagRepository_findOne_tagName db tagName with
  | Some tag => updateFeed_mapper feed feedId tagNames tag
  | None =>
      tag <~ insert_Tag tagName ;;
      updateFeed_mapper feed feedId tagNames tag
  end.

Definition updateFeed_body (now feedId : Z) (feedUpdateDto : FeedUpdateDto.t)
  : Tx Feed.t :=
  db <- outside iso committed ;;
  let feed := feedRepository_findOne db feedId in
  let tagNames := FeedUpdateDto.tagNames feedUpdateDto in
  (if negb (nonempty tagNames)
   then delete_MapperFeedTag (fun m => MapperFeedTag.feedId m =? feedId)
   else ret tt) ;;;
  (if nonempty tagNames
   then _ <- run (Promise_all
                    (map (updateFeed_tag feed feedId tagNames) tagNames)) ;;
        ret tt
   else ret tt) ;;;
  feed <- nonNull feed ;;
  feed <- save_Feed (Feed.set_description feed
                       (FeedUpdateDto.description feedUpdateDto) now) ;;
  ret feed.

(** [user.feedCount--] on the user of the given id, saved. *)
Definition hardDeleteFeed_feedCount (userId : Z) : Tx unit :=
  db <- outside iso committed ;;
  user <- nonNull (userRepository_findOne db userId) ;;
  _ <- save_User (User.set_feedCount user (User.feedCount user - 1)) ;;
  ret tt.

(** The awaited statements of [hardDeleteFeed], in program order. *)
Definition hardDeleteFeed_statements (userId feedId : Z) : list (Tx unit) :=
  [ delete_FeedImage (fun i => FeedImage.feedId i =? feedId);
    delete_FeedLike (fun l => FeedLike.feedId l =? feedId);
    delete_FeedBookmark (fun b => FeedBookmark.feedId b =? feedId);
    delete_Feed (fun f => Feed.id f =? feedId);
    hardDeleteFeed_feedCount userId ].

Definition hardDeleteFeed_body (userId feedId : Z) : Tx unit :=
  in_sequence (hardDeleteFeed_statements userId feedId).

End Transactions.

(** The working copies a statement sequence goes through: the copy after
    each statement that returned, up to the first one that throws. *)
Fixpoint states_after (statements : list (Tx unit)) (w : DB) : list DB :=
  match statements with
  | [] => []
  | s :: rest =>
      match s w with
      | Ok (_, w') => w' :: states_after rest w'
      | Err _ => []
      end
  end.

Definition createFeed (iso : Isolation) (dflt : FeedDefaults.t)
    (now userId : Z) (feedCreateDto : FeedCreateDto.t) (db : DB)
  : Result Feed.t * DB :=
  dataSource_transaction
    (createFeed_body iso db dflt now userId feedCreateDto) db.

Definition likeFeed (iso : Isolation) (userId feedId : Z) (db : DB)
  : Result unit * DB :=
  dataSource_transaction (likeFeed_body iso db userId feedId) db.

Definition deleteLikeFeed (iso : Isolation) (userId feedId : Z) (db : DB)
  : Result unit * DB :=
  dataSource_transaction (deleteLikeFeed_body iso db userId feedId) db.

Definition updateFeed (iso : Isolation) (now feedId : Z)
    (feedUpdateDto : FeedUpdateDto.t) (db : DB) : Result Feed.t * DB :=
  dataSource_transaction (updateFeed_body iso db now feedId feedUpdateDto) db.

Definition updateFeedStatus (iso : Isolation) (feedId : Z)
    (status : FEED_STATUS) (db : DB) : Result Feed.t * DB :=
  dataSource_transaction (updateFeedStatus_body iso db feedId status) db.

Definition hardDeleteFeed (iso : Isolation) (userId feedId : Z) (db : DB)
  : Result unit * DB :=
  dataSource_transaction (hardDeleteFeed_body iso db userId feedId) db.

(** ** Vocabulary of the properties *)

(** What [processFeedItem] leaves behind a non-null item. *)
Definition hydrated (db : DB) (userId : option Z) (item : FeedFindOneVo.t)
  : FeedFindOneVo.t :=
  let id := Feed.id (FeedFindOneVo.feed item) in
  FeedFindOneVo.mk (FeedFindOneVo.feed item) (FeedFindOneVo.user item)
    (__get_feed_images db id) (__get_feed_tags db id)
    match truthy userId with
    | Some u => Some (__get_feed_like_by_user db u id)
    | None => FeedFindOneVo.likedYn item
    end
    match truthy userId with
    | Some u => Some (__get_feed_bookmark_by_user db u id)
    | None => FeedFindOneVo.bookmarkedYn item
    end.

(** The FeedLike rows of a feed, and those of one user on it. *)
Definition likes_of (db : DB) (feedId : Z) : list FeedLike.t :=
  filter (fun l => FeedLike.feedId l =? feedId) (feedLikes db).

Definition likes_of_by (db : DB) (feedId userId : Z) : list FeedLike.t :=
  filter (fun l => (FeedLike.feedId l =? feedId)
                   && (FeedLike.userId l =? userId)) (feedLikes db).

(** "[Feed.likeCount] equals the number of FeedLike rows for that feed",
    for every feed row. *)
Definition likeCount_consistent (db : DB) : bool :=
  forallb (fun f => Feed.likeCount f
                    =? Z.of_nat (List.length (likes_of db (Feed.id f))))
          (feeds db).

Definition feedCount_of (db : DB) (userId : Z) : option Z :=
  option_map User.feedCount (userRepository_findOne db userId).

(** Dependent rows of a feed that [hardDeleteFeed] is concerned with. *)
Definition bookmarks_of (db : DB) (feedId : Z) : list FeedBookmark.t :=
  filter (fun b => FeedBookmark.feedId b =? feedId) (feedBookmarks db).

Definition no_dependents (db : DB) (feedId : Z) : Prop :=
  __get_feed_images db feedId = [] /\ likes_of db feedId = []
  /\ bookmarks_of db feedId = [].

Definition mappers_of (db : DB) (feedId : Z) : list MapperFeedTag.t :=
  filter (fun m => MapperFeedTag.feedId m =? feedId) (mapperFeedTags db).

(** Ascending [sortOrder]. *)
Fixpoint ordered_by_sortOrder (l : list FeedImage.t) : bool :=
  match l with
  | [] => true
  | x :: rest =>
      match rest with
      | [] => true
      | y :: _ => (FeedImage.sortOrder x <=? FeedImage.sortOrder y)
                  && ordered_by_sortOrder rest
      end
  end.

(** The tag filter of [findAll], on the fetched feeds themselves. *)
Definition tag_filtered (dto : FeedListDto.t) (fetched : list FeedFindOneVo.t)
  : list FeedFindOneVo.t :=
  match FeedListDto.tagName dto with
  | Some tagName =>
      if negb (String.eqb tagName "") then filter (has_tagName tagName) fetched
      else fetched
  | None => fetched
  end.

(** Schema constraints, as checks on a store.  [distinct] tests a list
    for repetitions. *)
Fixpoint distinct {A} (eqb : A -> A -> bool) (l : list A) : bool :=
  match l with
  | [] => true
  | x :: rest => negb (existsb (eqb x) rest) && distinct eqb rest
  end.

(** The primary keys of [tag] are unique, positive and below the table's
    counter, which is positive. *)
Definition tag_keys_ok (db : DB) : bool :=
  distinct Z.eqb (map Tag.id (tags db))
  && (0 <? nextTagId db)
  && forallb (fun t => (0 <? Tag.id t) && (Tag.id t <? nextTagId db))
             (tags db).

(** [tagName] is unique. *)
Definition tag_names_unique (db : DB) : bool :=
  distinct String.eqb (map Tag.tagName (tags db)).

(** Every mapper row references a tag row. *)
Definition mappers_reference_tags (db : DB) : bool :=
  forallb (fun m => existsb (fun t => Tag.id t =? MapperFeedTag.tagId m)
                            (tags db))
          (mapperFeedTags db).

(** No image or mapper row references a feed id that has not been issued
    yet. *)
Definition feed_ids_issued (db : DB) : bool :=
  forallb (fun m => MapperFeedTag.feedId m <? nextFeedId db)
          (mapperFeedTags db)
  && forallb (fun i => FeedImage.feedId i <? nextFeedId db) (feedImages db).

(** The rows in which a transaction leaves the tables it does not write. *)
Definition same_rest (w w' : DB) : Prop :=
  users w' = users w /\ feeds w' = feeds w /\ feedImages w' = feedImages w
  /\ feedLikes w' = feedLikes w /\ feedBookmarks w' = feedBookmarks w
  /\ nextFeedId w' = nextFeedId w.

(** ** Sample stores *)

Definition schema_defaults : FeedDefaults.t := FeedDefaults.mk 0 Y 0 Y ACTIVE.

(** Two users, nothing else. *)
Definition store_users : DB :=
  mkDB [User.mk 1 0 N []; User.mk 2 0 N []] [] [] [] [] [] [] 1 1 1 1 1 1.

(** After user 1 has posted one feed with two images, supplied with
    [sortOrder] 2 then 1, and tags A, B, C. *)
Definition store_one_feed : DB :=
  snd (createFeed ReadCommitted schema_defaults 100 1
         (FeedCreateDto.mk "first"
            [FeedImageDto.mk "b.png" 2; FeedImageDto.mk "a.png" 1]
            ["A"; "B"; "C"])
         store_users).

(** The store a successful [likeFeed] / [deleteLikeFeed] commits. *)
Definition liked (db : DB) (userId feedId : Z) (f : Feed.t) : DB :=
  mkDB (users db)
       (replace_by Feed.id (Feed.set_likeCount f (Feed.likeCount f + 1))
                   (feeds db))
       (feedImages db)
       (feedLikes db ++ [FeedLike.mk (nextFeedLikeId db) feedId userId])
       (feedBookmarks db) (tags db) (mapperFeedTags db) (nextFeedId db)
       (nextFeedImageId db) (nextFeedLikeId db + 1) (nextFeedBookmarkId db)
       (nextTagId db) (nextMapperFeedTagId db).

Definition unliked (db : DB) (userId feedId : Z) (f : Feed.t) : DB :=
  mkDB (users db)
       (replace_by Feed.id (Feed.set_likeCount f (Feed.likeCount f - 1))
                   (feeds db))
       (feedImages db)
       (filter (fun l => negb ((FeedLike.feedId l =? feedId)
                               && (FeedLike.userId l =? userId)))
               (feedLikes db))
       (feedBookmarks db) (tags db) (mapperFeedTags db) (nextFeedId db)
       (nextFeedImageId db) (nextFeedLikeId db) (nextFeedBookmarkId db)
       (nextTagId db) (nextMapperFeedTagId db).

(** A store in which user 2 has liked feed 1 once. *)
Definition store_one_like : DB :=
  snd (likeFeed ReadCommitted 2 1 store_one_feed).

(** The store a successful [updateFeedStatus] commits. *)
Definition status_updated (db : DB) (f : Feed.t) (u : User.t)
    (status : FEED_STATUS) : DB :=
  mkDB (replace_by User.id
          (if FEED_STATUS_eqb status ACTIVE
           then User.set_feedCount u (User.feedCount u + 1)
           else User.set_feedCount u (User.feedCount u - 1))
          (users db))
       (replace_by Feed.id (Feed.set_status f status) (feeds db))
       (feedImages db) (feedLikes db) (feedBookmarks db) (tags db)
       (mapperFeedTags db) (nextFeedId db) (nextFeedImageId db)
       (nextFeedLikeId db) (nextFeedBookmarkId db) (nextTagId db)
       (nextMapperFeedTagId db).

(** The working copies [hardDeleteFeed] goes through: images gone, then
    likes, then bookmarks, then the feed row, then the user saved. *)
Definition hd_images_gone (db : DB) (feedId : Z) : DB :=
  with_feedImages db
    (filter (fun r => negb (FeedImage.feedId r =? feedId)) (feedImages db))
    (nextFeedImageId db).

Definition hd_likes_gone (db : DB) (feedId : Z) : DB :=
  let w := hd_images_gone db feedId in
  with_feedLikes w
    (filter (fun r => negb (FeedLike.feedId r =? feedId)) (feedLikes w))
    (nextFeedLikeId w).

Definition hd_bookmarks_gone (db : DB) (feedId : Z) : DB :=
  let w := hd_likes_gone db feedId in
  with_feedBookmarks w
    (filter (fun r => negb (FeedBookmark.feedId r =? feedId))
            (feedBookmarks w))
    (nextFeedBookmarkId w).

Definition hd_feed_gone (db : DB) (feedId : Z) : DB :=
  let w := hd_bookmarks_gone db feedId in
  with_feeds w (filter (fun r => negb (Feed.id r =? feedId)) (feeds w))
             (nextFeedId w).

Definition hd_user_saved (db : DB) (feedId : Z) (u : User.t) : DB :=
  let w := hd_feed_gone db feedId in
  with_users w (replace_by User.id
                  (User.set_feedCount u (User.feedCount u - 1)) (users w)).

(** One user with [n] visible, active feeds and nothing else. *)
Definition store_many_feeds (n : nat) : DB :=
  mkDB [User.mk 1 (Z.of_nat n) N []]
       (map (fun i => Feed.mk (Z.of_nat i) 1 "" 0 Y 0 Y ACTIVE
                              (Z.of_nat i) (Z.of_nat i))
            (seq 1 n))
       [] [] [] [] []
       (Z.of_nat n + 1) 1 1 1 1 1.

(** The store of [store_one_feed] after its feed has been soft-deleted by
    a status update. *)
Definition store_deleted_feed : DB :=
  snd (updateFeedStatus ReadCommitted 1 DELETED store_one_feed).

(** The same constraints as propositions, for the working copies inside a
    transaction. *)
Definition TagKeys (w : DB) : Prop :=
  NoDup (map Tag.id (tags w))
  /\ 0 < nextTagId w
  /\ forall t, In t (tags w) -> 0 < Tag.id t < nextTagId w.

Definition TagNames (w : DB) : Prop := NoDup (map Tag.tagName (tags w)).

Definition MapperFK (w : DB) : Prop :=
  forall m, In m (mapperFeedTags w) ->
            exists t, In t (tags w) /\ Tag.id t = MapperFeedTag.tagId m.

(** The feed has a mapper row to a tag of the given name. *)
Definition has_mapper (w : DB) (feedId : Z) (name : string) : Prop :=
  exists m t,
    In m (mapperFeedTags w) /\ MapperFeedTag.feedId m = feedId
    /\ In t (tags w) /\ Tag.id t = MapperFeedTag.tagId m
    /\ Tag.tagName t = name.



(** One round of a callback: the operation it waits for is carried out
    and the callback runs up to its next [await]. *)
Definition step {A} (c : Async A) : Tx (Async A) :=
  match c with
  | Await op k => bind op (fun x => ret (k x))
  | _ => ret c
  end.

Fixpoint round {A} (callbacks : list (Async A)) : Tx (list (Async A)) :=
  match callbacks with
  | [] => ret []
  | c :: rest =>
      bind (step c)
           (fun c' => bind (round rest) (fun rest' => ret (c' :: rest')))
  end.

Definition pending {A} (c : Async A) : Prop :=
  match c with
  | Rejected _ => False
  | _ => True
  end.

(** Reasoning about callbacks that run together.  [Inv] is an invariant
    of the working copy and [G] bounds what one operation of any callback
    may change.  A callback satisfies [sat c P Q] when, started with [P]
    known, every operation it carries out keeps [Inv] and stays within
    [G], and it resolves with [Q]; [P] and what the callback knows at
    each later [await] must be [stable]: kept by the operations of the
    other callbacks.  [fail_ok] says whether the callback may throw. *)
Section Callbacks.

Variable Inv : DB -> Prop.
Variable G : DB -> DB -> Prop.
Variable fail_ok : Prop.

Definition stable (P : DB -> Prop) : Prop :=
  forall w w', Inv w -> Inv w' -> G w w' -> P w -> P w'.

Fixpoint sat {A} (c : Async A) (P : DB -> Prop) (Q : A -> DB -> Prop)
  : Prop :=
  match c with
  | Resolved a => forall w, Inv w -> P w -> Q a w
  | Rejected _ => forall w, Inv w -> P w -> fail_ok
  | Await op k =>
      forall w, Inv w -> P w ->
        match op w with
        | Ok (x, w') =>
            Inv w' /\ G w w'
            /\ exists P', stable P' /\ P' w' /\ sat (k x) P' Q
        | Err _ => fail_ok
        end
  end.

End Callbacks.





(** The request of the update-reconciliation example: tags B, C, D. *)
Definition update_B_C_D : FeedUpdateDto.t :=
  FeedUpdateDto.mk "edited" ["B"; "C"; "D"].

(** The FeedImage rows [createFeed] inserts for a feed, the first of them
    under the id [next]. *)
Fixpoint new_images (feedId next : Z) (images : list FeedImageDto.t)
  : list FeedImage.t :=
  match images with
  | [] => []
  | i :: rest =>
      FeedImage.mk next feedId (FeedImageDto.image i)
                   (FeedImageDto.sortOrder i)
      :: new_images feedId (next + 1) rest
  end.

(** The working copy of [createFeed] before its tag callbacks. *)
Definition created_before_tags (dflt : FeedDefaults.t) (now userId : Z)
    (dto : FeedCreateDto.t) (u : User.t) (db : DB) : DB :=
  let newFeed := new_Feed dflt now userId dto (nextFeedId db) in
  mkDB (replace_by User.id (User.set_feedCount u (User.feedCount u + 1))
                   (users db))
       (feeds db ++ [newFeed])
       (feedImages db
        ++ new_images (nextFeedId db) (nextFeedImageId db)
                      (FeedCreateDto.feedImages dto))
       (feedLikes db) (feedBookmarks db) (tags db) (mapperFeedTags db)
       (nextFeedId db + 1)
       (nextFeedImageId db
        + Z.of_nat (List.length (FeedCreateDto.feedImages dto)))
       (nextFeedLikeId db) (nextFeedBookmarkId db) (nextTagId db)
       (nextMapperFeedTagId db).

(** ** The other write transactions of the repository *)

Definition insert_FeedBookmark (feedId userId : Z) : Tx FeedBookmark.t :=
  fun w => let row := FeedBookmark.mk (nextFeedBookmarkId w) feedId userId in
           Ok (row, with_feedBookmarks w (feedBookmarks w ++ [row])
                                       (nextFeedBookmarkId w + 1)).

Definition set_showLikeCountYn (f : Feed.t) (y : YN) : Feed.t :=
  Feed.mk (Feed.id f) (Feed.userId f) (Feed.description f) (Feed.likeCount f)
          y (Feed.commentCount f) (Feed.displayYn f) (Feed.status f)
          (Feed.createdAt f) (Feed.updatedAt f).

Section OtherTransactions.
Local Open Scope tx_scope.

Variable iso : Isolation.
Variable committed : DB.

Definition bookmarkFeed_body (userId feedId : Z) : Tx unit :=
  _ <- insert_FeedBookmark feedId userId ;;
  ret tt.

(** Modelled from the spec: the request class [FeedUpdateStatusDto] is not
    among the sources; "Update like-count visibility flag: set
    [showLikeCountYn]": its field carries the new value of the column. *)
Definition updateShowLikeCount_body (feedId : Z) (showLikeCountYn : YN)
  : Tx Feed.t :=
  db <- outside iso committed ;;
  feed <- liftR (findOneFeed db feedId) ;;
  feed <- save_Feed (set_showLikeCountYn (FeedFindOneVo.feed feed)
                                         showLikeCountYn) ;;
  ret feed.

(** The soft delete: the feed row is looked up without the join of
    [findOneFeed], and the counter of the user named by [userId] is the
    one decremented. *)
Definition deleteFeed_body (userId feedId : Z) : Tx Feed.t :=
  db <- outside iso committed ;;
  feed <- nonNull (feedRepository_findOne db feedId) ;;
  feed <- save_Feed (Feed.set_status feed DELETED) ;;
  db <- outside iso committed ;;
  user <- nonNull (userRepository_findOne db userId) ;;
  _ <- save_User (User.set_feedCount user (User.feedCount user - 1)) ;;
  ret feed.

Definition deleteFeedImage_body (feedId sortOrder : Z) : Tx unit :=
  delete_FeedImage (fun i => (FeedImage.feedId i =? feedId)
                             && (FeedImage.sortOrder i =? sortOrder)).

Definition deleteBookmarkFeed_body (userId feedId : Z) : Tx unit :=
  delete_FeedBookmark (fun b => (FeedBookmark.feedId b =? feedId)
                                && (FeedBookmark.userId b =? userId)).

End OtherTransactions.

Definition bookmarkFeed (userId feedId : Z) (db : DB) : Result unit * DB :=
  dataSource_transaction (bookmarkFeed_body userId feedId) db.

Definition updateShowLikeCount (iso : Isolation) (feedId : Z)
    (showLikeCountYn : YN) (db : DB) : Result Feed.t * DB :=
  dataSource_transaction
    (updateShowLikeCount_body iso db feedId showLikeCountYn) db.

Definition deleteFeed (iso : Isolation) (userId feedId : Z) (db : DB)
  : Result Feed.t * DB :=
  dataSource_transaction (deleteFeed_body iso db userId feedId) db.

Definition deleteFeedImage (feedId sortOrder : Z) (db : DB)
  : Result unit * DB :=
  dataSource_transaction (deleteFeedImage_body feedId sortOrder) db.

Definition deleteBookmarkFeed (userId feedId : Z) (db : DB)
  : Result unit * DB :=
  dataSource_transaction (deleteBookmarkFeed_body userId feedId) db.

(** ** Vocabulary of the further properties *)

(** The FeedBookmark rows of one user on a feed. *)
Definition bookmarks_of_by (db : DB) (feedId userId : Z)
  : list FeedBookmark.t :=
  filter (fun b => (FeedBookmark.feedId b =? feedId)
                   && (FeedBookmark.userId b =? userId)) (feedBookmarks db).

(** The tables other than [feedBookmarks], and the counters other than
    its own, agree. *)
Definition same_but_bookmarks (w w' : DB) : Prop :=
  users w' = users w /\ feeds w' = feeds w /\ feedImages w' = feedImages w
  /\ feedLikes w' = feedLikes w /\ tags w' = tags w
  /\ mapperFeedTags w' = mapperFeedTags w.

(** The tables other than [feedImages] agree. *)
Definition same_but_images (w w' : DB) : Prop :=
  users w' = users w /\ feeds w' = feeds w /\ feedLikes w' = feedLikes w
  /\ feedBookmarks w' = feedBookmarks w /\ tags w' = tags w
  /\ mapperFeedTags w' = mapperFeedTags w.

(** The rows that depend on feeds, and the tags, agree. *)
Definition same_dependents (w w' : DB) : Prop :=
  feedImages w' = feedImages w /\ feedLikes w' = feedLikes w
  /\ feedBookmarks w' = feedBookmarks w /\ tags w' = tags w
  /\ mapperFeedTags w' = mapperFeedTags w.

(** A store with a second feed, posted by user 2, and a bookmark of user 1
    on the first feed. *)
Definition store_two_feeds : DB :=
  snd (bookmarkFeed 1 1
         (snd (createFeed ReadCommitted schema_defaults 300 2
                 (FeedCreateDto.mk "second" [FeedImageDto.mk "c.png" 1]
                                   ["A"; "E"])
                 store_one_like))).

(** No FeedLike row references a feed id that has not been issued yet. *)
Definition like_ids_issued (db : DB) : bool :=
  forallb (fun l => FeedLike.feedId l <? nextFeedId db) (feedLikes db).

(** Newest first: no creation time is later than one before it in the
    list. *)
Fixpoint newest_first (createdAt : list Z) : bool :=
  match createdAt with
  | [] => true
  | x :: rest => forallb (fun y => y <=? x) rest && newest_first rest
  end.

Definition created (item : FeedFindOneVo.t) : Z :=
  Feed.createdAt (FeedFindOneVo.feed item).

(** The Tag rows saved for a list of new names, the first of them under
    the id [next]. *)
Fixpoint new_tags (next : Z) (names : list string) : list Tag.t :=
  match names with
  | [] => []
  | n :: rest => Tag.mk next n :: new_tags (next + 1) rest
  end.

(** The names of a request that the tag table does not have. *)
Definition unknown_names (db : DB) (names : list string) : list string :=
  filter (fun n => match tagRepository_findOne_tagName db n with
                   | Some _ => false
                   | None => true
                   end) names.




(** The tags a request names that the tag table has, in request order. *)
Definition known_tags (db : DB) (names : list string) : list Tag.t :=
  flat_map (fun n => match tagRepository_findOne_tagName db n with
                     | Some t => [t]
                     | None => []
                     end) names.

(** The mapper rows saved for a feed and a list of tag ids, the first of
    them under the id [next]. *)
Fixpoint new_mappers (feedId next : Z) (tagIds : list Z)
  : list MapperFeedTag.t :=
  match tagIds with
  | [] => []
  | tagId :: rest =>
      MapperFeedTag.mk next feedId tagId :: new_mappers feedId (next + 1) rest
  end.

(** The tag callbacks of [createFeed] after their second round: those of
    known names have resolved, those of new names have saved their Tag
    row, the first of them under the id [next]. *)
Fixpoint createFeed_saving (db : DB) (feedId next : Z) (names : list string)
  : list (Async unit) :=
  match names with
  | [] => []
  | n :: rest =>
      match tagRepository_findOne_tagName db n with
      | Some _ => Resolved tt :: createFeed_saving db feedId next rest
      | None =>
          createFeed_mapper feedId (Tag.mk next n)
          :: createFeed_saving db feedId (next + 1) rest
      end
  end.

(** The tag ids of the mapper rows [createFeed] saves, in the order in
    which they are saved: the known tags first, then the new ones. *)
Definition mapped_tagIds (db : DB) (names : list string) : list Z :=
  map Tag.id (known_tags db names)
  ++ map Tag.id (new_tags (nextTagId db) (unknown_names db names)).

(** The store [createFeed] commits for an existing user [u]. *)
Definition created_store (dflt : FeedDefaults.t) (now userId : Z)
    (dto : FeedCreateDto.t) (u : User.t) (db : DB) : DB :=
  let w := created_before_tags dflt now userId dto u db in
  let names := FeedCreateDto.tagNames dto in
  let newTags := new_tags (nextTagId db) (unknown_names db names) in
  with_mapperFeedTags
    (with_tags w (tags db ++ newTags)
               (nextTagId db + Z.of_nat (List.length newTags)))
    (mapperFeedTags db
     ++ new_mappers (nextFeedId db) (nextMapperFeedTagId db)
                    (mapped_tagIds db names))
    (nextMapperFeedTagId db + Z.of_nat (List.length (mapped_tagIds db names))).




(** * Properties *)

Lemma YN_eqb_eq a b : YN_eqb a b = true <-> a = b.
Proof. destruct a, b; simpl; split; congruence. Qed.

Lemma FEED_STATUS_eqb_eq a b : FEED_STATUS_eqb a b = true <-> a = b.
Proof.
  destruct a, b; simpl; split; try congruence.
  - intros H. apply String.eqb_eq in H. now subst.
  - intros H. injection H as ->. apply String.eqb_refl.
Qed.


(** ** Lists, lookups and saved rows *)

Lemma find_replace_by {A} (key : A -> Z) (x : A) (l : list A) :
  existsb (fun r => key r =? key x) l = true ->
  find (fun r => key r =? key x) (replace_by key x l) = Some x.
Proof.
  induction l as [|y l IH]; simpl; [discriminate|].
  destruct (key y =? key x) eqn:E; simpl.
  - rewrite Z.eqb_refl. reflexivity.
  - rewrite E. exact IH.
Qed.

Lemma filter_length_split {A} (p q : A -> bool) (l : list A) :
  List.length (filter p l)
  = (List.length (filter (fun x => p x && q x) l)
     + List.length (filter p (filter (fun x => negb (p x && q x)) l)))%nat.
Proof.
  induction l as [|x l IH]; simpl; [reflexivity|].
  destruct (p x) eqn:Ep, (q x) eqn:Eq; simpl; rewrite ?Ep; simpl; lia.
Qed.

Lemma filter_filter_other {A} (p q : A -> bool) (l : list A) :
  (forall x, q x = true -> p x = false) ->
  filter p (filter (fun x => negb (q x)) l) = filter p l.
Proof.
  intros H. induction l as [|x l IH]; simpl; [reflexivity|].
  destruct (q x) eqn:Eq; simpl.
  - rewrite (H x Eq). exact IH.
  - destruct (p x); [f_equal|]; exact IH.
Qed.

(** ** The read of one feed *)

Lemma processFeedItem_Some db item userId :
  processFeedItem db (Some item) userId = Ok (hydrated db userId item).
Proof. reflexivity. Qed.

Lemma findOneFeed_unfold db feedId :
  findOneFeed db feedId
  = match feed_by_id db feedId with
    | Some item => Ok (hydrated db None item)
    | None => Err TypeError
    end.
Proof. unfold findOneFeed. now destruct (feed_by_id db feedId). Qed.

Lemma feed_by_id_ext db1 db2 feedId :
  feeds db1 = feeds db2 -> users db1 = users db2 ->
  feed_by_id db1 feedId = feed_by_id db2 feedId.
Proof.
  intros Hf Hu. unfold feed_by_id, join_user, userRepository_findOne.
  now rewrite Hf, Hu.
Qed.

Lemma feed_by_id_Some db feedId item :
  feed_by_id db feedId = Some item ->
  In (FeedFindOneVo.feed item) (feeds db)
  /\ Feed.id (FeedFindOneVo.feed item) = feedId
  /\ exists u,
       FeedFindOneVo.user item = Some u
       /\ userRepository_findOne db (Feed.userId (FeedFindOneVo.feed item))
          = Some u.
Proof.
  unfold feed_by_id. intros H.
  assert (In item (flat_map (join_user db (fun _ => []))
                     (filter (fun f => Feed.id f =? feedId) (feeds db)))) as Hin.
  { destruct (flat_map _ _) as [|y l]; [discriminate|].
    injection H as ->. now left. }
  apply in_flat_map in Hin. destruct Hin as [f [Hf Hj]].
  apply filter_In in Hf. destruct Hf as [Hf Hid]. apply Z.eqb_eq in Hid.
  unfold join_user in Hj.
  destruct (userRepository_findOne db (Feed.userId f)) as [u|] eqn:Eu;
    [|contradiction].
  destruct Hj as [<-|[]]. simpl. split; [exact Hf|]. split; [exact Hid|].
  now exists u.
Qed.

(** The first row with the id is the one selected when its author's row
    exists. *)
Lemma feed_by_id_first db feedId f u :
  feedRepository_findOne db feedId = Some f ->
  userRepository_findOne db (Feed.userId f) = Some u ->
  feed_by_id db feedId = Some (FeedFindOneVo.mk f (Some u) [] [] None None).
Proof.
  unfold feedRepository_findOne, feed_by_id. intros Hf Hu.
  induction (feeds db) as [|y l IH]; simpl in *; [discriminate|].
  destruct (Feed.id y =? feedId) eqn:E.
  - injection Hf as ->. simpl. unfold join_user at 1. now rewrite Hu.
  - now apply IH.
Qed.

Lemma feed_by_id_saved db feedId item f' users' next :
  feed_by_id db feedId = Some item ->
  Feed.id f' = feedId ->
  feedRepository_findOne
    (mkDB users' (replace_by Feed.id f' (feeds db)) (feedImages db)
          (feedLikes db) (feedBookmarks db) (tags db) (mapperFeedTags db)
          next (nextFeedImageId db) (nextFeedLikeId db)
          (nextFeedBookmarkId db) (nextTagId db) (nextMapperFeedTagId db))
    feedId = Some f'.
Proof.
  intros H Hid. apply feed_by_id_Some in H. destruct H as [Hin [Hi _]].
  unfold feedRepository_findOne. simpl. rewrite <- Hid.
  apply find_replace_by. apply existsb_exists.
  exists (FeedFindOneVo.feed item). split; [exact Hin|].
  apply Z.eqb_eq. congruence.
Qed.

Lemma feed_row_exists db feedId item :
  feed_by_id db feedId = Some item ->
  existsb (fun r => Feed.id r =? feedId) (feeds db) = true.
Proof.
  intros H. apply feed_by_id_Some in H. destruct H as [Hin [Hi _]].
  apply existsb_exists. exists (FeedFindOneVo.feed item).
  split; [exact Hin | now apply Z.eqb_eq].
Qed.

(** ** Like and unlike *)

Lemma likeFeed_eval iso userId feedId db :
  likeFeed iso userId feedId db
  = match feed_by_id db feedId with
    | Some item => (Ok tt, liked db userId feedId (FeedFindOneVo.feed item))
    | None => (Err TypeError, db)
    end.
Proof.
  unfold likeFeed, dataSource_transaction, likeFeed_body, bind, outside,
    insert_FeedLike, liftR.
  rewrite findOneFeed_unfold.
  match goal with
  | |- context [feed_by_id ?v feedId] =>
      replace (feed_by_id v feedId) with (feed_by_id db feedId)
        by (destruct iso; reflexivity)
  end.
  destruct (feed_by_id db feedId) as [item|] eqn:E; [|reflexivity].
  unfold save_Feed. cbn [FeedFindOneVo.feed hydrated feeds with_feedLikes].
  assert (Feed.id (FeedFindOneVo.feed item) = feedId) as Hid
      by (now apply feed_by_id_Some in E).
  cbn [Feed.id Feed.set_likeCount]. rewrite Hid.
  rewrite (feed_row_exists _ _ _ E). reflexivity.
Qed.

Lemma deleteLikeFeed_eval iso userId feedId db :
  deleteLikeFeed iso userId feedId db
  = match feed_by_id db feedId with
    | Some item => (Ok tt, unliked db userId feedId (FeedFindOneVo.feed item))
    | None => (Err TypeError, db)
    end.
Proof.
  unfold deleteLikeFeed, dataSource_transaction, deleteLikeFeed_body, bind,
    outside, delete_FeedLike, liftR.
  rewrite findOneFeed_unfold.
  match goal with
  | |- context [feed_by_id ?v feedId] =>
      replace (feed_by_id v feedId) with (feed_by_id db feedId)
        by (destruct iso; reflexivity)
  end.
  destruct (feed_by_id db feedId) as [item|] eqn:E; [|reflexivity].
  unfold save_Feed. cbn [FeedFindOneVo.feed hydrated feeds with_feedLikes].
  assert (Feed.id (FeedFindOneVo.feed item) = feedId) as Hid
      by (now apply feed_by_id_Some in E).
  cbn [Feed.id Feed.set_likeCount]. rewrite Hid.
  rewrite (feed_row_exists _ _ _ E). reflexivity.
Qed.

Lemma likeCount_consistent_spec db :
  likeCount_consistent db = true <->
  forall f, In f (feeds db) ->
            Feed.likeCount f = Z.of_nat (List.length (likes_of db (Feed.id f))).
Proof.
  unfold likeCount_consistent. rewrite forallb_forall.
  split; intros H f Hf; specialize (H f Hf); now apply Z.eqb_eq.
Qed.

Lemma likes_of_liked db userId feedId f k :
  likes_of (liked db userId feedId f) k
  = if feedId =? k
    then likes_of db k ++ [FeedLike.mk (nextFeedLikeId db) feedId userId]
    else likes_of db k.
Proof.
  unfold likes_of, liked. cbn [feedLikes]. rewrite filter_app. simpl.
  destruct (feedId =? k); [reflexivity | apply app_nil_r].
Qed.

Lemma likes_of_unliked_other db userId feedId f k :
  k <> feedId ->
  likes_of (unliked db userId feedId f) k = likes_of db k.
Proof.
  intros Hk. unfold likes_of, unliked. cbn [feedLikes].
  apply filter_filter_other with
    (q := fun l => (FeedLike.feedId l =? feedId) && (FeedLike.userId l =? userId)).
  intros x Hx. apply andb_prop in Hx. destruct Hx as [Hx _].
  apply Z.eqb_eq in Hx. apply Z.eqb_neq. congruence.
Qed.

Lemma likes_of_unliked_length db userId feedId f :
  List.length (likes_of db feedId)
  = (List.length (likes_of_by db feedId userId)
     + List.length (likes_of (unliked db userId feedId f) feedId))%nat.
Proof.
  unfold likes_of, likes_of_by, unliked. cbn [feedLikes].
  apply (filter_length_split (fun l => FeedLike.feedId l =? feedId)
                             (fun l => FeedLike.userId l =? userId)).
Qed.

Lemma likes_of_by_unliked db userId feedId f :
  likes_of_by (unliked db userId feedId f) feedId userId = [].
Proof.
  unfold likes_of_by, unliked. cbn [feedLikes].
  induction (feedLikes db) as [|x l IH]; simpl; [reflexivity|].
  destruct ((FeedLike.feedId x =? feedId) && (FeedLike.userId x =? userId))
    eqn:E; simpl; [exact IH | rewrite E; exact IH].
Qed.

Lemma In_replace_by {A} (key : A -> Z) (x r : A) (l : list A) :
  In r (replace_by key x l) ->
  r = x \/ (In r l /\ key r <> key x).
Proof.
  unfold replace_by. intros H. apply in_map_iff in H.
  destruct H as [y [Hy Hin]].
  destruct (key y =? key x) eqn:E.
  - left. congruence.
  - right. subst r. split; [exact Hin | now apply Z.eqb_neq].
Qed.

(** [likeFeed] keeps the counter in step with the rows, from any store. *)
Lemma likeFeed_preserves iso userId feedId db :
  likeCount_consistent db = true ->
  likeCount_consistent (snd (likeFeed iso userId feedId db)) = true.
Proof.
  intros H. rewrite likeFeed_eval.
  destruct (feed_by_id db feedId) as [item|] eqn:E; [|exact H].
  cbn [snd]. apply likeCount_consistent_spec.
  rewrite likeCount_consistent_spec in H.
  destruct (feed_by_id_Some _ _ _ E) as [Hin [Hid _]].
  intros r Hr. rewrite likes_of_liked.
  cbn [liked feeds] in Hr. apply In_replace_by in Hr.
  destruct Hr as [-> | [Hr Hne]].
  - cbn [Feed.id Feed.set_likeCount Feed.likeCount]. rewrite Hid, Z.eqb_refl.
    rewrite length_app. simpl. rewrite (H _ Hin), Hid. lia.
  - cbn [Feed.id Feed.set_likeCount] in Hne.
    assert ((feedId =? Feed.id r) = false) as ->
        by (apply Z.eqb_neq; congruence).
    now apply H.
Qed.

(** [deleteLikeFeed] does so when it removes exactly one row. *)
Lemma deleteLikeFeed_preserves iso userId feedId db :
  likeCount_consistent db = true ->
  List.length (likes_of_by db feedId userId) = 1%nat ->
  likeCount_consistent (snd (deleteLikeFeed iso userId feedId db)) = true.
Proof.
  intros H Hone. rewrite deleteLikeFeed_eval.
  destruct (feed_by_id db feedId) as [item|] eqn:E; [|exact H].
  cbn [snd]. apply likeCount_consistent_spec.
  rewrite likeCount_consistent_spec in H.
  destruct (feed_by_id_Some _ _ _ E) as [Hin [Hid _]].
  intros r Hr. cbn [unliked feeds] in Hr. apply In_replace_by in Hr.
  destruct Hr as [-> | [Hr Hne]].
  - cbn [Feed.id Feed.set_likeCount Feed.likeCount]. rewrite Hid.
    pose proof (likes_of_unliked_length db userId feedId
                  (FeedFindOneVo.feed item)) as Hl.
    rewrite (H _ Hin), Hid. lia.
  - cbn [Feed.id Feed.set_likeCount] in Hne.
    rewrite likes_of_unliked_other by congruence. now apply H.
Qed.

(** C3, as amended: the invariant "[Feed.likeCount] equals the number of
    FeedLike rows for that feed" is preserved by every [likeFeed]
    transaction, and by every [deleteLikeFeed] transaction that is called
    when exactly one (user, feed) FeedLike row exists. *)
Theorem likeCount_invariant_preserved :
  forall iso userId feedId db,
    likeCount_consistent db = true ->
    likeCount_consistent (snd (likeFeed iso userId feedId db)) = true
    /\ (List.length (likes_of_by db feedId userId) = 1%nat ->
        likeCount_consistent (snd (deleteLikeFeed iso userId feedId db))
        = true).
Proof.
  intros iso userId feedId db H. split.
  - now apply likeFeed_preserves.
  - now apply deleteLikeFeed_preserves.
Qed.

(** C3, refuted as stated: in the store reached by one [createFeed], the
    invariant holds and user 2 has no FeedLike row on feed 1; after
    [deleteLikeFeed 2 1] the feed's [likeCount] is -1 with no rows. *)
Lemma deleteLikeFeed_without_row_breaks_likeCount :
  likeCount_consistent store_one_feed = true
  /\ likes_of_by store_one_feed 1 2 = []
  /\ fst (deleteLikeFeed ReadCommitted 2 1 store_one_feed) = Ok tt
  /\ likeCount_consistent
       (snd (deleteLikeFeed ReadCommitted 2 1 store_one_feed)) = false
  /\ option_map Feed.likeCount
       (feedRepository_findOne
          (snd (deleteLikeFeed ReadCommitted 2 1 store_one_feed)) 1)
     = Some (-1)
  /\ likes_of (snd (deleteLikeFeed ReadCommitted 2 1 store_one_feed)) 1 = [].
Proof. repeat split; vm_compute; reflexivity. Qed.

Lemma likeCount_invariant_preserved_witness :
  likeCount_consistent store_one_like = true
  /\ List.length (likes_of_by store_one_like 1 2) = 1%nat
  /\ likeCount_consistent
       (snd (likeFeed ReadCommitted 2 1 store_one_like)) = true
  /\ likeCount_consistent
       (snd (deleteLikeFeed ReadCommitted 2 1 store_one_like)) = true.
Proof.
  assert (likeCount_consistent store_one_like = true) as H
      by (vm_compute; reflexivity).
  assert (List.length (likes_of_by store_one_like 1 2) = 1%nat) as H1
      by (vm_compute; reflexivity).
  destruct (likeCount_invariant_preserved ReadCommitted 2 1 store_one_like H)
    as [Ha Hb].
  exact (conj H (conj H1 (conj Ha (Hb H1)))).
Defined.

Lemma filter_replace_by_same {A} (key : A -> Z) (x : A) (l : list A) :
  filter (fun r => key r =? key x) (replace_by key x l)
  = map (fun _ => x) (filter (fun r => key r =? key x) l).
Proof.
  induction l as [|y l IH]; simpl; [reflexivity|].
  destruct (key y =? key x) eqn:E; simpl.
  - rewrite Z.eqb_refl. simpl. now rewrite IH.
  - rewrite E. exact IH.
Qed.

(** After the row of a found feed has been saved (same id, same author),
    the read of that feed finds the saved row. *)
Lemma feed_by_id_after_save db db' feedId item f' u :
  feed_by_id db feedId = Some item ->
  Feed.id f' = feedId ->
  userRepository_findOne db' (Feed.userId f') = Some u ->
  feeds db' = replace_by Feed.id f' (feeds db) ->
  feed_by_id db' feedId
  = Some (FeedFindOneVo.mk f' (Some u) [] [] None None).
Proof.
  intros H Hid Hu Hf.
  pose proof (feed_row_exists _ _ _ H) as Hex.
  unfold feed_by_id. rewrite Hf. rewrite <- Hid.
  rewrite filter_replace_by_same. rewrite Hid.
  destruct (filter (fun r => Feed.id r =? feedId) (feeds db)) as [|y l] eqn:E.
  - exfalso. apply existsb_exists in Hex. destruct Hex as [r [Hr Hr']].
    assert (In r []) as [] . rewrite <- E. apply filter_In. now split.
  - simpl. unfold join_user at 1. rewrite Hu. reflexivity.
Qed.

Lemma set_likeCount_roundtrip f :
  Feed.set_likeCount (Feed.set_likeCount f (Feed.likeCount f + 1))
    (Feed.likeCount (Feed.set_likeCount f (Feed.likeCount f + 1)) - 1) = f.
Proof.
  destruct f. unfold Feed.set_likeCount. simpl. f_equal. lia.
Qed.

(** C7: starting from a store with no (user, feed) FeedLike row, [likeFeed]
    followed by [deleteLikeFeed] leaves the feed row as it was, its
    [likeCount] included, and no (user, feed) FeedLike row. *)
Theorem like_then_unlike_roundtrip :
  forall iso userId feedId db found,
    likes_of_by db feedId userId = [] ->
    findOneFeed db feedId = Ok found ->
    let db1 := snd (likeFeed iso userId feedId db) in
    let db2 := snd (deleteLikeFeed iso userId feedId db1) in
    fst (likeFeed iso userId feedId db) = Ok tt
    /\ List.length (likes_of_by db1 feedId userId) = 1%nat
    /\ fst (deleteLikeFeed iso userId feedId db1) = Ok tt
    /\ (exists found2,
           findOneFeed db2 feedId = Ok found2
           /\ FeedFindOneVo.feed found2 = FeedFindOneVo.feed found
           /\ Feed.likeCount (FeedFindOneVo.feed found2)
              = Feed.likeCount (FeedFindOneVo.feed found))
    /\ likes_of_by db2 feedId userId = [].
Proof.
  intros iso userId feedId db found Hno Hfound db1 db2.
  subst db1 db2. rewrite findOneFeed_unfold in Hfound.
  destruct (feed_by_id db feedId) as [item|] eqn:E; [|discriminate].
  injection Hfound as <-. cbn [hydrated FeedFindOneVo.feed].
  rewrite likeFeed_eval, E. cbn [fst snd].
  set (f := FeedFindOneVo.feed item).
  set (f1 := Feed.set_likeCount f (Feed.likeCount f + 1)).
  destruct (feed_by_id_Some _ _ _ E) as [Hin [Hid [u [_ Hu]]]].
  assert (feed_by_id (liked db userId feedId f) feedId
          = Some (FeedFindOneVo.mk f1 (Some u) [] [] None None))
    as E1.
  { apply feed_by_id_after_save with (db := db) (item := item); auto. }
  rewrite deleteLikeFeed_eval, E1. cbn [fst snd FeedFindOneVo.feed].
  split; [reflexivity|]. split.
  { unfold likes_of_by, liked. cbn [feedLikes]. rewrite filter_app.
    unfold likes_of_by in Hno. rewrite Hno. simpl.
    now rewrite !Z.eqb_refl. }
  split; [reflexivity|]. split.
  - set (f2 := Feed.set_likeCount f1 (Feed.likeCount f1 - 1)).
    assert (f2 = f) as Hf2 by apply set_likeCount_roundtrip.
    exists (hydrated (unliked (liked db userId feedId f) userId feedId f1)
                     None
                     (FeedFindOneVo.mk f2 (Some u) [] [] None None)).
    rewrite findOneFeed_unfold.
    rewrite (@feed_by_id_after_save
               (liked db userId feedId f)
               (unliked (liked db userId feedId f) userId feedId f1)
               feedId _ f2 u E1).
    + cbn [hydrated FeedFindOneVo.feed]. rewrite Hf2. auto.
    + rewrite Hf2. exact Hid.
    + rewrite Hf2. exact Hu.
    + reflexivity.
  - apply likes_of_by_unliked.
Qed.

Lemma like_then_unlike_roundtrip_witness :
  exists found2,
    findOneFeed
      (snd (deleteLikeFeed ReadCommitted 2 1
              (snd (likeFeed ReadCommitted 2 1 store_one_feed)))) 1
    = Ok found2
    /\ Feed.likeCount (FeedFindOneVo.feed found2) = 0.
Proof.
  assert (likes_of_by store_one_feed 1 2 = []) as Hno
      by (vm_compute; reflexivity).
  destruct (findOneFeed store_one_feed 1) as [found|] eqn:Hfound;
    [|vm_compute in Hfound; discriminate].
  destruct (like_then_unlike_roundtrip ReadCommitted 2 1 store_one_feed
              found Hno Hfound) as [_ [_ [_ [[found2 [H2 [_ Hc]]] _]]]].
  exists found2. split; [exact H2|].
  rewrite Hc. vm_compute in Hfound. injection Hfound as <-. reflexivity.
Defined.

(** ** Status updates *)

Lemma userRepository_findOne_saved db db' k u u' :
  userRepository_findOne db k = Some u ->
  User.id u' = User.id u ->
  users db' = replace_by User.id u' (users db) ->
  userRepository_findOne db' k = Some u'.
Proof.
  unfold userRepository_findOne. intros Hu Hid Hus.
  pose proof (find_some _ _ Hu) as [Hin Hk]. apply Z.eqb_eq in Hk.
  rewrite Hus, <- Hk, <- Hid. apply find_replace_by.
  apply existsb_exists. exists u. split; [exact Hin | now apply Z.eqb_eq].
Qed.

Lemma updateFeedStatus_eval iso feedId status db item u :
  feed_by_id db feedId = Some item ->
  FeedFindOneVo.user item = Some u ->
  updateFeedStatus iso feedId status db
  = (Ok (Feed.set_status (FeedFindOneVo.feed item) status),
     status_updated db (FeedFindOneVo.feed item) u status).
Proof.
  intros E Huser.
  unfold updateFeedStatus, dataSource_transaction, updateFeedStatus_body.
  unfold bind at 1. unfold outside at 1. unfold bind at 1. unfold liftR.
  rewrite findOneFeed_unfold.
  replace (feed_by_id (view iso db db) feedId) with (feed_by_id db feedId)
    by (destruct iso; reflexivity).
  rewrite E.
  destruct (feed_by_id_Some _ _ _ E) as [Hin [Hid [u' [Huser' Hu]]]].
  assert (u' = u) as -> by congruence.
  unfold bind, save_Feed, outside.
  cbn [FeedFindOneVo.feed hydrated Feed.id Feed.set_status].
  rewrite Hid, (feed_row_exists _ _ _ E).
  cbn [Feed.userId Feed.status].
  match goal with
  | |- context [userRepository_findOne ?v ?k] =>
      replace (userRepository_findOne v k) with (Some u)
        by (destruct iso; symmetry; exact Hu)
  end.
  unfold nonNull, ret, save_User. cbn [users with_feeds].
  assert (existsb (fun r => User.id r =? User.id u) (users db) = true) as Hex.
  { apply existsb_exists. exists u.
    unfold userRepository_findOne in Hu. apply find_some in Hu.
    split; [apply Hu | apply Z.eqb_refl]. }
  cbn [Feed.status Feed.set_status].
  destruct (FEED_STATUS_eqb status ACTIVE) eqn:Es;
    cbn [User.id User.set_feedCount]; rewrite Hex;
    unfold status_updated; rewrite Es; reflexivity.
Qed.

(** C5, as amended: [updateFeedStatus] sets the feed's status; on every
    call, whatever the old status, it adds one to the author's [feedCount]
    when the new status is ACTIVE and takes one off otherwise. *)
Theorem updateFeedStatus_adjusts_on_every_call :
  forall iso feedId status db found,
    findOneFeed db feedId = Ok found ->
    let author := Feed.userId (FeedFindOneVo.feed found) in
    exists feed' db' n,
      updateFeedStatus iso feedId status db = (Ok feed', db')
      /\ feed' = Feed.set_status (FeedFindOneVo.feed found) status
      /\ feedRepository_findOne db' feedId = Some feed'
      /\ Feed.status feed' = status
      /\ feedCount_of db author = Some n
      /\ feedCount_of db' author
         = Some (if FEED_STATUS_eqb status ACTIVE then n + 1 else n - 1).
Proof.
  intros iso feedId status db found Hfound author. subst author.
  rewrite findOneFeed_unfold in Hfound.
  destruct (feed_by_id db feedId) as [item|] eqn:E; [|discriminate].
  injection Hfound as <-. cbn [hydrated FeedFindOneVo.feed].
  destruct (feed_by_id_Some _ _ _ E) as [Hin [Hid [u [Huser Hu]]]].
  rewrite (updateFeedStatus_eval iso feedId status db item u E Huser).
  eexists. eexists. exists (User.feedCount u).
  split; [reflexivity|]. split; [reflexivity|]. split.
  { unfold status_updated. eapply feed_by_id_saved; [exact E|exact Hid]. }
  split; [reflexivity|]. split.
  { unfold feedCount_of. now rewrite Hu. }
  unfold feedCount_of.
  destruct (FEED_STATUS_eqb status ACTIVE) eqn:Es.
  - rewrite (userRepository_findOne_saved db
               (status_updated db (FeedFindOneVo.feed item) u status) _ u
               (User.set_feedCount u (User.feedCount u + 1)) Hu eq_refl).
    + reflexivity.
    + unfold status_updated. now rewrite Es.
  - rewrite (userRepository_findOne_saved db
               (status_updated db (FeedFindOneVo.feed item) u status) _ u
               (User.set_feedCount u (User.feedCount u - 1)) Hu eq_refl).
    + reflexivity.
    + unfold status_updated. now rewrite Es.
Qed.

Lemma updateFeedStatus_adjusts_on_every_call_witness :
  exists feed' db',
    updateFeedStatus ReadCommitted 1 DELETED store_one_feed = (Ok feed', db')
    /\ Feed.status feed' = DELETED
    /\ feedCount_of db' 1 = Some 0.
Proof.
  destruct (findOneFeed store_one_feed 1) as [found|] eqn:Hfound;
    [|vm_compute in Hfound; discriminate].
  destruct (updateFeedStatus_adjusts_on_every_call ReadCommitted 1 DELETED
              store_one_feed found Hfound)
    as [feed' [db' [n [H1 [H2 [H3 [H4 [H5 H6]]]]]]]].
  exists feed', db'. split; [exact H1|]. split; [exact H4|].
  vm_compute in Hfound. injection Hfound as <-.
  cbn [FeedFindOneVo.feed Feed.userId] in H5, H6.
  vm_compute in H5. injection H5 as <-. exact H6.
Defined.

(** C5, refuted as stated: feed 1 is ACTIVE and its author's [feedCount]
    is 1; setting the status to ACTIVE again makes the count 2. *)
Lemma updateFeedStatus_same_status_adjusts :
  option_map Feed.status (feedRepository_findOne store_one_feed 1)
  = Some ACTIVE
  /\ feedCount_of store_one_feed 1 = Some 1
  /\ option_map Feed.status
       (feedRepository_findOne
          (snd (updateFeedStatus ReadCommitted 1 ACTIVE store_one_feed)) 1)
     = Some ACTIVE
  /\ feedCount_of (snd (updateFeedStatus ReadCommitted 1 ACTIVE store_one_feed))
                  1 = Some 2.
Proof. repeat split; vm_compute; reflexivity. Qed.

(** ** Hard delete *)

Lemma filter_negb_same {A} (p : A -> bool) (l : list A) :
  filter p (filter (fun r => negb (p r)) l) = [].
Proof.
  induction l as [|x l IH]; simpl; [reflexivity|].
  destruct (p x) eqn:E; simpl; [exact IH | rewrite E; exact IH].
Qed.

Lemma find_filter_negb_same {A} (p : A -> bool) (l : list A) :
  find p (filter (fun r => negb (p r)) l) = None.
Proof.
  induction l as [|x l IH]; simpl; [reflexivity|].
  destruct (p x) eqn:E; simpl; [exact IH | rewrite E; exact IH].
Qed.

Lemma hardDeleteFeed_feedCount_eval iso committed userId w u :
  userRepository_findOne committed userId = Some u ->
  users w = users committed ->
  hardDeleteFeed_feedCount iso committed userId w
  = Ok (tt, with_users w
              (replace_by User.id
                 (User.set_feedCount u (User.feedCount u - 1)) (users w))).
Proof.
  intros Hu Hw.
  assert (userRepository_findOne (view iso committed w) userId = Some u) as Hv.
  { destruct iso; [exact Hu|]. unfold userRepository_findOne, view.
    rewrite Hw. exact Hu. }
  assert (existsb (fun r => User.id r =? User.id u) (users w) = true) as Hex.
  { rewrite Hw. unfold userRepository_findOne in Hu. apply find_some in Hu.
    apply existsb_exists. exists u. split; [apply Hu | apply Z.eqb_refl]. }
  unfold hardDeleteFeed_feedCount, bind, outside. rewrite Hv.
  unfold nonNull, ret, save_User. cbn [User.id User.set_feedCount].
  rewrite Hex. reflexivity.
Qed.

Lemma hardDeleteFeed_states iso userId feedId db u :
  userRepository_findOne db userId = Some u ->
  states_after (hardDeleteFeed_statements iso db userId feedId) db
  = [ hd_images_gone db feedId; hd_likes_gone db feedId;
      hd_bookmarks_gone db feedId; hd_feed_gone db feedId;
      hd_user_saved db feedId u ]
  /\ hardDeleteFeed iso userId feedId db
     = (Ok tt, hd_user_saved db feedId u).
Proof.
  intros Hu.
  pose proof (@hardDeleteFeed_feedCount_eval iso db userId
                (hd_feed_gone db feedId) u Hu eq_refl) as H5.
  assert (delete_FeedImage (fun i => FeedImage.feedId i =? feedId) db
          = Ok (tt, hd_images_gone db feedId)) as H1 by reflexivity.
  assert (delete_FeedLike (fun l => FeedLike.feedId l =? feedId)
                          (hd_images_gone db feedId)
          = Ok (tt, hd_likes_gone db feedId)) as H2 by reflexivity.
  assert (delete_FeedBookmark (fun b => FeedBookmark.feedId b =? feedId)
                              (hd_likes_gone db feedId)
          = Ok (tt, hd_bookmarks_gone db feedId)) as H3 by reflexivity.
  assert (delete_Feed (fun f => Feed.id f =? feedId)
                      (hd_bookmarks_gone db feedId)
          = Ok (tt, hd_feed_gone db feedId)) as H4 by reflexivity.
  unfold hardDeleteFeed, dataSource_transaction, hardDeleteFeed_body,
    hardDeleteFeed_statements.
  cbn [states_after in_sequence]. unfold bind.
  rewrite H1, H2, H3, H4, H5. split; reflexivity.
Qed.

Lemma no_dependents_after_deletes db feedId w :
  feedImages w = feedImages (hd_images_gone db feedId) ->
  feedLikes w = feedLikes (hd_likes_gone db feedId) ->
  feedBookmarks w = feedBookmarks (hd_bookmarks_gone db feedId) ->
  no_dependents w feedId.
Proof.
  intros Hi Hl Hb.
  unfold no_dependents, __get_feed_images, likes_of, bookmarks_of.
  rewrite Hi, Hl, Hb. cbn.
  repeat split.
  - apply (filter_negb_same (fun i => FeedImage.feedId i =? feedId)).
  - apply (filter_negb_same (fun l => FeedLike.feedId l =? feedId)).
  - apply (filter_negb_same (fun b => FeedBookmark.feedId b =? feedId)).
Qed.

Lemma userRepository_findOne_other db db' k u' :
  users db' = replace_by User.id u' (users db) ->
  k <> User.id u' ->
  userRepository_findOne db' k = userRepository_findOne db k.
Proof.
  unfold userRepository_findOne, replace_by. intros -> Hk.
  induction (users db) as [|r l IH]; [reflexivity|].
  cbn [map find]. rewrite IH.
  destruct (User.id r =? User.id u') eqn:E.
  - apply Z.eqb_eq in E.
    assert ((User.id u' =? k) = false) as -> by (apply Z.eqb_neq; congruence).
    assert ((User.id r =? k) = false) as -> by (apply Z.eqb_neq; congruence).
    reflexivity.
  - reflexivity.
Qed.

(** C6, for the user whose id is passed: for an existing feed and an
    existing user, [hardDeleteFeed] commits a store with no FeedImage,
    FeedLike or FeedBookmark row of the feed and without the feed row;
    the [feedCount] of the user whose id is passed is one lower and that
    of every other user is as before, so the author's goes down exactly
    when the id passed is the author's; the working copy in which the
    dependent rows are already gone still holds the feed row, which goes
    in the statement after. *)
Theorem hardDeleteFeed_removes_feed_and_dependents :
  forall iso userId feedId db f u,
    feedRepository_findOne db feedId = Some f ->
    userRepository_findOne db userId = Some u ->
    exists db',
      hardDeleteFeed iso userId feedId db = (Ok tt, db')
      /\ no_dependents db' feedId
      /\ filter (fun r => Feed.id r =? feedId) (feeds db') = []
      /\ feedRepository_findOne db' feedId = None
      /\ feedCount_of db userId = Some (User.feedCount u)
      /\ feedCount_of db' userId = Some (User.feedCount u - 1)
      /\ (forall k, k <> userId -> feedCount_of db' k = feedCount_of db k)
      /\ exists w1 w2 w3 w4,
           states_after (hardDeleteFeed_statements iso db userId feedId) db
           = [w1; w2; w3; w4; db']
           /\ no_dependents w3 feedId
           /\ feedRepository_findOne w3 feedId = Some f
           /\ no_dependents w4 feedId
           /\ feedRepository_findOne w4 feedId = None.
Proof.
  intros iso userId feedId db f u Hf Hu.
  destruct (hardDeleteFeed_states iso userId feedId db u Hu) as [Hst Hrun].
  exists (hd_user_saved db feedId u).
  split; [exact Hrun|].
  split; [now apply no_dependents_after_deletes with (db := db)|].
  split; [apply (filter_negb_same (fun r => Feed.id r =? feedId))|].
  split; [apply (find_filter_negb_same (fun r => Feed.id r =? feedId))|].
  split; [unfold feedCount_of; now rewrite Hu|].
  split.
  { unfold feedCount_of.
    rewrite (@userRepository_findOne_saved db (hd_user_saved db feedId u)
               userId u (User.set_feedCount u (User.feedCount u - 1)) Hu
               eq_refl eq_refl).
    reflexivity. }
  split.
  { intros k Hk. unfold feedCount_of. f_equal.
    apply (userRepository_findOne_other db (hd_user_saved db feedId u) k
             (User.set_feedCount u (User.feedCount u - 1)) eq_refl).
    cbn [User.id User.set_feedCount].
    unfold userRepository_findOne in Hu. apply find_some in Hu.
    destruct Hu as [_ Hid]. apply Z.eqb_eq in Hid. congruence. }
  exists (hd_images_gone db feedId), (hd_likes_gone db feedId),
    (hd_bookmarks_gone db feedId), (hd_feed_gone db feedId).
  split; [exact Hst|].
  split; [now apply no_dependents_after_deletes with (db := db)|].
  split; [exact Hf|].
  split; [now apply no_dependents_after_deletes with (db := db)|].
  apply (find_filter_negb_same (fun r => Feed.id r =? feedId)).
Qed.

Lemma hardDeleteFeed_removes_feed_and_dependents_witness :
  exists db',
    hardDeleteFeed ReadCommitted 1 1 store_one_like = (Ok tt, db')
    /\ no_dependents db' 1
    /\ feedRepository_findOne db' 1 = None
    /\ feedCount_of db' 1 = Some 0
    /\ feedCount_of db' 2 = Some 0.
Proof.
  destruct (feedRepository_findOne store_one_like 1) as [f|] eqn:Hf;
    [|vm_compute in Hf; discriminate].
  destruct (userRepository_findOne store_one_like 1) as [u|] eqn:Hu;
    [|vm_compute in Hu; discriminate].
  destruct (hardDeleteFeed_removes_feed_and_dependents ReadCommitted 1 1
              store_one_like f u Hf Hu)
    as [db' [H1 [H2 [_ [H4 [_ [H6 [H7 _]]]]]]]].
  exists db'. split; [exact H1|]. split; [exact H2|]. split; [exact H4|].
  split.
  - rewrite H6. vm_compute in Hu. injection Hu as <-. reflexivity.
  - rewrite (H7 2); [vm_compute; reflexivity | lia].
Defined.

(** C6, as stated: the counter that goes down is that of the user whose
    id is passed, which nothing ties to the feed.  In the store reached
    by one [createFeed], feed 1 is of user 1; [hardDeleteFeed 2 1]
    returns and removes the feed, the author's [feedCount] stays at 1
    and that of user 2 goes from 0 to -1. *)
Lemma hardDeleteFeed_by_other_user_keeps_author_count :
  option_map Feed.userId (feedRepository_findOne store_one_feed 1) = Some 1
  /\ feedCount_of store_one_feed 1 = Some 1
  /\ feedCount_of store_one_feed 2 = Some 0
  /\ fst (hardDeleteFeed ReadCommitted 2 1 store_one_feed) = Ok tt
  /\ feedRepository_findOne
       (snd (hardDeleteFeed ReadCommitted 2 1 store_one_feed)) 1 = None
  /\ feedCount_of (snd (hardDeleteFeed ReadCommitted 2 1 store_one_feed)) 1
     = Some 1
  /\ feedCount_of (snd (hardDeleteFeed ReadCommitted 2 1 store_one_feed)) 2
     = Some (-1).
Proof. repeat split; vm_compute; reflexivity. Qed.

(** ** The heap of fetched feeds *)

Lemma heap_set_length {A} (h : list A) r v :
  List.length (heap_set h r v) = List.length h.
Proof.
  revert r. induction h as [|x h IH]; intros [|r]; simpl; auto.
Qed.

Lemma nth_error_heap_set {A} (h : list A) r v i :
  (r < List.length h)%nat ->
  nth_error (heap_set h r v) i
  = if Nat.eqb i r then Some v else nth_error h i.
Proof.
  revert r i. induction h as [|x h IH]; intros r i Hr; simpl in Hr; [lia|].
  destruct r as [|r], i as [|i]; simpl; auto.
  apply IH. lia.
Qed.

Lemma hydrated_idempotent db userId item :
  hydrated db userId (hydrated db userId item) = hydrated db userId item.
Proof.
  unfold hydrated. cbn [FeedFindOneVo.feed FeedFindOneVo.user
                        FeedFindOneVo.likedYn FeedFindOneVo.bookmarkedYn].
  destruct (truthy userId); reflexivity.
Qed.

Lemma processFeedItems_spec db userId refs :
  forall h,
    Forall (fun r => (r < List.length h)%nat) refs ->
    exists h',
      processFeedItems db refs userId h = Ok h'
      /\ List.length h' = List.length h
      /\ forall i,
           nth_error h' i
           = if existsb (Nat.eqb i) refs
             then option_map (hydrated db userId) (nth_error h i)
             else nth_error h i.
Proof.
  induction refs as [|r refs IH]; intros h Hr.
  - exists h. simpl. auto.
  - inversion Hr as [|? ? Hr1 Hr2]; subst.
    destruct (nth_error h r) as [x|] eqn:Ex;
      [|apply nth_error_None in Ex; lia].
    cbn [processFeedItems]. rewrite Ex, processFeedItem_Some.
    set (h1 := heap_set h r (hydrated db userId x)).
    assert (List.length h1 = List.length h) as Hl by apply heap_set_length.
    destruct (IH h1) as [h' [Hrun [Hlen Hnth]]].
    { rewrite Hl. exact Hr2. }
    exists h'. split; [exact Hrun|]. split; [congruence|].
    intros i. rewrite Hnth. unfold h1.
    rewrite nth_error_heap_set by exact Hr1. cbn [existsb].
    destruct (Nat.eqb i r) eqn:Ei.
    + apply Nat.eqb_eq in Ei. subst i. rewrite Ex. cbn [orb option_map].
      destruct (existsb (Nat.eqb r) refs); cbn [option_map];
        now rewrite ?hydrated_idempotent.
    + cbn [orb]. reflexivity.
Qed.

Lemma deref_in_range {A} (h : list A) r rest :
  (r < List.length h)%nat ->
  exists x, nth_error h r = Some x /\ deref h (r :: rest) = x :: deref h rest.
Proof.
  intros Hr. destruct (nth_error h r) as [x|] eqn:E.
  - exists x. split; [reflexivity|]. unfold deref. simpl. now rewrite E.
  - apply nth_error_None in E. lia.
Qed.

Lemma deref_length {A} (h : list A) refs :
  Forall (fun r => (r < List.length h)%nat) refs ->
  List.length (deref h refs) = List.length refs.
Proof.
  induction 1 as [|r refs Hr _ IH]; [reflexivity|].
  destruct (deref_in_range h r refs Hr) as [x [_ ->]]. simpl. now rewrite IH.
Qed.

Lemma deref_skipn {A} (h : list A) refs :
  Forall (fun r => (r < List.length h)%nat) refs ->
  forall k, deref h (skipn k refs) = skipn k (deref h refs).
Proof.
  induction 1 as [|r refs Hr _ IH]; intros k.
  - now rewrite !skipn_nil.
  - destruct (deref_in_range h r refs Hr) as [x [_ Hx]]. rewrite Hx.
    destruct k as [|k]; [exact Hx|]. simpl. apply IH.
Qed.

Lemma deref_firstn {A} (h : list A) refs :
  Forall (fun r => (r < List.length h)%nat) refs ->
  forall k, deref h (firstn k refs) = firstn k (deref h refs).
Proof.
  induction 1 as [|r refs Hr _ IH]; intros k.
  - now rewrite !firstn_nil.
  - destruct (deref_in_range h r refs Hr) as [x [Ex Hx]]. rewrite Hx.
    destruct k as [|k]; [reflexivity|]. cbn [firstn].
    destruct (deref_in_range h r (firstn k refs) Hr) as [y [Ey ->]].
    rewrite IH. congruence.
Qed.

Lemma js_slice_incl {A} (l : list A) a b x :
  In x (js_slice l a b) -> In x l.
Proof.
  unfold js_slice. intros Hx.
  rewrite <- (firstn_skipn
                (Z.to_nat (if a <? 0
                           then Z.max (Z.of_nat (List.length l) + a) 0
                           else Z.min a (Z.of_nat (List.length l)))) l).
  apply in_or_app. right.
  match goal with
  | H : In x (firstn ?k ?s) |- In x ?s =>
      rewrite <- (firstn_skipn k s); apply in_or_app; now left
  end.
Qed.

Lemma deref_js_slice {A} (h : list A) refs a b :
  Forall (fun r => (r < List.length h)%nat) refs ->
  deref h (js_slice refs a b) = js_slice (deref h refs) a b.
Proof.
  intros H. unfold js_slice. rewrite (deref_length h refs H).
  rewrite deref_firstn, deref_skipn; auto.
  clear -H. rewrite Forall_forall in *. intros x Hx. apply H.
  match goal with
  | H : In x (skipn ?k ?s) |- In x ?s =>
      rewrite <- (firstn_skipn k s); apply in_or_app; now right
  end.
Qed.

Lemma deref_hydrated db userId (h h' : list FeedFindOneVo.t) refs sub :
  (forall i, nth_error h' i
             = if existsb (Nat.eqb i) refs
               then option_map (hydrated db userId) (nth_error h i)
               else nth_error h i) ->
  (forall r, In r sub -> In r refs) ->
  deref h' sub = map (hydrated db userId) (deref h sub).
Proof.
  intros Hnth. induction sub as [|r sub IH]; intros Hsub; [reflexivity|].
  unfold deref in *. cbn [flat_map]. rewrite map_app, IH.
  - f_equal. rewrite Hnth.
    assert (existsb (Nat.eqb r) refs = true) as ->.
    { apply existsb_exists. exists r. split; [apply Hsub; now left|].
      apply Nat.eqb_refl. }
    destruct (nth_error h r); reflexivity.
  - intros r' Hr'. apply Hsub. now right.
Qed.

(** References selected by a test on the object behind them. *)
Lemma deref_filter_seq {A} (P : A -> bool) (h pre : list A) :
  deref (pre ++ h)
        (filter (fun r => match nth_error (pre ++ h) r with
                          | Some x => P x
                          | None => false
                          end)
                (seq (List.length pre) (List.length h)))
  = filter P h.
Proof.
  revert pre. induction h as [|x h IH]; intros pre; [reflexivity|].
  cbn [List.length seq filter].
  assert (nth_error (pre ++ x :: h) (List.length pre) = Some x) as E.
  { rewrite nth_error_app2 by lia. now rewrite Nat.sub_diag. }
  rewrite E.
  assert (pre ++ x :: h = (pre ++ [x]) ++ h) as Eapp
      by (now rewrite <- app_assoc).
  assert (S (List.length pre) = List.length (pre ++ [x])) as Elen
      by (rewrite length_app; simpl; lia).
  specialize (IH (pre ++ [x])). rewrite <- Eapp, <- Elen in IH.
  destruct (P x).
  - unfold deref in *. cbn [flat_map]. rewrite E. simpl. now rewrite IH.
  - exact IH.
Qed.

Lemma deref_seq {A} (h : list A) :
  deref h (seq 0 (List.length h)) = h.
Proof.
  pose proof (deref_filter_seq (fun _ => true) h []) as H.
  cbn [app List.length] in H.
  assert (forall l, filter (fun _ : A => true) l = l) as Hall.
  { induction l as [|y l IHl]; simpl; congruence. }
  rewrite Hall in H. rewrite <- H at 3. f_equal.
  assert (Forall (fun r => (r < List.length h)%nat) (seq 0 (List.length h)))
    as Hr.
  { apply Forall_forall. intros r Hin. apply in_seq in Hin. lia. }
  remember (seq 0 (List.length h)) as l eqn:El. clear El H.
  induction Hr as [|r l Hr _ IHr]; [reflexivity|].
  cbn [filter]. destruct (nth_error h r) eqn:E.
  - f_equal. exact IHr.
  - apply nth_error_None in E. lia.
Qed.

(** ** [findAll] *)

Lemma In_insert_DESC {A} (key : A -> Z) x y l :
  In x (insert_DESC key y l) <-> x = y \/ In x l.
Proof.
  induction l as [|z l IH]; simpl.
  - intuition congruence.
  - destruct (key z <=? key y); simpl.
    + intuition congruence.
    + rewrite IH. intuition congruence.
Qed.

Lemma In_orderBy_DESC {A} (key : A -> Z) x l :
  In x (orderBy_DESC key l) <-> In x l.
Proof.
  induction l as [|y l IH]; simpl; [tauto|].
  rewrite In_insert_DESC, IH. intuition congruence.
Qed.

(** What the query of [findAll] selects: exactly the visible, active feed
    rows whose author's row exists and is not excluded. *)
Lemma findAll_query_spec db excludeUserIds item :
  In item (findAll_query db excludeUserIds) <->
  (In (FeedFindOneVo.feed item) (feeds db)
   /\ Feed.displayYn (FeedFindOneVo.feed item) = Y
   /\ Feed.status (FeedFindOneVo.feed item) = ACTIVE
   /\ ~ In (Feed.userId (FeedFindOneVo.feed item)) excludeUserIds
   /\ exists u,
        userRepository_findOne db (Feed.userId (FeedFindOneVo.feed item))
        = Some u
        /\ item = FeedFindOneVo.mk (FeedFindOneVo.feed item) (Some u) []
                    (joined_tags db (FeedFindOneVo.feed item)) None None).
Proof.
  unfold findAll_query. rewrite in_flat_map.
  assert (forall f,
            In f (if nonempty excludeUserIds
                  then filter (fun f => negb (existsb (Z.eqb (Feed.userId f))
                                                      excludeUserIds))
                         (filter (fun f => YN_eqb (Feed.displayYn f) Y
                                           && FEED_STATUS_eqb (Feed.status f)
                                                              ACTIVE)
                                 (feeds db))
                  else filter (fun f => YN_eqb (Feed.displayYn f) Y
                                        && FEED_STATUS_eqb (Feed.status f)
                                                           ACTIVE)
                              (feeds db))
            <-> (In f (feeds db) /\ Feed.displayYn f = Y
                 /\ Feed.status f = ACTIVE
                 /\ ~ In (Feed.userId f) excludeUserIds)) as Hsel.
  { intros f.
    assert (negb (existsb (Z.eqb (Feed.userId f)) excludeUserIds) = true
            <-> ~ In (Feed.userId f) excludeUserIds) as Hex.
    { rewrite negb_true_iff. split.
      - intros H Hin. apply not_true_iff_false in H. apply H.
        apply existsb_exists. exists (Feed.userId f).
        split; [exact Hin | apply Z.eqb_refl].
      - intros H. apply not_true_iff_false. intros He. apply H.
        apply existsb_exists in He. destruct He as [x [Hx Hx']].
        apply Z.eqb_eq in Hx'. now subst. }
    destruct excludeUserIds as [|e es]; cbn [nonempty].
    - rewrite filter_In, andb_true_iff, YN_eqb_eq, FEED_STATUS_eqb_eq.
      simpl. tauto.
    - rewrite !filter_In, andb_true_iff, YN_eqb_eq, FEED_STATUS_eqb_eq, Hex.
      tauto. }
  split.
  - intros [f [Hf Hj]]. apply -> (In_orderBy_DESC Feed.createdAt) in Hf.
    apply -> Hsel in Hf. unfold join_user in Hj.
    destruct (userRepository_findOne db (Feed.userId f)) as [u|] eqn:Eu;
      [|contradiction].
    destruct Hj as [<-|[]]. cbn.
    repeat (split; [tauto|]). now exists u.
  - intros [Hin [Hd [Hs [Hx [u [Hu Hitem]]]]]].
    exists (FeedFindOneVo.feed item). split.
    + apply <- (In_orderBy_DESC Feed.createdAt). apply <- Hsel. tauto.
    + unfold join_user. rewrite Hu. left. now symmetry.
Qed.

Lemma findAll_eval db user dto excludeUserIds :
  findAll db user (Some dto) (Some excludeUserIds)
  = let filtered := tag_filtered dto (findAll_query db excludeUserIds) in
    let offset := (FeedListDto.page dto - 1) * FeedListDto.limit dto in
    Ok (generatePaginatedResponse
          (map (hydrated db (Some (User.id user)))
               (js_slice filtered offset (offset + FeedListDto.limit dto)))
          (Z.of_nat (List.length filtered))
          (FeedListDto.page dto) (FeedListDto.limit dto)).
Proof.
  unfold findAll.
  set (heap := findAll_query db excludeUserIds).
  set (refs := match FeedListDto.tagName dto with
               | Some tagName =>
                   if negb (String.eqb tagName "")
                   then filter (fun r => match nth_error heap r with
                                         | Some feed => has_tagName tagName feed
                                         | None => false
                                         end) (seq 0 (List.length heap))
                   else seq 0 (List.length heap)
               | None => seq 0 (List.length heap)
               end).
  assert (Forall (fun r => (r < List.length heap)%nat) refs) as Hrange.
  { apply Forall_forall. intros r Hr.
    assert (In r (seq 0 (List.length heap))) as Hs.
    { unfold refs in Hr. destruct (FeedListDto.tagName dto) as [t|]; auto.
      destruct (negb (String.eqb t "")); auto.
      now apply filter_In in Hr. }
    apply in_seq in Hs. lia. }
  assert (deref heap refs = tag_filtered dto heap) as Hderef.
  { unfold refs, tag_filtered.
    destruct (FeedListDto.tagName dto) as [t|]; [|apply deref_seq].
    destruct (negb (String.eqb t "")); [|apply deref_seq].
    apply (deref_filter_seq (has_tagName t) heap []). }
  destruct (processFeedItems_spec db (Some (User.id user)) refs heap Hrange)
    as [heap' [Hrun [_ Hnth]]].
  cbv zeta. rewrite Hrun. unfold generatePaginatedResponse. f_equal. f_equal.
  - rewrite (deref_hydrated db (Some (User.id user)) heap heap' refs _ Hnth).
    + now rewrite deref_js_slice, Hderef.
    + intros r. apply js_slice_incl.
  - now rewrite <- Hderef, deref_length.
Qed.

Lemma js_slice_page {A} (l : list A) (page limit : Z) :
  1 <= page -> 0 <= limit ->
  js_slice l ((page - 1) * limit) ((page - 1) * limit + limit)
  = firstn (Z.to_nat limit) (skipn (Z.to_nat ((page - 1) * limit)) l).
Proof.
  intros Hp Hl. unfold js_slice.
  set (offset := (page - 1) * limit).
  assert (0 <= offset) as Ho by (unfold offset; nia).
  assert ((offset <? 0) = false) as -> by (apply Z.ltb_ge; lia).
  assert ((offset + limit <? 0) = false) as -> by (apply Z.ltb_ge; lia).
  set (len := Z.of_nat (List.length l)).
  destruct (Z_lt_le_dec offset len) as [Hlt|Hge].
  - rewrite (Z.min_l offset len) by lia.
    destruct (Z_le_gt_dec (offset + limit) len) as [Hfit|Hover].
    + rewrite Z.min_l by lia. f_equal. lia.
    + rewrite Z.min_r by lia.
      rewrite !firstn_all2; [reflexivity| |]; rewrite length_skipn;
        unfold len in *; lia.
  - rewrite (Z.min_r offset len) by lia.
    rewrite (skipn_all2 l (n := Z.to_nat offset)) by (unfold len in *; lia).
    rewrite firstn_nil. rewrite skipn_all2 by (unfold len; lia).
    now rewrite firstn_nil.
Qed.

Lemma page_length {A} (l : list A) (page limit : Z) :
  1 <= page -> 0 <= limit ->
  Z.of_nat (List.length
              (js_slice l ((page - 1) * limit) ((page - 1) * limit + limit)))
  = Z.min limit (Z.max 0 (Z.of_nat (List.length l) - (page - 1) * limit)).
Proof.
  intros Hp Hl. rewrite js_slice_page by assumption.
  rewrite length_firstn, length_skipn.
  assert (0 <= (page - 1) * limit) by nia. lia.
Qed.

(** C4: [findAll] applies the tag filter to the whole fetched set of
    visible, active feeds, then slices the filtered set from
    [(page - 1) * limit] over [limit] entries, and reports the size of the
    whole filtered set as [totalCount]; with 25 feeds in the filtered set
    and [limit = 10], page 1 has 10 items and page 3 has 5. *)
Theorem findAll_filters_then_paginates :
  forall db user dto excludeUserIds,
    let fetched := findAll_query db excludeUserIds in
    let filtered := tag_filtered dto fetched in
    let offset := (FeedListDto.page dto - 1) * FeedListDto.limit dto in
    exists r,
      findAll db user (Some dto) (Some excludeUserIds) = Ok r
      /\ (forall item, In item fetched ->
            Feed.displayYn (FeedFindOneVo.feed item) = Y
            /\ Feed.status (FeedFindOneVo.feed item) = ACTIVE)
      /\ PaginateResponseVo.items r
         = map (hydrated db (Some (User.id user)))
               (js_slice filtered offset (offset + FeedListDto.limit dto))
      /\ PaginateResponseVo.totalCount r = Z.of_nat (List.length filtered)
      /\ (1 <= FeedListDto.page dto -> 0 <= FeedListDto.limit dto ->
          js_slice filtered offset (offset + FeedListDto.limit dto)
          = firstn (Z.to_nat (FeedListDto.limit dto))
                   (skipn (Z.to_nat offset) filtered))
      /\ (List.length filtered = 25%nat -> FeedListDto.limit dto = 10 ->
          (FeedListDto.page dto = 1 ->
           List.length (PaginateResponseVo.items r) = 10%nat
           /\ PaginateResponseVo.totalCount r = 25)
          /\ (FeedListDto.page dto = 3 ->
              List.length (PaginateResponseVo.items r) = 5%nat
              /\ PaginateResponseVo.totalCount r = 25)).
Proof.
  intros db user dto excludeUserIds fetched filtered offset.
  rewrite findAll_eval. cbv zeta. fold fetched. fold filtered. fold offset.
  eexists. split; [reflexivity|].
  unfold generatePaginatedResponse. cbn [PaginateResponseVo.items
                                         PaginateResponseVo.totalCount].
  split.
  { intros item Hin. apply findAll_query_spec in Hin. tauto. }
  split; [reflexivity|]. split; [reflexivity|]. split.
  { intros Hp Hl. now apply js_slice_page. }
  intros Hlen Hlim. rewrite length_map.
  split; intros Hpage; (split; [|rewrite Hlen; reflexivity]).
  - pose proof (page_length filtered 1 10 ltac:(lia) ltac:(lia)) as H.
    unfold offset. rewrite Hpage, Hlim. rewrite Hlen in H. lia.
  - pose proof (page_length filtered 3 10 ltac:(lia) ltac:(lia)) as H.
    unfold offset. rewrite Hpage, Hlim. rewrite Hlen in H. lia.
Qed.

Lemma findAll_filters_then_paginates_witness :
  exists r,
    findAll (store_many_feeds 25) (User.mk 1 25 N [])
            (Some (FeedListDto.mk None 3 10 None)) (Some []) = Ok r
    /\ List.length (PaginateResponseVo.items r) = 5%nat
    /\ PaginateResponseVo.totalCount r = 25.
Proof.
  destruct (findAll_filters_then_paginates (store_many_feeds 25)
              (User.mk 1 25 N []) (FeedListDto.mk None 3 10 None) [])
    as [r [Hr [_ [_ [_ [_ H25]]]]]].
  exists r. split; [exact Hr|].
  apply H25; [vm_compute; reflexivity | reflexivity | reflexivity].
Defined.

(** C10: a call of [findAll] that supplies both optional arguments returns
    a page and never reads a property of a missing value; a call that
    omits [excludeUserIds] or [feedListDto] throws the TypeError. *)
Theorem findAll_optional_arguments :
  (forall db user dto excludeUserIds,
      exists r, findAll db user (Some dto) (Some excludeUserIds) = Ok r)
  /\ (forall db user feedListDto,
         findAll db user feedListDto None = Err TypeError)
  /\ (forall db user excludeUserIds,
         findAll db user None excludeUserIds = Err TypeError).
Proof.
  split; [|split].
  - intros. rewrite findAll_eval. cbv zeta. eexists. reflexivity.
  - reflexivity.
  - intros db user [ex|]; reflexivity.
Qed.

(** ** The list operations paginated by the query *)

Lemma processFeedItem_each_eval db userId items :
  processFeedItem_each db userId items = Ok (map (hydrated db userId) items).
Proof.
  induction items as [|item items IH]; [reflexivity|].
  cbn [processFeedItem_each map]. now rewrite processFeedItem_Some, IH.
Qed.

Lemma In_Paginate {A} (dto : FeedListDto.t) (rows : list A) x :
  In x (Paginate dto rows) -> In x rows.
Proof.
  unfold Paginate. intros Hx.
  rewrite <- (firstn_skipn
                (Z.to_nat ((FeedListDto.page dto - 1) * FeedListDto.limit dto))
                rows).
  apply in_or_app. right.
  match goal with
  | H : In x (firstn ?k ?l) |- In x ?l =>
      rewrite <- (firstn_skipn k l); apply in_or_app; now left
  end.
Qed.

Lemma findAllByFollowing_eval db user dto :
  findAllByFollowing db user (Some dto)
  = Ok (generatePaginatedResponse
          (map (hydrated db (Some (User.id user)))
               (Paginate dto (findAllByFollowing_query db user)))
          (Z.of_nat (List.length (findAllByFollowing_query db user)))
          (FeedListDto.page dto) (FeedListDto.limit dto)).
Proof.
  unfold findAllByFollowing, getManyAndCount.
  now rewrite processFeedItem_each_eval.
Qed.

Lemma findAllByUser_eval db userId dto :
  findAllByUser db userId (Some dto)
  = Ok (generatePaginatedResponse
          (map (hydrated db (Some userId))
               (Paginate dto
                  (findAllByUser_query db userId (FeedListDto.status dto))))
          (Z.of_nat (List.length
                       (findAllByUser_query db userId
                                            (FeedListDto.status dto))))
          (FeedListDto.page dto) (FeedListDto.limit dto)).
Proof.
  unfold findAllByUser, getManyAndCount.
  now rewrite processFeedItem_each_eval.
Qed.

Lemma findAllByBookmark_eval db user dto :
  findAllByBookmark db user (Some dto)
  = Ok (generatePaginatedResponse
          (map (hydrated db (Some (User.id user)))
               (map (fun item =>
                       FeedFindOneVo.mk (snd item) None [] [] None None)
                    (Paginate dto (findAllByBookmark_query db user))))
          (Z.of_nat (List.length (findAllByBookmark_query db user)))
          (FeedListDto.page dto) (FeedListDto.limit dto)).
Proof.
  unfold findAllByBookmark, getManyAndCount.
  now rewrite processFeedItem_each_eval.
Qed.

Lemma join_user_feed db joined f item :
  In item (join_user db joined f) -> FeedFindOneVo.feed item = f.
Proof.
  unfold join_user.
  destruct (userRepository_findOne db (Feed.userId f)); [|intros []].
  intros [<-|[]]. reflexivity.
Qed.

Lemma findAllByFollowing_query_spec db user item :
  In item (findAllByFollowing_query db user) ->
  Feed.displayYn (FeedFindOneVo.feed item) = Y
  /\ Feed.status (FeedFindOneVo.feed item) = ACTIVE
  /\ In (Feed.userId (FeedFindOneVo.feed item))
        (User.followingIds user ++ [User.id user]).
Proof.
  unfold findAllByFollowing_query. intros H.
  apply filter_In in H. destruct H as [H _].
  apply in_flat_map in H. destruct H as [f [Hf Hj]].
  apply join_user_feed in Hj. rewrite Hj.
  apply -> (In_orderBy_DESC Feed.createdAt) in Hf.
  apply filter_In in Hf. destruct Hf as [_ Hf].
  apply andb_prop in Hf. destruct Hf as [Hf Hs].
  apply andb_prop in Hf. destruct Hf as [Hu Hd].
  apply YN_eqb_eq in Hd. apply FEED_STATUS_eqb_eq in Hs.
  apply existsb_exists in Hu. destruct Hu as [x [Hx Hx']].
  apply Z.eqb_eq in Hx'. subst x. auto.
Qed.

Lemma findAllByUser_query_spec db userId status item :
  In item (findAllByUser_query db userId status) ->
  Feed.displayYn (FeedFindOneVo.feed item) = Y
  /\ status = Some (Feed.status (FeedFindOneVo.feed item))
  /\ Feed.userId (FeedFindOneVo.feed item) = userId.
Proof.
  unfold findAllByUser_query. intros H.
  apply in_flat_map in H. destruct H as [f [Hf Hj]].
  apply join_user_feed in Hj. rewrite Hj.
  apply -> (In_orderBy_DESC Feed.createdAt) in Hf.
  apply filter_In in Hf. destruct Hf as [_ Hf].
  apply andb_prop in Hf. destruct Hf as [Hf Hu].
  apply andb_prop in Hf. destruct Hf as [Hd Hs].
  apply YN_eqb_eq in Hd. apply Z.eqb_eq in Hu.
  destruct status as [s|]; [|discriminate].
  apply FEED_STATUS_eqb_eq in Hs. subst s. auto.
Qed.

Lemma findAllByBookmark_query_spec db user row :
  In row (findAllByBookmark_query db user) ->
  Feed.displayYn (snd row) = Y /\ Feed.status (snd row) = ACTIVE
  /\ FeedBookmark.userId (fst row) = User.id user
  /\ Feed.id (snd row) = FeedBookmark.feedId (fst row).
Proof.
  unfold findAllByBookmark_query. intros H.
  apply -> (In_orderBy_DESC (fun r : FeedBookmark.t * Feed.t =>
                               Feed.createdAt (snd r))) in H.
  apply in_flat_map in H. destruct H as [b [Hb Hrow]].
  apply in_map_iff in Hrow. destruct Hrow as [f [<- Hf]]. cbn [fst snd].
  apply filter_In in Hb. destruct Hb as [_ Hb]. apply Z.eqb_eq in Hb.
  apply filter_In in Hf. destruct Hf as [_ Hf].
  apply andb_prop in Hf. destruct Hf as [Hf Hs].
  apply andb_prop in Hf. destruct Hf as [Hid Hd].
  apply YN_eqb_eq in Hd. apply FEED_STATUS_eqb_eq in Hs.
  apply Z.eqb_eq in Hid. auto.
Qed.

(** The feeds that the four list operations can return. *)
Lemma list_operations_select db user :
  (forall dto excludeUserIds r item,
      findAll db user (Some dto) (Some excludeUserIds) = Ok r ->
      In item (PaginateResponseVo.items r) ->
      Feed.displayYn (FeedFindOneVo.feed item) = Y
      /\ Feed.status (FeedFindOneVo.feed item) = ACTIVE)
  /\ (forall dto r item,
         findAllByFollowing db user (Some dto) = Ok r ->
         In item (PaginateResponseVo.items r) ->
         Feed.displayYn (FeedFindOneVo.feed item) = Y
         /\ Feed.status (FeedFindOneVo.feed item) = ACTIVE)
  /\ (forall dto r item,
         findAllByBookmark db user (Some dto) = Ok r ->
         In item (PaginateResponseVo.items r) ->
         Feed.displayYn (FeedFindOneVo.feed item) = Y
         /\ Feed.status (FeedFindOneVo.feed item) = ACTIVE)
  /\ (forall userId dto r item,
         findAllByUser db userId (Some dto) = Ok r ->
         In item (PaginateResponseVo.items r) ->
         Feed.displayYn (FeedFindOneVo.feed item) = Y
         /\ FeedListDto.status dto
            = Some (Feed.status (FeedFindOneVo.feed item))).
Proof.
  split; [|split; [|split]].
  - intros dto ex r item Hr Hin. rewrite findAll_eval in Hr. cbv zeta in Hr.
    injection Hr as <-. unfold generatePaginatedResponse in Hin.
    cbn [PaginateResponseVo.items] in Hin. apply in_map_iff in Hin.
    destruct Hin as [x [<- Hx]]. apply js_slice_incl in Hx.
    assert (In x (findAll_query db ex)) as Hq.
    { unfold tag_filtered in Hx.
      destruct (FeedListDto.tagName dto) as [t|]; auto.
      destruct (negb (String.eqb t "")); auto.
      now apply filter_In in Hx. }
    apply findAll_query_spec in Hq. cbn [hydrated FeedFindOneVo.feed]. tauto.
  - intros dto r item Hr Hin. rewrite findAllByFollowing_eval in Hr.
    injection Hr as <-. unfold generatePaginatedResponse in Hin.
    cbn [PaginateResponseVo.items] in Hin. apply in_map_iff in Hin.
    destruct Hin as [x [<- Hx]]. apply In_Paginate in Hx.
    apply findAllByFollowing_query_spec in Hx.
    cbn [hydrated FeedFindOneVo.feed]. tauto.
  - intros dto r item Hr Hin. rewrite findAllByBookmark_eval in Hr.
    injection Hr as <-. unfold generatePaginatedResponse in Hin.
    cbn [PaginateResponseVo.items] in Hin. apply in_map_iff in Hin.
    destruct Hin as [x [<- Hx]]. apply in_map_iff in Hx.
    destruct Hx as [row [<- Hrow]]. apply In_Paginate in Hrow.
    apply findAllByBookmark_query_spec in Hrow.
    cbn [hydrated FeedFindOneVo.feed]. tauto.
  - intros userId dto r item Hr Hin. rewrite findAllByUser_eval in Hr.
    injection Hr as <-. unfold generatePaginatedResponse in Hin.
    cbn [PaginateResponseVo.items] in Hin. apply in_map_iff in Hin.
    destruct Hin as [x [<- Hx]]. apply In_Paginate in Hx.
    apply findAllByUser_query_spec in Hx.
    cbn [hydrated FeedFindOneVo.feed]. tauto.
Qed.

(** ** Reads of one feed *)

Lemma findOne_found db feedId f u userId :
  feedRepository_findOne db feedId = Some f ->
  userRepository_findOne db (Feed.userId f) = Some u ->
  processFeedItem db (feed_by_id db feedId) userId
  = Ok (hydrated db userId (FeedFindOneVo.mk f (Some u) [] [] None None)).
Proof.
  intros Hf Hu. now rewrite (feed_by_id_first db feedId f u Hf Hu).
Qed.

(** C9, as amended: [findOneFeed] and [findOneByUser] select by id only;
    for a stored feed whose author's row exists (the inner join needs it)
    they return the hydrated feed whatever its [status] and [displayYn].
    [findAll], [findAllByFollowing] and [findAllByBookmark] return only
    ACTIVE feeds with [displayYn] Y; [findAllByUser] returns only feeds
    with [displayYn] Y whose status is the status of the request. *)
Theorem findOne_selects_by_id_only :
  forall db user feedId f u,
    feedRepository_findOne db feedId = Some f ->
    userRepository_findOne db (Feed.userId f) = Some u ->
    (exists found,
        findOneFeed db feedId = Ok found
        /\ FeedFindOneVo.feed found = f
        /\ found = hydrated db None
                     (FeedFindOneVo.mk f (Some u) [] [] None None))
    /\ (exists found,
           findOneByUser db user feedId = Ok found
           /\ FeedFindOneVo.feed found = f
           /\ found = hydrated db (Some (User.id user))
                        (FeedFindOneVo.mk f (Some u) [] [] None None))
    /\ (forall dto excludeUserIds r item,
           findAll db user (Some dto) (Some excludeUserIds) = Ok r ->
           In item (PaginateResponseVo.items r) ->
           Feed.displayYn (FeedFindOneVo.feed item) = Y
           /\ Feed.status (FeedFindOneVo.feed item) = ACTIVE)
    /\ (forall dto r item,
           findAllByFollowing db user (Some dto) = Ok r ->
           In item (PaginateResponseVo.items r) ->
           Feed.displayYn (FeedFindOneVo.feed item) = Y
           /\ Feed.status (FeedFindOneVo.feed item) = ACTIVE)
    /\ (forall dto r item,
           findAllByBookmark db user (Some dto) = Ok r ->
           In item (PaginateResponseVo.items r) ->
           Feed.displayYn (FeedFindOneVo.feed item) = Y
           /\ Feed.status (FeedFindOneVo.feed item) = ACTIVE)
    /\ (forall userId dto r item,
           findAllByUser db userId (Some dto) = Ok r ->
           In item (PaginateResponseVo.items r) ->
           Feed.displayYn (FeedFindOneVo.feed item) = Y
           /\ FeedListDto.status dto
              = Some (Feed.status (FeedFindOneVo.feed item))).
Proof.
  intros db user feedId f u Hf Hu.
  split; [|split].
  - eexists. unfold findOneFeed.
    rewrite (findOne_found db feedId f u None Hf Hu). auto.
  - eexists. unfold findOneByUser.
    rewrite (findOne_found db feedId f u _ Hf Hu). auto.
  - apply list_operations_select.
Qed.

Lemma findOne_selects_by_id_only_witness :
  (exists found,
      findOneFeed store_deleted_feed 1 = Ok found
      /\ Feed.status (FeedFindOneVo.feed found) = DELETED)
  /\ (forall r item,
         findAll store_deleted_feed (User.mk 2 0 N [])
                 (Some (FeedListDto.mk None 1 10 None)) (Some []) = Ok r ->
         In item (PaginateResponseVo.items r) ->
         Feed.status (FeedFindOneVo.feed item) = ACTIVE).
Proof.
  destruct (feedRepository_findOne store_deleted_feed 1) as [f|] eqn:Hf;
    [|vm_compute in Hf; discriminate].
  destruct (userRepository_findOne store_deleted_feed (Feed.userId f))
    as [u|] eqn:Hu;
    [|vm_compute in Hf; injection Hf as <-; vm_compute in Hu; discriminate].
  destruct (findOne_selects_by_id_only store_deleted_feed (User.mk 2 0 N [])
              1 f u Hf Hu) as [[found [H1 [H2 _]]] [_ [H3 _]]].
  assert (Feed.status f = DELETED) as Hs
      by (vm_compute in Hf; injection Hf as <-; reflexivity).
  split.
  - exists found. split; [exact H1 | congruence].
  - intros r item Hr Hin. exact (proj2 (H3 _ _ r item Hr Hin)).
Defined.

(** C9, refuted as stated: feed 1 of the store is DELETED, and the list
    operation [findAllByUser], asked for the DELETED feeds of user 1,
    returns it. *)
Lemma findAllByUser_lists_deleted_feed :
  option_map Feed.status (feedRepository_findOne store_deleted_feed 1)
  = Some DELETED
  /\ exists r,
       findAllByUser store_deleted_feed 1
                     (Some (FeedListDto.mk None 1 10 (Some DELETED))) = Ok r
       /\ map (fun item => (Feed.id (FeedFindOneVo.feed item),
                            Feed.status (FeedFindOneVo.feed item)))
              (PaginateResponseVo.items r) = [(1, DELETED)].
Proof.
  split; [vm_compute; reflexivity|].
  eexists. split; vm_compute; reflexivity.
Qed.

(** C8, as amended: every feed item that [processFeedItem] hydrates, and so
    every item returned by [findOneFeed], [findOneByUser], [findAll],
    [findAllByFollowing], [findAllByUser] and [findAllByBookmark], carries
    as [feedImages] the FeedImage rows of that feed in the order in which
    the rows are stored; no ordering by [sortOrder] is applied. *)
Theorem feedImages_in_storage_order :
  forall db,
    let stored := fun found =>
      filter (fun i => FeedImage.feedId i
                       =? Feed.id (FeedFindOneVo.feed found))
             (feedImages db) in
    (forall item userId found,
        processFeedItem db item userId = Ok found ->
        FeedFindOneVo.feedImages found = stored found)
    /\ (forall feedId found,
           findOneFeed db feedId = Ok found ->
           FeedFindOneVo.feedImages found = stored found)
    /\ (forall user feedId found,
           findOneByUser db user feedId = Ok found ->
           FeedFindOneVo.feedImages found = stored found)
    /\ (forall user dto excludeUserIds r found,
           findAll db user (Some dto) (Some excludeUserIds) = Ok r ->
           In found (PaginateResponseVo.items r) ->
           FeedFindOneVo.feedImages found = stored found)
    /\ (forall user dto r found,
           findAllByFollowing db user (Some dto) = Ok r ->
           In found (PaginateResponseVo.items r) ->
           FeedFindOneVo.feedImages found = stored found)
    /\ (forall userId dto r found,
           findAllByUser db userId (Some dto) = Ok r ->
           In found (PaginateResponseVo.items r) ->
           FeedFindOneVo.feedImages found = stored found)
    /\ (forall user dto r found,
           findAllByBookmark db user (Some dto) = Ok r ->
           In found (PaginateResponseVo.items r) ->
           FeedFindOneVo.feedImages found = stored found).
Proof.
  intros db stored.
  assert (forall item userId found,
             processFeedItem db item userId = Ok found ->
             FeedFindOneVo.feedImages found = stored found) as Hp.
  { intros [item|] userId found H; [|discriminate].
    rewrite processFeedItem_Some in H. injection H as <-. reflexivity. }
  assert (forall userId (l : list FeedFindOneVo.t) found,
             In found (map (hydrated db userId) l) ->
             FeedFindOneVo.feedImages found = stored found) as Hmap.
  { intros userId l found Hin. apply in_map_iff in Hin.
    destruct Hin as [x [<- _]]. reflexivity. }
  split; [exact Hp|]. split; [|split; [|split; [|split; [|split; [|]]]]].
  - intros feedId found H. exact (Hp _ _ _ H).
  - intros user feedId found H. exact (Hp _ _ _ H).
  - intros user dto ex r found Hr Hin. rewrite findAll_eval in Hr.
    cbv zeta in Hr. injection Hr as <-. exact (Hmap _ _ _ Hin).
  - intros user dto r found Hr Hin. rewrite findAllByFollowing_eval in Hr.
    injection Hr as <-. exact (Hmap _ _ _ Hin).
  - intros userId dto r found Hr Hin. rewrite findAllByUser_eval in Hr.
    injection Hr as <-. exact (Hmap _ _ _ Hin).
  - intros user dto r found Hr Hin. rewrite findAllByBookmark_eval in Hr.
    injection Hr as <-. exact (Hmap _ _ _ Hin).
Qed.

Lemma feedImages_in_storage_order_witness :
  exists found,
    findOneFeed store_one_feed 1 = Ok found
    /\ map FeedImage.sortOrder (FeedFindOneVo.feedImages found) = [2; 1].
Proof.
  destruct (findOneFeed store_one_feed 1) as [found|] eqn:Hfound;
    [|vm_compute in Hfound; discriminate].
  destruct (feedImages_in_storage_order store_one_feed) as [_ [H _]].
  exists found. split; [reflexivity|].
  rewrite (H 1 found Hfound).
  vm_compute in Hfound. injection Hfound as <-. reflexivity.
Defined.

(** C8, refuted as stated: the feed created with images supplied in the
    order [sortOrder] 2, 1 is read back with its images in that order. *)
Lemma feedImages_not_ordered_by_sortOrder :
  map FeedImage.sortOrder (feedImages store_one_feed) = [2; 1]
  /\ exists found,
       findOneFeed store_one_feed 1 = Ok found
       /\ map FeedImage.sortOrder (FeedFindOneVo.feedImages found) = [2; 1]
       /\ ordered_by_sortOrder (FeedFindOneVo.feedImages found) = false.
Proof.
  split; [vm_compute; reflexivity|].
  eexists. split; [vm_compute; reflexivity|].
  split; vm_compute; reflexivity.
Qed.

(** ** Store constraints *)

Lemma distinct_NoDup {A} (eqb : A -> A -> bool) (l : list A) :
  (forall x y, eqb x y = true <-> x = y) ->
  distinct eqb l = true -> NoDup l.
Proof.
  intros Heq. induction l as [|x l IH]; simpl; intros H; [constructor|].
  apply andb_prop in H. destruct H as [Hx Hl]. constructor; [|now apply IH].
  intros Hin. apply negb_true_iff in Hx. apply not_true_iff_false in Hx.
  apply Hx. apply existsb_exists. exists x. split; [exact Hin|].
  now apply Heq.
Qed.

Lemma tag_keys_ok_spec db : tag_keys_ok db = true -> TagKeys db.
Proof.
  unfold tag_keys_ok, TagKeys. intros H. apply andb_prop in H.
  destruct H as [H Hb]. apply andb_prop in H. destruct H as [Hd Hpos].
  split; [|split].
  - apply (distinct_NoDup Z.eqb); [apply Z.eqb_eq | exact Hd].
  - now apply Z.ltb_lt.
  - intros t Ht. rewrite forallb_forall in Hb. specialize (Hb t Ht).
    apply andb_prop in Hb. destruct Hb as [H1 H2].
    apply Z.ltb_lt in H1. apply Z.ltb_lt in H2. lia.
Qed.

Lemma tag_names_unique_spec db : tag_names_unique db = true -> TagNames db.
Proof.
  unfold tag_names_unique, TagNames.
  apply (distinct_NoDup String.eqb). apply String.eqb_eq.
Qed.

Lemma mappers_reference_tags_spec db :
  mappers_reference_tags db = true -> MapperFK db.
Proof.
  unfold mappers_reference_tags, MapperFK. intros H m Hm.
  rewrite forallb_forall in H. specialize (H m Hm).
  apply existsb_exists in H. destruct H as [t [Ht Hid]].
  exists t. split; [exact Ht | now apply Z.eqb_eq].
Qed.

(** Lookups in a table with unique keys. *)
Lemma find_by_id_unique (tg : list Tag.t) t :
  NoDup (map Tag.id tg) -> In t tg ->
  find (fun x => Tag.id x =? Tag.id t) tg = Some t.
Proof.
  induction tg as [|y tg IH]; simpl; intros Hnd Hin; [contradiction|].
  inversion Hnd as [|? ? Hy Hnd']; subst.
  destruct Hin as [->|Hin].
  - now rewrite Z.eqb_refl.
  - destruct (Tag.id y =? Tag.id t) eqn:E; [|now apply IH].
    apply Z.eqb_eq in E. exfalso. apply Hy. rewrite E.
    now apply in_map.
Qed.


Lemma same_id_same_tag (tg : list Tag.t) t1 t2 :
  NoDup (map Tag.id tg) -> In t1 tg -> In t2 tg ->
  Tag.id t1 = Tag.id t2 -> t1 = t2.
Proof.
  intros Hnd H1 H2 Hid.
  pose proof (find_by_id_unique tg t1 Hnd H1) as F1.
  pose proof (find_by_id_unique tg t2 Hnd H2) as F2.
  rewrite Hid in F1. congruence.
Qed.

Lemma find_by_name_Some (tg : list Tag.t) name t :
  find (fun x => String.eqb (Tag.tagName x) name) tg = Some t ->
  In t tg /\ Tag.tagName t = name.
Proof.
  intros H. apply find_some in H. destruct H as [Hin Hn].
  now apply String.eqb_eq in Hn.
Qed.

Lemma find_by_name_None (tg : list Tag.t) name :
  find (fun x => String.eqb (Tag.tagName x) name) tg = None ->
  forall t, In t tg -> Tag.tagName t <> name.
Proof.
  intros H t Ht Hn. pose proof (find_none _ _ H t Ht) as Hf.
  simpl in Hf. rewrite Hn, String.eqb_refl in Hf. discriminate.
Qed.



(** ** The tag names of a feed *)

Lemma tagNames_of_lookup (tg : list Tag.t) (ms : list MapperFeedTag.t) :
  NoDup (map Tag.id tg) ->
  (forall m, In m ms ->
             exists t, In t tg /\ Tag.id t = MapperFeedTag.tagId m) ->
  exists names,
    tagNames_of (map (fun tagId => find (fun t => Tag.id t =? tagId) tg)
                     (map MapperFeedTag.tagId ms)) = Ok names
    /\ forall n, In n names <->
                 exists m t, In m ms /\ In t tg
                             /\ Tag.id t = MapperFeedTag.tagId m
                             /\ Tag.tagName t = n.
Proof.
  intros Hnd. induction ms as [|m ms IH]; intros Hfk.
  - exists []. split; [reflexivity|]. intros n. split; [intros []|].
    intros [m [t [[] _]]].
  - destruct IH as [names [Hrun Hnames]].
    { intros m' Hm'. apply Hfk. now right. }
    destruct (Hfk m (or_introl eq_refl)) as [t [Ht Hid]].
    exists (Tag.tagName t :: names). split.
    + cbn [map tagNames_of]. rewrite <- Hid.
      rewrite (find_by_id_unique tg t Hnd Ht). now rewrite Hrun.
    + intros n. cbn [In]. rewrite Hnames. split.
      * intros [Hn | [m' [t' [Hm' H']]]].
        -- exists m, t. auto.
        -- exists m', t'. tauto.
      * intros [m' [t' [[<- | Hm'] [Ht' [Hid' Hn]]]]].
        -- left. f_equal.
           rewrite <- Hn. f_equal. apply (same_id_same_tag tg); auto.
           congruence.
        -- right. exists m', t'. auto.
Qed.

Lemma feed_tag_names w feedId :
  TagKeys w ->
  (forall m, In m (mapperFeedTags w) -> MapperFeedTag.feedId m = feedId ->
             exists t, In t (tags w) /\ Tag.id t = MapperFeedTag.tagId m) ->
  exists names,
    tagNames_of (__get_feed_tags w feedId) = Ok names
    /\ forall n, In n names <-> has_mapper w feedId n.
Proof.
  intros [Hnd _] Hfk.
  destruct (tagNames_of_lookup (tags w)
              (filter (fun m => MapperFeedTag.feedId m =? feedId)
                      (mapperFeedTags w)) Hnd) as [names [Hrun Hnames]].
  { intros m Hm. apply filter_In in Hm. destruct Hm as [Hm Hid].
    apply Z.eqb_eq in Hid. now apply Hfk. }
  exists names. split; [exact Hrun|].
  intros n. rewrite Hnames. unfold has_mapper. split.
  - intros [m [t [Hm H]]]. apply filter_In in Hm. destruct Hm as [Hm Hid].
    apply Z.eqb_eq in Hid. exists m, t. tauto.
  - intros [m [t [Hm [Hid H]]]]. exists m, t. split; [|tauto].
    apply filter_In. split; [exact Hm | now apply Z.eqb_eq].
Qed.

(** ** The rest of the store *)

Lemma same_rest_refl w : same_rest w w.
Proof. unfold same_rest. tauto. Qed.

Lemma same_rest_trans w1 w2 w3 :
  same_rest w1 w2 -> same_rest w2 w3 -> same_rest w1 w3.
Proof. unfold same_rest. intuition congruence. Qed.

(** ** Rounds of [Promise.all] *)

Lemma run_step {A} (c : Async A) w :
  pending c ->
  run c w = match step c w with
            | Ok (c', w') => run c' w'
            | Err e => Err e
            end.
Proof.
  destruct c as [a|e|X op k]; cbn; [reflexivity | intros [] |].
  intros _. unfold bind, ret. destruct (op w) as [[x w']|e]; reflexivity.
Qed.

Lemma step_par {A} (c : Async A) (r : Async (list A)) w :
  pending c -> pending r ->
  step (par c r) w
  = match step c w with
    | Ok (c', w1) =>
        match step r w1 with
        | Ok (r', w2) => Ok (par c' r', w2)
        | Err e => Err e
        end
    | Err e => Err e
    end.
Proof.
  destruct c as [a|e|X op k]; destruct r as [l|e'|Y opr kr]; cbn;
    try (intros [] ; fail); try (intros _ []; fail); intros _ _;
    unfold bind, ret.
  - reflexivity.
  - destruct (opr w) as [[y w']|e]; reflexivity.
  - destruct (op w) as [[x w']|e]; reflexivity.
  - destruct (op w) as [[x w1]|e]; [|reflexivity].
    destruct (opr w1) as [[y w2]|e]; reflexivity.
Qed.

Lemma pending_par {A} (c : Async A) (r : Async (list A)) :
  pending c -> pending r -> pending (par c r).
Proof. destruct c, r; cbn; tauto. Qed.

Lemma pending_Promise_all {A} (cs : list (Async A)) :
  Forall pending cs -> pending (Promise_all cs).
Proof.
  induction 1 as [|c cs Hc _ IH]; [exact I|].
  cbn [Promise_all fold_right]. now apply pending_par.
Qed.

Lemma step_Promise_all {A} (cs : list (Async A)) :
  Forall pending cs ->
  forall w,
    step (Promise_all cs) w
    = match round cs w with
      | Ok (cs', w') => Ok (Promise_all cs', w')
      | Err e => Err e
      end.
Proof.
  induction 1 as [|c cs Hc Hcs IH]; intros w; [reflexivity|].
  change (Promise_all (c :: cs)) with (par c (Promise_all cs)).
  rewrite (step_par c (Promise_all cs) w Hc (pending_Promise_all cs Hcs)).
  cbn [round]. unfold bind at 1.
  destruct (step c w) as [[c' w1]|e]; [|reflexivity].
  rewrite IH. unfold bind, ret.
  destruct (round cs w1) as [[cs' w2]|e]; reflexivity.
Qed.

(** [Promise.all] goes round by round. *)
Lemma run_Promise_all_round {A} (cs : list (Async A)) w :
  Forall pending cs ->
  run (Promise_all cs) w
  = match round cs w with
    | Ok (cs', w') => run (Promise_all cs') w'
    | Err e => Err e
    end.
Proof.
  intros H.
  rewrite (run_step (Promise_all cs) w (pending_Promise_all cs H)),
    (step_Promise_all cs H).
  destruct (round cs w) as [[cs' w']|e]; reflexivity.
Qed.

Lemma Promise_all_resolved {A} (l : list A) :
  Promise_all (map Resolved l) = Resolved l.
Proof.
  induction l as [|a l IH]; [reflexivity|].
  cbn [map]. change (Promise_all (Resolved a :: map Resolved l))
    with (par (Resolved a) (Promise_all (map Resolved l))).
  now rewrite IH.
Qed.

(** ** Soundness of the reasoning about callbacks *)

Section CallbackRules.

Variable Inv : DB -> Prop.
Variable G : DB -> DB -> Prop.
Variable fail_ok : Prop.
Hypothesis G_refl : forall w, G w w.
Hypothesis G_trans : forall w1 w2 w3, G w1 w2 -> G w2 w3 -> G w1 w3.

Lemma stable_and P1 P2 :
  stable Inv G P1 -> stable Inv G P2 -> stable Inv G (fun w => P1 w /\ P2 w).
Proof.
  intros H1 H2 w w' Hi Hi' Hg [Ha Hb].
  split; [exact (H1 w w' Hi Hi' Hg Ha) | exact (H2 w w' Hi Hi' Hg Hb)].
Qed.

Lemma stable_const (p : Prop) : stable Inv G (fun _ => p).
Proof. intros w w' _ _ _ H. exact H. Qed.

Lemma sat_weaken {A} (c : Async A) :
  forall (P P2 : DB -> Prop) (Q Q2 : A -> DB -> Prop),
    (forall w, Inv w -> P2 w -> P w) ->
    (forall a w, Inv w -> Q a w -> Q2 a w) ->
    sat Inv G fail_ok c P Q -> sat Inv G fail_ok c P2 Q2.
Proof.
  induction c as [a|e|X op k IH]; intros P P2 Q Q2 HP HQ H; cbn in *.
  - intros w Hi Hp. apply HQ; auto.
  - intros w Hi Hp. eapply H; eauto.
  - intros w Hi Hp. specialize (H w Hi (HP w Hi Hp)).
    destruct (op w) as [[x w']|e]; [|exact H].
    destruct H as [Hi' [Hg [P' [Hs [Hp' Hsat]]]]].
    split; [exact Hi'|]. split; [exact Hg|].
    exists P'. split; [exact Hs|]. split; [exact Hp'|].
    eapply IH; [| |exact Hsat]; auto.
Qed.

Lemma sat_run {A} (c : Async A) :
  forall (P : DB -> Prop) (Q : A -> DB -> Prop) w,
    sat Inv G fail_ok c P Q -> Inv w -> P w ->
    match run c w with
    | Ok (a, w') => Inv w' /\ G w w' /\ Q a w'
    | Err _ => fail_ok
    end.
Proof.
  induction c as [a|e|X op k IH]; intros P Q w H Hi Hp; cbn in *.
  - unfold ret. auto.
  - unfold throw. eauto.
  - unfold bind. specialize (H w Hi Hp).
    destruct (op w) as [[x w']|e]; [|exact H].
    destruct H as [Hi' [Hg [P' [Hs [Hp' Hsat]]]]].
    specialize (IH x P' Q w' Hsat Hi' Hp').
    destruct (run (k x) w') as [[a w'']|e]; [|exact IH].
    destruct IH as [Hi'' [Hg' Hq]]. eauto.
Qed.

Lemma sat_await {A B} (c : Async A) (k : A -> Async B) :
  forall (P : DB -> Prop) (Q : A -> DB -> Prop) (R : B -> DB -> Prop),
    sat Inv G fail_ok c P Q ->
    (forall a, sat Inv G fail_ok (k a) (Q a) R) ->
    sat Inv G fail_ok (await c k) P R.
Proof.
  induction c as [a|e|X op k0 IH]; intros P Q R H Hk; cbn in *.
  - eapply sat_weaken; [| |apply Hk]; auto.
  - exact H.
  - intros w Hi Hp. specialize (H w Hi Hp).
    destruct (op w) as [[x w']|e]; [|exact H].
    destruct H as [Hi' [Hg [P' [Hs [Hp' Hsat]]]]].
    split; [exact Hi'|]. split; [exact Hg|].
    exists P'. split; [exact Hs|]. split; [exact Hp'|].
    eapply IH; eauto.
Qed.

Lemma sat_par {A} (c : Async A) :
  forall (r : Async (list A)) (P PR : DB -> Prop)
         (Q : A -> DB -> Prop) (QR : list A -> DB -> Prop),
    stable Inv G P -> stable Inv G PR ->
    sat Inv G fail_ok c P Q -> sat Inv G fail_ok r PR QR ->
    sat Inv G fail_ok (par c r) (fun w => P w /\ PR w)
        (fun l w => exists a l', l = a :: l' /\ Q a w /\ QR l' w).
Proof.
  induction c as [a|e|X op k IHc]; intros r.
  - (* Resolved a *)
    induction r as [l|e|Y opr kr IHr]; intros P PR Q QR SP SPR Hc Hr;
      cbn in *.
    + intros w Hi [Hp Hpr]. exists a, l. auto.
    + intros w Hi [Hp Hpr]. eauto.
    + intros w Hi [Hp Hpr]. specialize (Hr w Hi Hpr).
      destruct (opr w) as [[y w']|e]; [|exact Hr].
      destruct Hr as [Hi' [Hg [PR' [Hs [Hp' Hsat]]]]].
      split; [exact Hi'|]. split; [exact Hg|].
      exists (fun w => P w /\ PR' w).
      split; [now apply stable_and|].
      split; [split; [exact (SP w w' Hi Hi' Hg Hp) | exact Hp']|].
      apply IHr; auto.
  - intros P PR Q QR SP SPR Hc Hr. destruct r; cbn in *;
      intros w Hi [Hp Hpr]; eauto.
  - (* Await op k *)
    destruct r as [l|e|Y opr kr]; intros P PR Q QR SP SPR Hc Hr;
      cbn in *.
    + intros w Hi [Hp Hpr]. specialize (Hc w Hi Hp).
      destruct (op w) as [[x w']|e]; [|exact Hc].
      destruct Hc as [Hi' [Hg [P' [Hs [Hp' Hsat]]]]].
      split; [exact Hi'|]. split; [exact Hg|].
      exists (fun w => P' w /\ PR w).
      split; [now apply stable_and|].
      split; [split; [exact Hp' | exact (SPR w w' Hi Hi' Hg Hpr)]|].
      exact (IHc x (Resolved l) P' PR Q QR Hs SPR Hsat Hr).
    + intros w Hi [Hp Hpr]. eauto.
    + intros w Hi [Hp Hpr]. unfold bind, ret.
      specialize (Hc w Hi Hp).
      destruct (op w) as [[x w1]|e]; [|exact Hc].
      destruct Hc as [Hi1 [Hg1 [P' [Hs [Hp' Hsat]]]]].
      assert (PR w1) as Hpr1 by exact (SPR w w1 Hi Hi1 Hg1 Hpr).
      specialize (Hr w1 Hi1 Hpr1).
      destruct (opr w1) as [[y w2]|e]; [|exact Hr].
      destruct Hr as [Hi2 [Hg2 [PR' [Hs' [Hpr' Hsat']]]]].
      split; [exact Hi2|]. split; [eapply G_trans; eauto|].
      exists (fun w => P' w /\ PR' w).
      split; [now apply stable_and|].
      split; [split; [exact (Hs w1 w2 Hi1 Hi2 Hg2 Hp') | exact Hpr']|].
      exact (IHc x (kr y) P' PR' Q QR Hs Hs' Hsat Hsat').
Qed.

(** The callbacks of one [Promise.all], each started with [P] known. *)
Lemma sat_Promise_all {X A} (callback : X -> Async A) (P : DB -> Prop)
    (Q : X -> DB -> Prop) :
  stable Inv G P -> (forall x, stable Inv G (Q x)) ->
  forall xs,
    (forall x, In x xs ->
               sat Inv G fail_ok (callback x) P (fun _ w => Q x w)) ->
    sat Inv G fail_ok (Promise_all (map callback xs)) P
        (fun _ w => forall x, In x xs -> Q x w).
Proof.
  intros SP SQ. induction xs as [|x xs IH]; intros H.
  - cbn. intros w _ _ y [].
  - cbn [map]. change (Promise_all (callback x :: map callback xs))
      with (par (callback x) (Promise_all (map callback xs))).
    eapply sat_weaken;
      [| |apply (sat_par (callback x) (Promise_all (map callback xs)) P P
                   (fun _ w => Q x w)
                   (fun _ w => forall y, In y xs -> Q y w) SP SP)].
    + intros w _ Hp. split; exact Hp.
    + intros l w _ [a [l' [_ [Hq Hall]]]] y [<-|Hy]; auto.
    + apply H. now left.
    + apply IH. intros y Hy. apply H. now right.
Qed.

End CallbackRules.

Section CallbackFrame.

Variable Inv : DB -> Prop.
Variable G : DB -> DB -> Prop.
Variable fail_ok : Prop.


End CallbackFrame.


Lemma filter_all {A} (p : A -> bool) (l : list A) :
  (forall x, In x l -> p x = true) -> filter p l = l.
Proof.
  induction l as [|x l IH]; simpl; intros H; [reflexivity|].
  rewrite (H x (or_introl eq_refl)). f_equal. apply IH.
  intros y Hy. apply H. now right.
Qed.

Lemma filter_filter {A} (p q : A -> bool) (l : list A) :
  filter q (filter p l) = filter (fun x => p x && q x) l.
Proof.
  induction l as [|x l IH]; simpl; [reflexivity|].
  destruct (p x); simpl; [destruct (q x); now rewrite IH | exact IH].
Qed.

Lemma with_mapperFeedTags_same w :
  with_mapperFeedTags w (mapperFeedTags w) (nextMapperFeedTagId w) = w.
Proof. now destruct w. Qed.


(** ** The tag callbacks of [updateFeed] *)




Section UpdateTags.

Variable iso : Isolation.
Variable committed : DB.
Variable feedId : Z.
Variable names : list string.
Variable feed : Feed.t.
Variable item : FeedFindOneVo.t.

Hypothesis committed_keys : TagKeys committed.
Hypothesis committed_names : TagNames committed.
Hypothesis committed_fk : MapperFK committed.
Hypothesis feed_id : Feed.id feed = feedId.
Hypothesis feed_found : feed_by_id committed feedId = Some item.
























End UpdateTags.


Lemma view_same iso db : view iso db db = db.
Proof. now destruct iso. Qed.





(** ** Creation *)

Lemma with_feedImages_same w :
  with_feedImages w (feedImages w ++ []) (nextFeedImageId w + 0) = w.
Proof. destruct w. unfold with_feedImages. cbn. now rewrite app_nil_r, Z.add_0_r. Qed.

(** ** The callbacks of [createFeed] *)

Lemma if_nonempty_Promise_all {A X} (callback : X -> Async A) (l : list X) :
  (if nonempty l
   then bind (run (Promise_all (map callback l))) (fun _ => ret tt)
   else ret tt)
  = bind (run (Promise_all (map callback l))) (fun _ => ret tt).
Proof. now destruct l. Qed.

Lemma run_resolved {A B} (f : B -> A) (l : list B) w :
  run (Promise_all (map (fun x => Resolved (f x)) l)) w = Ok (map f l, w).
Proof.
  rewrite <- (map_map f Resolved), Promise_all_resolved. reflexivity.
Qed.

Lemma new_mappers_app feedId :
  forall a b next,
    new_mappers feedId next (a ++ b)
    = new_mappers feedId next a
      ++ new_mappers feedId (next + Z.of_nat (List.length a)) b.
Proof.
  induction a as [|x a IH]; intros b next.
  - cbn [app new_mappers List.length Z.of_nat]. now rewrite Z.add_0_r.
  - cbn [app new_mappers List.length]. rewrite IH. do 3 f_equal. lia.
Qed.

Lemma new_mappers_length feedId :
  forall l next, List.length (new_mappers feedId next l) = List.length l.
Proof.
  induction l as [|x l IH]; intros next; cbn [new_mappers List.length];
    [reflexivity | now rewrite IH].
Qed.

Lemma new_tags_length :
  forall l next, List.length (new_tags next l) = List.length l.
Proof.
  induction l as [|x l IH]; intros next; cbn [new_tags List.length];
    [reflexivity | now rewrite IH].
Qed.

(** The image callbacks of [createFeed] take one round: the rows are
    saved in the order of the request. *)
Lemma createFeed_images_round feedId :
  forall images w,
    round (map (createFeed_image feedId) images) w
    = Ok (map (fun _ => Resolved tt) images,
          with_feedImages w
            (feedImages w ++ new_images feedId (nextFeedImageId w) images)
            (nextFeedImageId w + Z.of_nat (List.length images))).
Proof.
  induction images as [|i images IH]; intros w.
  - cbn [map round new_images List.length Z.of_nat]. unfold ret.
    now rewrite with_feedImages_same.
  - cbn [map round]. unfold createFeed_image at 1. cbn [step].
    unfold bind at 1. unfold bind at 1.
    unfold insert_FeedImage at 1. unfold ret at 1.
    unfold bind at 1. rewrite IH. unfold ret.
    unfold with_feedImages. cbn [feedImages nextFeedImageId users feeds
                                 feedLikes feedBookmarks tags mapperFeedTags
                                 nextFeedId nextFeedLikeId nextFeedBookmarkId
                                 nextTagId nextMapperFeedTagId new_images].
    rewrite <- app_assoc. cbn [app]. do 3 f_equal.
    cbn [List.length]. lia.
Qed.

Lemma createFeed_images_run feedId images w :
  run (Promise_all (map (createFeed_image feedId) images)) w
  = Ok (map (fun _ => tt) images,
        with_feedImages w
          (feedImages w ++ new_images feedId (nextFeedImageId w) images)
          (nextFeedImageId w + Z.of_nat (List.length images))).
Proof.
  rewrite run_Promise_all_round.
  - rewrite createFeed_images_round. apply run_resolved.
  - apply Forall_forall. intros c Hc. apply in_map_iff in Hc.
    destruct Hc as [i [<- _]]. exact I.
Qed.

(** The tag callbacks of [createFeed] take three rounds.  In the first
    every callback looks its name up, in the tag table as it was when the
    transaction began. *)
Lemma createFeed_tags_round1 iso db feedId w :
  tags w = tags db ->
  forall names,
    round (map (createFeed_tag iso db feedId) names) w
    = Ok (map (fun n =>
                 match tagRepository_findOne_tagName db n with
                 | Some tag => createFeed_mapper feedId tag
                 | None => Await (insert_Tag n) (createFeed_mapper feedId)
                 end) names, w).
Proof.
  intros Ht.
  assert (forall n, tagRepository_findOne_tagName (view iso db w) n
                    = tagRepository_findOne_tagName db n) as Hview.
  { intros n. unfold tagRepository_findOne_tagName.
    destruct iso; cbn [view]; [reflexivity | now rewrite Ht]. }
  induction names as [|n names IH]; [reflexivity|].
  cbn [map round]. unfold createFeed_tag at 1. cbn [step].
  unfold bind at 1. unfold bind at 1. unfold outside at 1. unfold ret at 1.
  unfold bind at 1. rewrite IH. unfold ret. now rewrite Hview.
Qed.

(** In the second, the callbacks of the names that have a Tag row save
    their mapper row and those of the other names save a Tag row. *)
Lemma createFeed_tags_round2 db feedId :
  forall names w,
    round (map (fun n =>
                  match tagRepository_findOne_tagName db n with
                  | Some tag => createFeed_mapper feedId tag
                  | None => Await (insert_Tag n) (createFeed_mapper feedId)
                  end) names) w
    = Ok (createFeed_saving db feedId (nextTagId w) names,
          with_mapperFeedTags
            (with_tags w
               (tags w ++ new_tags (nextTagId w) (unknown_names db names))
               (nextTagId w
                + Z.of_nat (List.length (unknown_names db names))))
            (mapperFeedTags w
             ++ new_mappers feedId (nextMapperFeedTagId w)
                            (map Tag.id (known_tags db names)))
            (nextMapperFeedTagId w
             + Z.of_nat (List.length (known_tags db names)))).
Proof.
  induction names as [|n names IH]; intros w.
  - cbn [map round createFeed_saving unknown_names known_tags filter flat_map
         new_tags new_mappers List.length Z.of_nat].
    unfold ret. destruct w. unfold with_mapperFeedTags, with_tags. cbn.
    now rewrite !app_nil_r, !Z.add_0_r.
  - cbn [map round createFeed_saving]. unfold unknown_names, known_tags.
    cbn [filter flat_map]. fold (unknown_names db names).
    fold (known_tags db names).
    destruct (tagRepository_findOne_tagName db n) as [t|].
    + unfold createFeed_mapper at 1. cbn [step].
      unfold bind at 1. unfold bind at 1.
      unfold insert_MapperFeedTag at 1. unfold ret at 1.
      unfold bind at 1. rewrite IH. unfold ret.
      unfold with_mapperFeedTags, with_tags.
      cbn [feedImages nextFeedImageId users feeds
           feedLikes feedBookmarks tags mapperFeedTags
           nextFeedId nextFeedLikeId nextFeedBookmarkId
           nextTagId nextMapperFeedTagId new_mappers map app List.length].
      rewrite <- app_assoc. cbn [app]. do 3 f_equal. lia.
    + cbn [step].
      unfold bind at 1. unfold bind at 1.
      unfold insert_Tag at 1. unfold ret at 1.
      unfold bind at 1. rewrite IH. unfold ret.
      unfold with_mapperFeedTags, with_tags.
      cbn [feedImages nextFeedImageId users feeds
           feedLikes feedBookmarks tags mapperFeedTags
           nextFeedId nextFeedLikeId nextFeedBookmarkId
           nextTagId nextMapperFeedTagId new_tags map app List.length].
      rewrite <- app_assoc. cbn [app]. do 3 f_equal. lia.
Qed.

(** In the third, the callbacks of the new names save their mapper
    row. *)
Lemma createFeed_tags_round3 db feedId :
  forall names next w,
    round (createFeed_saving db feedId next names) w
    = Ok (map (fun _ => Resolved tt) names,
          with_mapperFeedTags w
            (mapperFeedTags w
             ++ new_mappers feedId (nextMapperFeedTagId w)
                  (map Tag.id (new_tags next (unknown_names db names))))
            (nextMapperFeedTagId w
             + Z.of_nat (List.length (unknown_names db names)))).
Proof.
  induction names as [|n names IH]; intros next w.
  - cbn [map round createFeed_saving unknown_names filter
         new_tags new_mappers List.length Z.of_nat].
    unfold ret. rewrite app_nil_r, Z.add_0_r.
    now rewrite with_mapperFeedTags_same.
  - cbn [map round createFeed_saving]. unfold unknown_names.
    cbn [filter]. fold (unknown_names db names).
    destruct (tagRepository_findOne_tagName db n) as [t|]; cbn [round].
    + cbn [step]. unfold bind at 1. unfold ret at 1.
      unfold bind at 1. rewrite IH. reflexivity.
    + unfold createFeed_mapper at 1. cbn [step].
      unfold bind at 1. unfold bind at 1.
      unfold insert_MapperFeedTag at 1. unfold ret at 1.
      unfold bind at 1. rewrite IH. unfold ret.
      unfold with_mapperFeedTags.
      cbn [feedImages nextFeedImageId users feeds
           feedLikes feedBookmarks tags mapperFeedTags
           nextFeedId nextFeedLikeId nextFeedBookmarkId
           nextTagId nextMapperFeedTagId new_tags new_mappers map app
           List.length Tag.id].
      rewrite <- app_assoc. cbn [app]. do 3 f_equal. lia.
Qed.

Lemma createFeed_saving_pending db feedId :
  forall names next,
    Forall pending (createFeed_saving db feedId next names).
Proof.
  induction names as [|n names IH]; intros next; cbn [createFeed_saving];
    [constructor|].
  destruct (tagRepository_findOne_tagName db n); constructor;
    solve [exact I | apply IH].
Qed.

(** What the tag callbacks of [createFeed] leave together: the Tag rows
    of the new names, and the mapper rows, those of the known names
    before those of the new ones. *)
Lemma createFeed_tags_run iso db feedId names w :
  tags w = tags db ->
  run (Promise_all (map (createFeed_tag iso db feedId) names)) w
  = Ok (map (fun _ => tt) names,
        with_mapperFeedTags
          (with_tags w
             (tags w ++ new_tags (nextTagId w) (unknown_names db names))
             (nextTagId w
              + Z.of_nat (List.length (unknown_names db names))))
          (mapperFeedTags w
           ++ new_mappers feedId (nextMapperFeedTagId w)
                (map Tag.id (known_tags db names)
                 ++ map Tag.id
                      (new_tags (nextTagId w) (unknown_names db names))))
          (nextMapperFeedTagId w
           + Z.of_nat
               (List.length
                  (map Tag.id (known_tags db names)
                   ++ map Tag.id
                        (new_tags (nextTagId w)
                                  (unknown_names db names)))))).
Proof.
  intros Ht.
  rewrite run_Promise_all_round.
  2:{ apply Forall_forall. intros c Hc. apply in_map_iff in Hc.
      destruct Hc as [n [<- _]]. exact I. }
  rewrite (createFeed_tags_round1 iso db feedId w Ht).
  rewrite run_Promise_all_round.
  2:{ apply Forall_forall. intros c Hc. apply in_map_iff in Hc.
      destruct Hc as [n [<- _]].
      now destruct (tagRepository_findOne_tagName db n). }
  rewrite createFeed_tags_round2.
  rewrite run_Promise_all_round by apply createFeed_saving_pending.
  rewrite createFeed_tags_round3.
  rewrite run_resolved. do 2 f_equal.
  unfold with_mapperFeedTags, with_tags.
  cbn [feedImages nextFeedImageId users feeds
       feedLikes feedBookmarks tags mapperFeedTags
       nextFeedId nextFeedLikeId nextFeedBookmarkId
       nextTagId nextMapperFeedTagId].
  rewrite new_mappers_app, <- app_assoc, !length_app, !length_map,
    new_tags_length.
  f_equal. lia.
Qed.

(** The transaction of [createFeed] for an existing user, in closed
    form. *)
Lemma createFeed_eval iso dflt now userId dto db u :
  userRepository_findOne db userId = Some u ->
  createFeed iso dflt now userId dto db
  = (Ok (new_Feed dflt now userId dto (nextFeedId db)),
     created_store dflt now userId dto u db).
Proof.
  intros Hu.
  assert (existsb (fun r => User.id r =? User.id u) (users db) = true) as Hex.
  { unfold userRepository_findOne in Hu. apply find_some in Hu.
    apply existsb_exists. exists u. split; [apply Hu | apply Z.eqb_refl]. }
  unfold createFeed, dataSource_transaction, createFeed_body.
  unfold bind at 1. unfold insert_Feed at 1.
  rewrite if_nonempty_Promise_all.
  unfold bind at 1. unfold bind at 1.
  cbn [Feed.id new_Feed]. rewrite createFeed_images_run.
  unfold ret at 1.
  unfold bind at 1. unfold outside at 1.
  unfold bind at 1.
  match goal with
  | |- context [userRepository_findOne (view iso db ?w) userId] =>
      replace (userRepository_findOne (view iso db w) userId) with (Some u)
        by (destruct iso; symmetry; exact Hu)
  end.
  unfold nonNull at 1. unfold ret at 1.
  unfold bind at 1. unfold save_User at 1.
  cbn [users with_feedImages with_feeds User.id User.set_feedCount].
  rewrite Hex.
  unfold bind at 1. rewrite if_nonempty_Promise_all.
  change (with_users _ _)
    with (created_before_tags dflt now userId dto u db).
  unfold bind at 1. rewrite createFeed_tags_run by reflexivity.
  unfold ret, created_store, mapped_tagIds.
  cbn [created_before_tags tags mapperFeedTags nextTagId nextMapperFeedTagId].
  now rewrite new_tags_length.
Qed.

Lemma createFeed_no_user iso dflt now userId dto db :
  userRepository_findOne db userId = None ->
  createFeed iso dflt now userId dto db = (Err TypeError, db).
Proof.
  intros Hu.
  unfold createFeed, dataSource_transaction, createFeed_body.
  unfold bind at 1. unfold insert_Feed at 1.
  rewrite if_nonempty_Promise_all.
  unfold bind at 1. unfold bind at 1.
  cbn [Feed.id new_Feed]. rewrite createFeed_images_run.
  unfold ret at 1.
  unfold bind at 1. unfold outside at 1.
  unfold bind at 1.
  match goal with
  | |- context [userRepository_findOne (view iso db ?w) userId] =>
      replace (userRepository_findOne (view iso db w) userId)
        with (@None User.t)
        by (destruct iso; symmetry; exact Hu)
  end.
  reflexivity.
Qed.

Lemma new_images_spec feedId :
  forall images next,
    map (fun i => (FeedImage.image i, FeedImage.sortOrder i))
        (new_images feedId next images)
    = map (fun i => (FeedImageDto.image i, FeedImageDto.sortOrder i)) images
    /\ filter (fun i => FeedImage.feedId i =? feedId)
              (new_images feedId next images)
       = new_images feedId next images.
Proof.
  induction images as [|i images IH]; intros next; [split; reflexivity|].
  destruct (IH (next + 1)) as [H1 H2]. cbn [new_images map filter].
  cbn [FeedImage.image FeedImage.sortOrder FeedImage.feedId].
  rewrite Z.eqb_refl, H1, H2. split; reflexivity.
Qed.

Lemma tagNames_of_Some (ts : list Tag.t) :
  tagNames_of (map Some ts) = Ok (map Tag.tagName ts).
Proof.
  induction ts as [|t ts IH]; [reflexivity|].
  cbn [map tagNames_of]. now rewrite IH.
Qed.

Lemma feed_ids_issued_spec db :
  feed_ids_issued db = true ->
  (forall m, In m (mapperFeedTags db) ->
             MapperFeedTag.feedId m < nextFeedId db)
  /\ (forall i, In i (feedImages db) -> FeedImage.feedId i < nextFeedId db).
Proof.
  unfold feed_ids_issued. intros H. apply andb_prop in H.
  destruct H as [H1 H2]. rewrite forallb_forall in H1, H2.
  split; intros x Hx; [specialize (H1 x Hx) | specialize (H2 x Hx)];
    now apply Z.ltb_lt.
Qed.

Lemma filter_none {A} (p : A -> bool) (l : list A) :
  (forall x, In x l -> p x = false) -> filter p l = [].
Proof.
  induction l as [|x l IH]; simpl; intros H; [reflexivity|].
  rewrite (H x (or_introl eq_refl)). apply IH. intros y Hy. apply H.
  now right.
Qed.

Lemma map_lookup_tags (tg ts : list Tag.t) :
  NoDup (map Tag.id tg) -> (forall t, In t ts -> In t tg) ->
  map (fun tagId => find (fun t => Tag.id t =? tagId) tg) (map Tag.id ts)
  = map Some ts.
Proof.
  intros Hnd. induction ts as [|t ts IH]; intros Hin; [reflexivity|].
  cbn [map]. rewrite (find_by_id_unique tg t Hnd (Hin t (or_introl eq_refl))).
  f_equal. apply IH. intros x Hx. apply Hin. now right.
Qed.

(** ** The store [createFeed] commits *)

Lemma new_mappers_spec feedId :
  forall tagIds next,
    map MapperFeedTag.tagId (new_mappers feedId next tagIds) = tagIds
    /\ (forall m, In m (new_mappers feedId next tagIds) ->
                  MapperFeedTag.feedId m = feedId).
Proof.
  induction tagIds as [|x l IH]; intros next; cbn [new_mappers map].
  - split; [reflexivity | intros m []].
  - destruct (IH (next + 1)) as [E H]. split; [now rewrite E|].
    intros m [<-|Hm]; [reflexivity | now apply H].
Qed.

Lemma new_tags_ids :
  forall names next,
    NoDup (map Tag.id (new_tags next names))
    /\ forall t, In t (new_tags next names) ->
                 next <= Tag.id t < next + Z.of_nat (List.length names).
Proof.
  induction names as [|n names IH]; intros next; cbn [new_tags map].
  - split; [constructor | intros t []].
  - destruct (IH (next + 1)) as [Hnd Hb]. split.
    + constructor; [|exact Hnd]. cbn [Tag.id]. intros Hin.
      apply in_map_iff in Hin. destruct Hin as [t [Hid Ht]].
      specialize (Hb t Ht). lia.
    + intros t [<-|Ht]; cbn [Tag.id List.length]; [lia|].
      specialize (Hb t Ht). lia.
Qed.

Lemma map_tagName_new_tags names :
  forall next, map Tag.tagName (new_tags next names) = names.
Proof.
  induction names as [|n names IH]; intros next; [reflexivity|].
  cbn [new_tags map Tag.tagName]. now rewrite IH.
Qed.

Lemma unknown_names_spec db names n :
  In n (unknown_names db names) ->
  In n names /\ forall t, In t (tags db) -> Tag.tagName t <> n.
Proof.
  unfold unknown_names. intros H. apply filter_In in H.
  destruct H as [Hin H]. split; [exact Hin|].
  destruct (tagRepository_findOne_tagName db n) eqn:E; [discriminate|].
  now apply find_by_name_None.
Qed.

Lemma known_tags_spec db names t :
  In t (known_tags db names) <->
  exists n, In n names /\ tagRepository_findOne_tagName db n = Some t.
Proof.
  unfold known_tags. rewrite in_flat_map. split.
  - intros [n [Hn Ht]]. exists n. split; [exact Hn|].
    destruct (tagRepository_findOne_tagName db n) as [t0|];
      [destruct Ht as [<-|[]]; reflexivity | destruct Ht].
  - intros [n [Hn Ht]]. exists n. split; [exact Hn|]. rewrite Ht. now left.
Qed.

(** The names of the known tags and the unknown names are the names of
    the request, in two parts. *)
Lemma known_tags_names db :
  forall names,
    map Tag.tagName (known_tags db names)
    = filter (fun n => match tagRepository_findOne_tagName db n with
                       | Some _ => true
                       | None => false
                       end) names.
Proof.
  induction names as [|n names IH]; [reflexivity|].
  cbn [known_tags flat_map filter]. fold (known_tags db names).
  destruct (tagRepository_findOne_tagName db n) as [t|] eqn:E.
  - cbn [app map]. apply find_by_name_Some in E. destruct E as [_ ->].
    now rewrite IH.
  - exact IH.
Qed.

Lemma mapped_names_length db names :
  List.length (mapped_tagIds db names) = List.length names.
Proof.
  unfold mapped_tagIds.
  rewrite length_app, !length_map, new_tags_length.
  rewrite <- (length_map Tag.tagName), known_tags_names.
  unfold unknown_names.
  induction names as [|n names IH]; [reflexivity|].
  cbn [filter]. destruct (tagRepository_findOne_tagName db n);
    cbn [List.length]; lia.
Qed.

Lemma created_store_tags dflt now userId dto u db :
  tags (created_store dflt now userId dto u db)
  = tags db
    ++ new_tags (nextTagId db)
                (unknown_names db (FeedCreateDto.tagNames dto)).
Proof. reflexivity. Qed.

Lemma created_store_mappers dflt now userId dto u db :
  mapperFeedTags (created_store dflt now userId dto u db)
  = mapperFeedTags db
    ++ new_mappers (nextFeedId db) (nextMapperFeedTagId db)
                   (mapped_tagIds db (FeedCreateDto.tagNames dto)).
Proof. reflexivity. Qed.

Lemma created_store_TagKeys dflt now userId dto u db :
  TagKeys db -> TagKeys (created_store dflt now userId dto u db).
Proof.
  intros [Hnd [Hpos Hb]]. unfold TagKeys. rewrite created_store_tags.
  set (news := new_tags (nextTagId db)
                        (unknown_names db (FeedCreateDto.tagNames dto))).
  destruct (new_tags_ids (unknown_names db (FeedCreateDto.tagNames dto))
                         (nextTagId db)) as [Hnd' Hb'].
  fold news in Hnd', Hb'.
  assert (nextTagId (created_store dflt now userId dto u db)
          = nextTagId db
            + Z.of_nat (List.length
                          (unknown_names db (FeedCreateDto.tagNames dto))))
    as -> by (cbn; now rewrite new_tags_length).
  split; [|split; [lia|]].
  - rewrite map_app. apply NoDup_app; [exact Hnd | exact Hnd' |].
    intros x Hx Hx'. apply in_map_iff in Hx. destruct Hx as [t [<- Ht]].
    apply in_map_iff in Hx'. destruct Hx' as [t' [E Ht']].
    specialize (Hb t Ht). specialize (Hb' t' Ht'). lia.
  - intros t Ht. apply in_app_or in Ht. destruct Ht as [Ht|Ht].
    + specialize (Hb t Ht). lia.
    + specialize (Hb' t Ht). lia.
Qed.

(** The tags that the new mapper rows reference, in the order of the
    rows. *)
Lemma mapped_tags_spec db names :
  mapped_tagIds db names
  = map Tag.id (known_tags db names
                ++ new_tags (nextTagId db) (unknown_names db names)).
Proof. unfold mapped_tagIds. now rewrite map_app. Qed.

Lemma created_store_mappers_of dflt now userId dto u db :
  feed_ids_issued db = true ->
  mappers_of (created_store dflt now userId dto u db) (nextFeedId db)
  = new_mappers (nextFeedId db) (nextMapperFeedTagId db)
                (mapped_tagIds db (FeedCreateDto.tagNames dto)).
Proof.
  intros Hissued. destruct (feed_ids_issued_spec db Hissued) as [Hold _].
  unfold mappers_of. rewrite created_store_mappers, filter_app.
  rewrite filter_none, filter_all; [reflexivity| |].
  - intros m Hm. apply Z.eqb_eq.
    exact (proj2 (new_mappers_spec _ _ _) m Hm).
  - intros m Hm. apply Z.eqb_neq. specialize (Hold m Hm). lia.
Qed.

(** The names read back through the mapper rows of the new feed: those
    of the known tags, then the new names. *)
Lemma created_store_tagNames dflt now userId dto u db :
  TagKeys db -> feed_ids_issued db = true ->
  tagNames_of (__get_feed_tags (created_store dflt now userId dto u db)
                               (nextFeedId db))
  = Ok (map Tag.tagName (known_tags db (FeedCreateDto.tagNames dto))
        ++ unknown_names db (FeedCreateDto.tagNames dto)).
Proof.
  intros Hk Hissued. unfold __get_feed_tags, tagRepository_findOne_id.
  fold (mappers_of (created_store dflt now userId dto u db) (nextFeedId db)).
  rewrite created_store_mappers_of by exact Hissued.
  rewrite (proj1 (new_mappers_spec _ _ _)), mapped_tags_spec.
  rewrite map_lookup_tags.
  - now rewrite tagNames_of_Some, map_app, map_tagName_new_tags.
  - apply (created_store_TagKeys dflt now userId dto u db Hk).
  - intros t Ht. rewrite created_store_tags. apply in_app_or in Ht.
    apply in_or_app. destruct Ht as [Ht|Ht]; [left|now right].
    apply known_tags_spec in Ht. destruct Ht as [n [_ Ht]].
    now apply find_by_name_Some in Ht.
Qed.

Lemma created_names_spec db names :
  let read := map Tag.tagName (known_tags db names)
              ++ unknown_names db names in
  (forall n, In n read <-> In n names)
  /\ List.length read = List.length names
  /\ (NoDup names -> NoDup read).
Proof.
  cbn zeta. rewrite known_tags_names. unfold unknown_names.
  set (p := fun n => match tagRepository_findOne_tagName db n with
                     | Some _ => true
                     | None => false
                     end).
  assert (forall l, filter (fun n => match tagRepository_findOne_tagName db n
                                     with Some _ => false | None => true end)
                           l = filter (fun n => negb (p n)) l) as E.
  { intros l. apply filter_ext. intros n. unfold p.
    now destruct (tagRepository_findOne_tagName db n). }
  rewrite E. split; [|split].
  - intros n. rewrite in_app_iff, !filter_In.
    destruct (p n); cbn [negb]; intuition discriminate.
  - rewrite length_app. clear E.
    induction names as [|n names IH]; [reflexivity|].
    cbn [filter]. destruct (p n); cbn [negb List.length]; lia.
  - intros Hnd. apply NoDup_app.
    + now apply NoDup_filter.
    + now apply NoDup_filter.
    + intros n H1 H2. apply filter_In in H1. apply filter_In in H2.
      destruct (p n); cbn [negb] in *; intuition discriminate.
Qed.

(** A new name that the request has once gets one Tag row. *)
Lemma new_tags_once n :
  forall names next,
    NoDup names -> In n names ->
    exists k,
      filter (fun t => String.eqb (Tag.tagName t) n) (new_tags next names)
      = [Tag.mk k n].
Proof.
  induction names as [|x names IH]; intros next Hnd Hin; [destruct Hin|].
  inversion Hnd as [|? ? Hnin Hnd']; subst. cbn [new_tags filter Tag.tagName].
  destruct Hin as [->|Hin].
  - rewrite String.eqb_refl. exists next. f_equal.
    apply filter_none. intros t Ht. apply String.eqb_neq. intros E.
    apply Hnin. rewrite <- E, <- (map_tagName_new_tags names (next + 1)).
    now apply in_map.
  - destruct (String.eqb x n) eqn:E.
    + apply String.eqb_eq in E. subst. contradiction.
    + now apply IH.
Qed.

(** C2, for a request that names no tag twice: [createFeed] for an
    existing user commits a feed row owned by the user, one FeedImage row
    per supplied image with the supplied image and [sortOrder], in the
    supplied order, and one mapper row per supplied name, so that no two
    mapper rows of the feed have tags of the same name and the names of
    their tags are the supplied ones; a name that already has a Tag row
    is mapped to that row and gets no further Tag row, a name that has
    none gets exactly one Tag row and is mapped to it; the user's
    [feedCount] goes up by one. *)
Theorem createFeed_postcondition :
  forall iso dflt now userId dto db u,
    tag_keys_ok db = true ->
    feed_ids_issued db = true ->
    userRepository_findOne db userId = Some u ->
    distinct String.eqb (FeedCreateDto.tagNames dto) = true ->
    exists newFeed db' names,
      createFeed iso dflt now userId dto db = (Ok newFeed, db')
      /\ In newFeed (feeds db')
      /\ Feed.userId newFeed = userId
      /\ Feed.id newFeed = nextFeedId db
      /\ map (fun i => (FeedImage.image i, FeedImage.sortOrder i))
             (__get_feed_images db' (Feed.id newFeed))
         = map (fun i => (FeedImageDto.image i, FeedImageDto.sortOrder i))
               (FeedCreateDto.feedImages dto)
      /\ List.length (__get_feed_images db' (Feed.id newFeed))
         = List.length (FeedCreateDto.feedImages dto)
      /\ List.length (mappers_of db' (Feed.id newFeed))
         = List.length (FeedCreateDto.tagNames dto)
      /\ tagNames_of (__get_feed_tags db' (Feed.id newFeed)) = Ok names
      /\ NoDup names
      /\ (forall n, In n names <-> In n (FeedCreateDto.tagNames dto))
      /\ (forall n, has_mapper db' (Feed.id newFeed) n
                    <-> In n (FeedCreateDto.tagNames dto))
      /\ (forall name t0,
             In name (FeedCreateDto.tagNames dto) ->
             tagRepository_findOne_tagName db name = Some t0 ->
             (exists m, In m (mapperFeedTags db')
                        /\ MapperFeedTag.feedId m = Feed.id newFeed
                        /\ MapperFeedTag.tagId m = Tag.id t0)
             /\ filter (fun t => String.eqb (Tag.tagName t) name) (tags db')
                = filter (fun t => String.eqb (Tag.tagName t) name) (tags db))
      /\ (forall name,
             In name (FeedCreateDto.tagNames dto) ->
             tagRepository_findOne_tagName db name = None ->
             exists t m,
               filter (fun t => String.eqb (Tag.tagName t) name) (tags db')
               = [t]
               /\ In m (mapperFeedTags db')
               /\ MapperFeedTag.feedId m = Feed.id newFeed
               /\ MapperFeedTag.tagId m = Tag.id t)
      /\ feedCount_of db userId = Some (User.feedCount u)
      /\ feedCount_of db' userId = Some (User.feedCount u + 1).
Proof.
  intros iso dflt now userId dto db u Hk Hissued Hu Hdistinct.
  apply tag_keys_ok_spec in Hk.
  apply (distinct_NoDup String.eqb _ String.eqb_eq) in Hdistinct.
  destruct (feed_ids_issued_spec db Hissued) as [Hmold Hiold].
  set (fid := nextFeedId db).
  set (db' := created_store dflt now userId dto u db).
  set (T := FeedCreateDto.tagNames dto) in *.
  pose proof (created_store_TagKeys dflt now userId dto u db Hk) as Hkeys'.
  pose proof (created_store_tagNames dflt now userId dto u db Hk Hissued)
    as Hread.
  pose proof (created_store_mappers_of dflt now userId dto u db Hissued)
    as Hmine.
  destruct (created_names_spec db T) as [Hnames [_ Hnodup]].
  fold db' fid T in Hkeys', Hread, Hmine.
  assert (forall x, In x (mapped_tagIds db T) ->
                    exists m, In m (mapperFeedTags db')
                              /\ MapperFeedTag.feedId m = fid
                              /\ MapperFeedTag.tagId m = x) as Hrow.
  { intros x Hx.
    rewrite <- (proj1 (new_mappers_spec fid (mapped_tagIds db T)
                                        (nextMapperFeedTagId db))) in Hx.
    apply in_map_iff in Hx. destruct Hx as [m [Hid Hm]].
    exists m. split; [|split; [|exact Hid]].
    - unfold db'. rewrite created_store_mappers. apply in_or_app. now right.
    - exact (proj2 (new_mappers_spec _ _ _) m Hm). }
  rewrite (createFeed_eval iso dflt now userId dto db u Hu).
  exists (new_Feed dflt now userId dto fid), db'.
  exists (map Tag.tagName (known_tags db T) ++ unknown_names db T).
  cbn [Feed.id Feed.userId new_Feed].
  split; [reflexivity|]. split.
  { cbn [db' created_store created_before_tags feeds with_tags
         with_mapperFeedTags].
    apply in_or_app. right. now left. }
  split; [reflexivity|]. split; [reflexivity|].
  assert (__get_feed_images db' fid
          = new_images fid (nextFeedImageId db) (FeedCreateDto.feedImages dto))
    as Himg.
  { unfold __get_feed_images.
    cbn [db' created_store created_before_tags feedImages with_tags
         with_mapperFeedTags].
    rewrite filter_app, filter_none.
    - cbn [app]. apply new_images_spec.
    - intros i Hin. apply Z.eqb_neq. specialize (Hiold i Hin). unfold fid.
      lia. }
  split; [rewrite Himg; apply new_images_spec|].
  split.
  { rewrite Himg.
    rewrite <- (length_map (fun i => (FeedImage.image i, FeedImage.sortOrder i))).
    rewrite (proj1 (new_images_spec fid _ _)). apply length_map. }
  split.
  { rewrite Hmine, new_mappers_length. apply mapped_names_length. }
  split; [exact Hread|]. split; [now apply Hnodup|].
  split; [exact Hnames|]. split.
  { intros n. rewrite <- Hnames.
    destruct (feed_tag_names db' fid Hkeys') as [names [Hrun Hiff]].
    - intros m Hin Hf.
      assert (In m (mappers_of db' fid)) as Hnew.
      { apply filter_In. split; [exact Hin | now apply Z.eqb_eq]. }
      rewrite Hmine in Hnew.
      assert (In (MapperFeedTag.tagId m) (mapped_tagIds db T)) as Hid.
      { rewrite <- (proj1 (new_mappers_spec fid (mapped_tagIds db T)
                                            (nextMapperFeedTagId db))).
        now apply in_map. }
      rewrite mapped_tags_spec in Hid.
      apply in_map_iff in Hid. destruct Hid as [t [Hid Ht]].
      exists t. split; [|exact Hid].
      unfold db'. rewrite created_store_tags. apply in_or_app.
      apply in_app_or in Ht. destruct Ht as [Ht|Ht]; [left|now right].
      apply known_tags_spec in Ht. destruct Ht as [n0 [_ Ht]].
      now apply find_by_name_Some in Ht.
    - rewrite Hread in Hrun. injection Hrun as <-. symmetry. apply Hiff. }
  split.
  { intros name t0 Hin H0. split.
    - apply Hrow. unfold mapped_tagIds. apply in_or_app. left.
      apply in_map. apply known_tags_spec. exists name. auto.
    - unfold db'. rewrite created_store_tags. fold T. rewrite filter_app.
      rewrite (filter_none _ (new_tags _ _)); [apply app_nil_r|].
      intros t Ht. apply find_by_name_Some in H0. destruct H0 as [H0 Hn0].
      apply String.eqb_neq. intros E.
      assert (In name (unknown_names db T)) as Hun.
      { rewrite <- E, <- (map_tagName_new_tags (unknown_names db T)
                                               (nextTagId db)).
        now apply in_map. }
      apply unknown_names_spec in Hun. now apply (proj2 Hun t0). }
  split.
  { intros name Hin H0.
    assert (In name (unknown_names db T)) as Hun.
    { unfold unknown_names. apply filter_In. now rewrite H0. }
    destruct (new_tags_once name (unknown_names db T) (nextTagId db))
      as [k Hk']; [now apply NoDup_filter | exact Hun |].
    assert (In (Tag.mk k name)
               (new_tags (nextTagId db) (unknown_names db T))) as Ht.
    { assert (In (Tag.mk k name) [Tag.mk k name]) as H by now left.
      rewrite <- Hk' in H. now apply filter_In in H. }
    destruct (Hrow k) as [m Hm].
    { unfold mapped_tagIds. apply in_or_app. right.
      change k with (Tag.id (Tag.mk k name)). now apply in_map. }
    exists (Tag.mk k name), m. split; [|exact Hm].
    unfold db'. rewrite created_store_tags. fold T.
    rewrite filter_app, Hk'.
    rewrite filter_none; [reflexivity|].
    intros t Ht0. apply String.eqb_neq.
    now apply (find_by_name_None (tags db) name H0). }
  split; [unfold feedCount_of; now rewrite Hu|].
  unfold feedCount_of.
  rewrite (userRepository_findOne_saved db db' userId u
             (User.set_feedCount u (User.feedCount u + 1)) Hu eq_refl).
  - reflexivity.
  - reflexivity.
Qed.

Lemma createFeed_postcondition_witness :
  exists newFeed db' names,
    createFeed ReadCommitted schema_defaults 300 2
               (FeedCreateDto.mk "second" [FeedImageDto.mk "c.png" 1]
                                 ["E"; "A"])
               store_one_feed = (Ok newFeed, db')
    /\ Feed.userId newFeed = 2
    /\ List.length (__get_feed_images db' (Feed.id newFeed)) = 1%nat
    /\ List.length (mappers_of db' (Feed.id newFeed)) = 2%nat
    /\ tagNames_of (__get_feed_tags db' (Feed.id newFeed)) = Ok names
    /\ (forall n, In n names <-> In n ["E"; "A"])
    /\ feedCount_of db' 2 = Some 1.
Proof.
  assert (tag_keys_ok store_one_feed = true) as Hk
      by (vm_compute; reflexivity).
  assert (feed_ids_issued store_one_feed = true) as Hi
      by (vm_compute; reflexivity).
  assert (userRepository_findOne store_one_feed 2 = Some (User.mk 2 0 N []))
    as Hu by (vm_compute; reflexivity).
  assert (distinct String.eqb ["E"; "A"] = true) as Hd
      by (vm_compute; reflexivity).
  destruct (createFeed_postcondition ReadCommitted schema_defaults 300 2
              (FeedCreateDto.mk "second" [FeedImageDto.mk "c.png" 1]
                                ["E"; "A"])
              store_one_feed (User.mk 2 0 N []) Hk Hi Hu Hd)
    as [newFeed [db' [names [H1 [_ [H3 [_ [_ [H6 [H7 [H8 [_ [H10 [_ [_ [_
         [_ H15]]]]]]]]]]]]]]]]].
  exists newFeed, db', names. auto 10.
Defined.

(** C2, as stated: a request that names a tag twice gets a mapper row
    for each occurrence, and two Tag rows when the name is new.  User 2
    posts a feed tagged E, E in the store reached by one [createFeed]:
    the store has had no tag E and has two afterwards, and the feed has
    two mapper rows for the one name. *)
Lemma createFeed_repeated_name_repeats_rows :
  tagRepository_findOne_tagName store_one_feed "E" = None
  /\ fst (createFeed ReadCommitted schema_defaults 300 2
            (FeedCreateDto.mk "second" [] ["E"; "E"]) store_one_feed)
     = Ok (new_Feed schema_defaults 300 2
             (FeedCreateDto.mk "second" [] ["E"; "E"]) 2)
  /\ map Tag.tagName
         (tags (snd (createFeed ReadCommitted schema_defaults 300 2
                       (FeedCreateDto.mk "second" [] ["E"; "E"])
                       store_one_feed)))
     = ["A"; "B"; "C"; "E"; "E"]
  /\ map MapperFeedTag.tagId
         (mappers_of (snd (createFeed ReadCommitted schema_defaults 300 2
                             (FeedCreateDto.mk "second" [] ["E"; "E"])
                             store_one_feed)) 2)
     = [4; 5]
  /\ js_Set ["E"; "E"] = ["E"]
  /\ map Tag.tagName
         (tags (snd (createFeed ReadUncommitted schema_defaults 300 2
                       (FeedCreateDto.mk "second" [] ["E"; "E"])
                       store_one_feed)))
     = ["A"; "B"; "C"; "E"; "E"].
Proof. repeat split; vm_compute; reflexivity. Qed.

(** * Properties of the other operations *)

(** ** Soft delete *)

Lemma find_replace_by_other {A} (key : A -> Z) (x : A) (l : list A) k :
  k <> key x ->
  find (fun r => key r =? k) (replace_by key x l)
  = find (fun r => key r =? k) l.
Proof.
  intros Hk. unfold replace_by.
  induction l as [|a l IH]; simpl; [reflexivity|].
  destruct (key a =? key x) eqn:E.
  - apply Z.eqb_eq in E.
    destruct (key x =? k) eqn:E1; [apply Z.eqb_eq in E1; congruence|].
    destruct (key a =? k) eqn:E2; [apply Z.eqb_eq in E2; congruence|].
    exact IH.
  - destruct (key a =? k); [reflexivity | exact IH].
Qed.

Lemma find_key_Some {A} (key : A -> Z) (l : list A) k x :
  find (fun r => key r =? k) l = Some x ->
  In x l /\ key x = k /\ existsb (fun r => key r =? key x) l = true.
Proof.
  intros H. apply find_some in H. destruct H as [Hin Hk].
  apply Z.eqb_eq in Hk. repeat split; try assumption.
  apply existsb_exists. exists x. split; [exact Hin | apply Z.eqb_refl].
Qed.

Lemma find_key_None {A} (key : A -> Z) (l : list A) k :
  find (fun r => key r =? k) l = None ->
  filter (fun r => key r =? k) l = [].
Proof.
  intros H. apply filter_none. intros x Hx.
  exact (find_none _ _ H x Hx).
Qed.

Lemma feed_by_id_no_row db feedId :
  feedRepository_findOne db feedId = None -> feed_by_id db feedId = None.
Proof.
  intros H. unfold feed_by_id.
  unfold feedRepository_findOne in H.
  rewrite (find_key_None Feed.id _ _ H). reflexivity.
Qed.

Lemma deleteFeed_eval iso userId feedId db f u :
  feedRepository_findOne db feedId = Some f ->
  userRepository_findOne db userId = Some u ->
  deleteFeed iso userId feedId db
  = (Ok (Feed.set_status f DELETED), status_updated db f u DELETED).
Proof.
  intros Hf Hu.
  destruct (find_key_Some Feed.id _ _ _ Hf) as [_ [_ Ef]].
  destruct (find_key_Some User.id _ _ _ Hu) as [_ [_ Eu]].
  unfold deleteFeed, dataSource_transaction, deleteFeed_body.
  unfold bind at 1. unfold outside at 1. rewrite view_same.
  unfold bind at 1. rewrite Hf. unfold nonNull at 1. unfold ret at 1.
  unfold bind at 1. unfold save_Feed.
  cbn [Feed.id Feed.set_status]. rewrite Ef.
  unfold bind at 1. unfold outside.
  match goal with
  | |- context [userRepository_findOne ?v ?k] =>
      replace (userRepository_findOne v k) with (Some u)
        by (destruct iso; symmetry; exact Hu)
  end.
  unfold bind, nonNull, ret, save_User.
  cbn [users with_feeds User.id User.set_feedCount]. rewrite Eu.
  reflexivity.
Qed.

Lemma deleteFeed_no_feed iso userId feedId db :
  feedRepository_findOne db feedId = None ->
  deleteFeed iso userId feedId db = (Err TypeError, db).
Proof.
  intros Hf.
  unfold deleteFeed, dataSource_transaction, deleteFeed_body.
  unfold bind at 1. unfold outside at 1. rewrite view_same.
  unfold bind at 1. rewrite Hf. reflexivity.
Qed.

Lemma deleteFeed_no_user iso userId feedId db :
  userRepository_findOne db userId = None ->
  deleteFeed iso userId feedId db = (Err TypeError, db).
Proof.
  intros Hu.
  destruct (feedRepository_findOne db feedId) as [f|] eqn:Hf;
    [|now apply deleteFeed_no_feed].
  unfold deleteFeed, dataSource_transaction, deleteFeed_body.
  unfold bind at 1. unfold outside at 1. rewrite view_same.
  unfold bind at 1. rewrite Hf. unfold nonNull at 1. unfold ret at 1.
  unfold bind at 1. unfold save_Feed.
  destruct (existsb _ _);
    unfold bind at 1; unfold outside;
    match goal with
    | |- context [userRepository_findOne ?v ?k] =>
        replace (userRepository_findOne v k) with (@None User.t)
          by (destruct iso; symmetry; exact Hu)
    end; reflexivity.
Qed.

(** What a list operation returns comes from its query. *)
Lemma hydrated_feed db userId item :
  FeedFindOneVo.feed (hydrated db userId item) = FeedFindOneVo.feed item.
Proof. reflexivity. Qed.

Lemma tag_filtered_incl dto fetched x :
  In x (tag_filtered dto fetched) -> In x fetched.
Proof.
  unfold tag_filtered.
  destruct (FeedListDto.tagName dto) as [t|]; [|tauto].
  destruct (negb (String.eqb t "")); [|tauto].
  intros H. apply filter_In in H. tauto.
Qed.

Lemma findAll_items db user dto excludeUserIds r item :
  findAll db user (Some dto) (Some excludeUserIds) = Ok r ->
  In item (PaginateResponseVo.items r) ->
  exists q,
    In q (tag_filtered dto (findAll_query db excludeUserIds))
    /\ item = hydrated db (Some (User.id user)) q.
Proof.
  rewrite findAll_eval. cbv zeta. intros H. injection H as <-.
  unfold generatePaginatedResponse. cbn [PaginateResponseVo.items].
  intros Hin. apply in_map_iff in Hin. destruct Hin as [q [<- Hq]].
  exists q. split; [|reflexivity]. eapply js_slice_incl; exact Hq.
Qed.

Lemma status_updated_feed db f u status feedId :
  feedRepository_findOne db feedId = Some f ->
  feedRepository_findOne (status_updated db f u status) feedId
  = Some (Feed.set_status f status).
Proof.
  intros Hf. destruct (find_key_Some Feed.id _ _ _ Hf) as [_ [Hid Ef]].
  unfold feedRepository_findOne, status_updated. cbn [feeds].
  rewrite <- Hid.
  exact (find_replace_by Feed.id (Feed.set_status f status) (feeds db) Ef).
Qed.

Lemma status_updated_feedCount db f u status userId :
  userRepository_findOne db userId = Some u ->
  feedCount_of (status_updated db f u status) userId
  = Some (if FEED_STATUS_eqb status ACTIVE
          then User.feedCount u + 1 else User.feedCount u - 1).
Proof.
  intros Hu. destruct (find_key_Some User.id _ _ _ Hu) as [_ [Hid Eu]].
  unfold feedCount_of, userRepository_findOne, status_updated. cbn [users].
  rewrite <- Hid.
  destruct (FEED_STATUS_eqb status ACTIVE).
  - replace (find _ _)
      with (Some (User.set_feedCount u (User.feedCount u + 1)))
      by (symmetry;
          exact (find_replace_by User.id
                   (User.set_feedCount u (User.feedCount u + 1))
                   (users db) Eu)).
    reflexivity.
  - replace (find _ _)
      with (Some (User.set_feedCount u (User.feedCount u - 1)))
      by (symmetry;
          exact (find_replace_by User.id
                   (User.set_feedCount u (User.feedCount u - 1))
                   (users db) Eu)).
    reflexivity.
Qed.

(** X1.  The soft delete [deleteFeed]: when the feed row and the user row
    exist, the call returns the feed with status DELETED and stores it
    under the same id; the images, likes, bookmarks, tags and tag
    mappings of the store are untouched; the feed counter of the user
    named by [userId] goes down by one, whatever the feed's status was,
    and no other user's counter moves; afterwards no page of [findAll]
    lists a feed of that id, and the other feed rows read as before. *)
Theorem deleteFeed_marks_deleted_and_keeps_rows :
  forall iso userId feedId db f u,
    feedRepository_findOne db feedId = Some f ->
    userRepository_findOne db userId = Some u ->
    exists db',
      deleteFeed iso userId feedId db = (Ok (Feed.set_status f DELETED), db')
      /\ feedRepository_findOne db' feedId = Some (Feed.set_status f DELETED)
      /\ same_dependents db db'
      /\ feedCount_of db' userId = Some (User.feedCount u - 1)
      /\ (forall k, k <> userId -> feedCount_of db' k = feedCount_of db k)
      /\ (forall k, k <> feedId ->
                    feedRepository_findOne db' k = feedRepository_findOne db k)
      /\ (forall user dto excludeUserIds r item,
             findAll db' user (Some dto) (Some excludeUserIds) = Ok r ->
             In item (PaginateResponseVo.items r) ->
             Feed.id (FeedFindOneVo.feed item) <> feedId).
Proof.
  intros iso userId feedId db f u Hf Hu.
  exists (status_updated db f u DELETED).
  destruct (find_key_Some Feed.id _ _ _ Hf) as [_ [Hid _]].
  destruct (find_key_Some User.id _ _ _ Hu) as [_ [Huid _]].
  split; [now apply deleteFeed_eval|].
  split; [now apply status_updated_feed|].
  split; [unfold same_dependents, status_updated; cbn; tauto|].
  split; [now rewrite (status_updated_feedCount _ _ _ _ _ Hu)|].
  split.
  { intros k Hk. unfold feedCount_of, userRepository_findOne, status_updated.
    cbn [users FEED_STATUS_eqb].
    rewrite find_replace_by_other; [reflexivity|].
    cbn [User.id User.set_feedCount]. congruence. }
  split.
  { intros k Hk. unfold feedRepository_findOne, status_updated. cbn [feeds].
    rewrite find_replace_by_other; [reflexivity|].
    cbn [Feed.id Feed.set_status]. congruence. }
  intros user dto ex r item Hr Hin.
  destruct (findAll_items _ _ _ _ _ _ Hr Hin) as [q [Hq ->]].
  rewrite hydrated_feed.
  apply tag_filtered_incl in Hq. apply findAll_query_spec in Hq.
  destruct Hq as [Hrow [_ [Hst _]]].
  unfold status_updated in Hrow. cbn [feeds] in Hrow.
  apply In_replace_by in Hrow. destruct Hrow as [E|[_ Hne]].
  - rewrite E in Hst. cbn in Hst. discriminate.
  - cbn [Feed.id Feed.set_status] in Hne. congruence.
Qed.

Lemma deleteFeed_marks_deleted_and_keeps_rows_witness :
  exists db',
    deleteFeed ReadCommitted 1 1 store_one_like
    = (Ok (Feed.mk 1 1 "first" 1 Y 0 Y DELETED 100 100), db')
    /\ same_dependents store_one_like db'
    /\ feedCount_of db' 1 = Some 0.
Proof.
  destruct (deleteFeed_marks_deleted_and_keeps_rows ReadCommitted 1 1
              store_one_like (Feed.mk 1 1 "first" 1 Y 0 Y ACTIVE 100 100)
              (User.mk 1 1 N []))
    as [db' [H1 [_ [H3 [H4 _]]]]];
    [vm_compute; reflexivity | vm_compute; reflexivity |].
  exists db'. split; [exact H1|]. split; [exact H3 | exact H4].
Defined.

(** X2.  A soft delete charged to the feed's own author commits the
    store that the status update to DELETED commits, and both calls
    return. *)
Theorem deleteFeed_by_author_is_status_update :
  forall iso feedId db f u,
    feedRepository_findOne db feedId = Some f ->
    userRepository_findOne db (Feed.userId f) = Some u ->
    snd (deleteFeed iso (Feed.userId f) feedId db)
    = snd (updateFeedStatus iso feedId DELETED db)
    /\ (exists row, fst (deleteFeed iso (Feed.userId f) feedId db) = Ok row)
    /\ (exists feed,
           fst (updateFeedStatus iso feedId DELETED db) = Ok feed).
Proof.
  intros iso feedId db f u Hf Hu.
  rewrite (deleteFeed_eval iso _ _ _ _ _ Hf Hu).
  rewrite (updateFeedStatus_eval iso feedId DELETED db _ u
             (feed_by_id_first _ _ _ _ Hf Hu) eq_refl).
  cbn [fst snd]. split; [reflexivity|]. split; eexists; reflexivity.
Qed.

Lemma deleteFeed_by_author_is_status_update_witness :
  snd (deleteFeed ReadUncommitted 1 1 store_one_like)
  = snd (updateFeedStatus ReadUncommitted 1 DELETED store_one_like).
Proof.
  refine (proj1 (deleteFeed_by_author_is_status_update ReadUncommitted 1
                   store_one_like
                   (Feed.mk 1 1 "first" 1 Y 0 Y ACTIVE 100 100)
                   (User.mk 1 1 N []) _ _));
    vm_compute; reflexivity.
Defined.

(** ** Missing rows *)

Lemma updateFeedStatus_no_feed iso feedId status db :
  feed_by_id db feedId = None ->
  updateFeedStatus iso feedId status db = (Err TypeError, db).
Proof.
  intros E.
  unfold updateFeedStatus, dataSource_transaction, updateFeedStatus_body.
  unfold bind at 1. unfold outside at 1. unfold bind at 1. unfold liftR.
  rewrite findOneFeed_unfold, view_same, E. reflexivity.
Qed.

Lemma updateShowLikeCount_eval iso feedId y db :
  updateShowLikeCount iso feedId y db
  = match feed_by_id db feedId with
    | Some item =>
        (Ok (set_showLikeCountYn (FeedFindOneVo.feed item) y),
         with_feeds db
           (replace_by Feed.id
              (set_showLikeCountYn (FeedFindOneVo.feed item) y) (feeds db))
           (nextFeedId db))
    | None => (Err TypeError, db)
    end.
Proof.
  unfold updateShowLikeCount, dataSource_transaction,
    updateShowLikeCount_body.
  unfold bind at 1. unfold outside at 1. unfold bind at 1. unfold liftR.
  rewrite findOneFeed_unfold, view_same.
  destruct (feed_by_id db feedId) as [item|] eqn:E; [|reflexivity].
  unfold bind, save_Feed, ret.
  cbn [FeedFindOneVo.feed hydrated Feed.id set_showLikeCountYn].
  assert (Feed.id (FeedFindOneVo.feed item) = feedId) as Hid
      by (now apply feed_by_id_Some in E).
  rewrite Hid, (feed_row_exists _ _ _ E). reflexivity.
Qed.

Lemma findOneFeed_Err db feedId e :
  findOneFeed db feedId = Err e -> feed_by_id db feedId = None.
Proof.
  rewrite findOneFeed_unfold.
  destruct (feed_by_id db feedId); [discriminate | reflexivity].
Qed.

(** X3.  A feed that [findOneFeed] does not find (no row of that id, or
    none whose author row exists) cannot be liked, unliked, given a
    status or a like-count flag: each call throws the TypeError of the
    null dereference and the store is left as it was; in particular the
    FeedLike row that [likeFeed] had already saved is rolled back. *)
Theorem writes_on_unfound_feed_throw_and_roll_back :
  forall iso feedId db,
    findOneFeed db feedId = Err TypeError ->
    (forall userId, likeFeed iso userId feedId db = (Err TypeError, db))
    /\ (forall userId,
           deleteLikeFeed iso userId feedId db = (Err TypeError, db))
    /\ (forall status,
           updateFeedStatus iso feedId status db = (Err TypeError, db))
    /\ (forall showLikeCountYn,
           updateShowLikeCount iso feedId showLikeCountYn db
           = (Err TypeError, db)).
Proof.
  intros iso feedId db H. apply findOneFeed_Err in H.
  split; [intros userId; now rewrite likeFeed_eval, H|].
  split; [intros userId; now rewrite deleteLikeFeed_eval, H|].
  split; [intros status; now apply updateFeedStatus_no_feed|].
  intros y. now rewrite updateShowLikeCount_eval, H.
Qed.

Lemma writes_on_unfound_feed_throw_and_roll_back_witness :
  likeFeed ReadUncommitted 2 7 store_one_like
  = (Err TypeError, store_one_like)
  /\ updateShowLikeCount ReadCommitted 7 N store_one_like
     = (Err TypeError, store_one_like).
Proof.
  destruct (writes_on_unfound_feed_throw_and_roll_back ReadUncommitted 7
              store_one_like) as [H1 _]; [vm_compute; reflexivity|].
  destruct (writes_on_unfound_feed_throw_and_roll_back ReadCommitted 7
              store_one_like) as [_ [_ [_ H4]]]; [vm_compute; reflexivity|].
  split; [apply H1 | apply H4].
Defined.

Lemma updateFeed_no_feed iso now feedId dto db :
  feedRepository_findOne db feedId = None ->
  exists e, updateFeed iso now feedId dto db = (Err e, db).
Proof.
  intros Hf.
  unfold updateFeed, dataSource_transaction, updateFeed_body.
  unfold bind at 1. unfold outside at 1. rewrite view_same, Hf.
  destruct (FeedUpdateDto.tagNames dto) as [|name rest] eqn:Et.
  - exists TypeError. reflexivity.
  - cbn [nonempty negb]. unfold bind at 1. unfold ret at 1.
    unfold bind at 1. unfold bind at 1.
    destruct (run _ db) as [[l w]|e]; [|now exists e].
    exists TypeError. reflexivity.
Qed.

(** X4.  When no feed row has the id, [findOneFeed] throws, and so do
    [updateFeed], for every request, and the soft delete [deleteFeed];
    the store is left as it was, also where the tag loop or the deletion
    of all mapper rows had already run. *)
Theorem update_and_delete_of_missing_feed_throw :
  forall iso feedId db,
    feedRepository_findOne db feedId = None ->
    findOneFeed db feedId = Err TypeError
    /\ (forall now dto,
           updateFeed iso now feedId dto db = (Err TypeError, db))
    /\ (forall userId, deleteFeed iso userId feedId db = (Err TypeError, db)).
Proof.
  intros iso feedId db Hf.
  split; [now rewrite findOneFeed_unfold, (feed_by_id_no_row _ _ Hf)|].
  split.
  { intros now dto.
    destruct (updateFeed_no_feed iso now feedId dto db Hf) as [[] H].
    exact H. }
  intros userId. now apply deleteFeed_no_feed.
Qed.

Lemma update_and_delete_of_missing_feed_throw_witness :
  updateFeed ReadUncommitted 200 7 update_B_C_D store_one_like
  = (Err TypeError, store_one_like)
  /\ deleteFeed ReadCommitted 1 7 store_one_like
     = (Err TypeError, store_one_like).
Proof.
  destruct (update_and_delete_of_missing_feed_throw ReadUncommitted 7
              store_one_like) as [_ [H2 _]]; [vm_compute; reflexivity|].
  destruct (update_and_delete_of_missing_feed_throw ReadCommitted 7
              store_one_like) as [_ [_ H3]]; [vm_compute; reflexivity|].
  split; [apply H2 | apply H3].
Defined.

Lemma hardDeleteFeed_no_user iso userId feedId db :
  userRepository_findOne db userId = None ->
  hardDeleteFeed iso userId feedId db = (Err TypeError, db).
Proof.
  intros Hu.
  assert (hardDeleteFeed_feedCount iso db userId (hd_feed_gone db feedId)
          = Err TypeError) as H5.
  { unfold hardDeleteFeed_feedCount, bind, outside.
    replace (userRepository_findOne (view iso db (hd_feed_gone db feedId))
                                    userId)
      with (@None User.t) by (destruct iso; symmetry; exact Hu).
    reflexivity. }
  assert (delete_FeedImage (fun i => FeedImage.feedId i =? feedId) db
          = Ok (tt, hd_images_gone db feedId)) as H1 by reflexivity.
  assert (delete_FeedLike (fun l => FeedLike.feedId l =? feedId)
                          (hd_images_gone db feedId)
          = Ok (tt, hd_likes_gone db feedId)) as H2 by reflexivity.
  assert (delete_FeedBookmark (fun b => FeedBookmark.feedId b =? feedId)
                              (hd_likes_gone db feedId)
          = Ok (tt, hd_bookmarks_gone db feedId)) as H3 by reflexivity.
  assert (delete_Feed (fun f => Feed.id f =? feedId)
                      (hd_bookmarks_gone db feedId)
          = Ok (tt, hd_feed_gone db feedId)) as H4 by reflexivity.
  unfold hardDeleteFeed, dataSource_transaction, hardDeleteFeed_body,
    hardDeleteFeed_statements.
  cbn [in_sequence]. unfold bind.
  rewrite H1, H2, H3, H4, H5. reflexivity.
Qed.

(** X5.  When no user row has the id, [createFeed], [hardDeleteFeed] and
    the soft delete [deleteFeed] throw the TypeError of the null
    dereference, and nothing of what they had written stays: no feed or
    image row is created, no image, like, bookmark or feed row is
    deleted, no status is changed. *)
Theorem writes_for_missing_user_throw_and_roll_back :
  forall iso userId db,
    userRepository_findOne db userId = None ->
    (forall dflt now dto,
        createFeed iso dflt now userId dto db = (Err TypeError, db))
    /\ (forall feedId,
           hardDeleteFeed iso userId feedId db = (Err TypeError, db))
    /\ (forall feedId, deleteFeed iso userId feedId db = (Err TypeError, db)).
Proof.
  intros iso userId db Hu.
  split; [intros; now apply createFeed_no_user|].
  split; [intros; now apply hardDeleteFeed_no_user|].
  intros; now apply deleteFeed_no_user.
Qed.

Lemma writes_for_missing_user_throw_and_roll_back_witness :
  hardDeleteFeed ReadUncommitted 9 1 store_one_like
  = (Err TypeError, store_one_like)
  /\ deleteFeed ReadUncommitted 9 1 store_one_like
     = (Err TypeError, store_one_like).
Proof.
  destruct (writes_for_missing_user_throw_and_roll_back ReadUncommitted 9
              store_one_like) as [_ [H2 H3]]; [vm_compute; reflexivity|].
  split; [apply H2 | apply H3].
Defined.

(** ** Hard delete: what it leaves behind *)

Lemma find_filter_other {A} (key : A -> Z) (l : list A) k k' :
  k <> k' ->
  find (fun r => key r =? k) (filter (fun r => negb (key r =? k')) l)
  = find (fun r => key r =? k) l.
Proof.
  intros Hk. induction l as [|a l IH]; simpl; [reflexivity|].
  destruct (key a =? k') eqn:E; simpl.
  - apply Z.eqb_eq in E.
    destruct (key a =? k) eqn:E2; [apply Z.eqb_eq in E2; congruence|].
    exact IH.
  - destruct (key a =? k); [reflexivity | exact IH].
Qed.

Lemma filter_key_other {A} (key : A -> Z) (l : list A) k k' :
  k <> k' ->
  filter (fun r => key r =? k) (filter (fun r => negb (key r =? k')) l)
  = filter (fun r => key r =? k) l.
Proof.
  intros Hk. apply filter_filter_other. intros x Hx.
  apply Z.eqb_eq in Hx. apply Z.eqb_neq. congruence.
Qed.

Lemma hd_user_saved_feedCount db feedId u userId :
  userRepository_findOne db userId = Some u ->
  feedCount_of (hd_user_saved db feedId u) userId
  = Some (User.feedCount u - 1).
Proof.
  intros Hu. destruct (find_key_Some User.id _ _ _ Hu) as [_ [Hid Eu]].
  unfold feedCount_of, userRepository_findOne, hd_user_saved. cbn [users].
  rewrite <- Hid.
  replace (find _ _)
    with (Some (User.set_feedCount u (User.feedCount u - 1)))
    by (symmetry;
        exact (find_replace_by User.id
                 (User.set_feedCount u (User.feedCount u - 1))
                 (users db) Eu)).
  reflexivity.
Qed.

(** X6.  [hardDeleteFeed] for an existing user returns, whatever the feed
    id is.  It deletes no MapperFeedTag row and no Tag row: the tag
    mappings of the deleted feed stay in the store.  Rows of other feeds
    (the feed row, its images, likes and bookmarks) are left as they
    were.  The counter of the user named by [userId] goes down by one
    even when no feed row has the id, in which case the feed table is
    unchanged. *)
Theorem hardDeleteFeed_keeps_tag_mappings_and_other_feeds :
  forall iso userId feedId db u,
    userRepository_findOne db userId = Some u ->
    exists db',
      hardDeleteFeed iso userId feedId db = (Ok tt, db')
      /\ mapperFeedTags db' = mapperFeedTags db
      /\ tags db' = tags db
      /\ mappers_of db' feedId = mappers_of db feedId
      /\ (forall k, k <> feedId ->
            feedRepository_findOne db' k = feedRepository_findOne db k
            /\ __get_feed_images db' k = __get_feed_images db k
            /\ likes_of db' k = likes_of db k
            /\ bookmarks_of db' k = bookmarks_of db k)
      /\ feedCount_of db' userId = Some (User.feedCount u - 1)
      /\ (feedRepository_findOne db feedId = None -> feeds db' = feeds db).
Proof.
  intros iso userId feedId db u Hu.
  exists (hd_user_saved db feedId u).
  split; [apply (hardDeleteFeed_states iso userId feedId db u Hu)|].
  split; [reflexivity|]. split; [reflexivity|]. split; [reflexivity|].
  split.
  { intros k Hk. split; [|split; [|split]].
    - apply (find_filter_other Feed.id (feeds db) k feedId Hk).
    - apply (filter_key_other FeedImage.feedId (feedImages db) k feedId Hk).
    - apply (filter_key_other FeedLike.feedId (feedLikes db) k feedId Hk).
    - apply (filter_key_other FeedBookmark.feedId (feedBookmarks db)
                              k feedId Hk). }
  split; [now apply hd_user_saved_feedCount|].
  intros Hnone. unfold hd_user_saved, hd_feed_gone. cbn [feeds with_users
    with_feeds hd_bookmarks_gone hd_likes_gone hd_images_gone
    with_feedBookmarks with_feedLikes with_feedImages].
  apply filter_all. intros x Hx.
  unfold feedRepository_findOne in Hnone.
  now rewrite (find_none _ _ Hnone x Hx).
Qed.

Lemma hardDeleteFeed_keeps_tag_mappings_and_other_feeds_witness :
  exists db',
    hardDeleteFeed ReadCommitted 1 1 store_one_like = (Ok tt, db')
    /\ List.length (mappers_of db' 1) = 3%nat
    /\ feedRepository_findOne db' 1 = None.
Proof.
  destruct (hardDeleteFeed_keeps_tag_mappings_and_other_feeds ReadCommitted
              1 1 store_one_like (User.mk 1 1 N []))
    as [db' [H1 [_ [_ [H4 _]]]]]; [vm_compute; reflexivity|].
  exists db'. split; [exact H1|]. split.
  - rewrite H4. vm_compute. reflexivity.
  - apply (f_equal snd) in H1. cbn [snd] in H1. rewrite <- H1.
    vm_compute. reflexivity.
Defined.

(** X7.  A soft delete followed by a hard delete of the same feed for the
    same user: both calls return, the feed row is gone, and the user's
    feed counter has gone down twice for the one feed.  So has it after a
    second soft delete of the already deleted feed. *)
Theorem deleteFeed_then_hardDeleteFeed_counts_twice :
  forall iso userId feedId db f u,
    feedRepository_findOne db feedId = Some f ->
    userRepository_findOne db userId = Some u ->
    let db1 := snd (deleteFeed iso userId feedId db) in
    let db2 := snd (hardDeleteFeed iso userId feedId db1) in
    fst (deleteFeed iso userId feedId db) = Ok (Feed.set_status f DELETED)
    /\ fst (hardDeleteFeed iso userId feedId db1) = Ok tt
    /\ feedRepository_findOne db2 feedId = None
    /\ feedCount_of db2 userId = Some (User.feedCount u - 2)
    /\ feedCount_of (snd (deleteFeed iso userId feedId db1)) userId
       = Some (User.feedCount u - 2).
Proof.
  intros iso userId feedId db f u Hf Hu db1 db2. subst db2 db1.
  rewrite (deleteFeed_eval iso _ _ _ _ _ Hf Hu). cbn [fst snd].
  set (db1 := status_updated db f u DELETED).
  set (u1 := User.set_feedCount u (User.feedCount u - 1)).
  assert (userRepository_findOne db1 userId = Some u1) as Hu1.
  { apply (userRepository_findOne_saved db db1 userId u u1 Hu);
      reflexivity. }
  assert (feedRepository_findOne db1 feedId = Some (Feed.set_status f DELETED))
    as Hf1 by (now apply status_updated_feed).
  destruct (hardDeleteFeed_states iso userId feedId db1 u1 Hu1) as [_ ->].
  cbn [fst snd].
  split; [reflexivity|]. split; [reflexivity|].
  split; [apply (find_filter_negb_same (fun r => Feed.id r =? feedId))|].
  split.
  { rewrite (hd_user_saved_feedCount _ _ _ _ Hu1). subst u1.
    cbn [User.feedCount User.set_feedCount]. f_equal. lia. }
  rewrite (deleteFeed_eval iso _ _ _ _ _ Hf1 Hu1). cbn [snd].
  rewrite (status_updated_feedCount _ _ _ DELETED _ Hu1). subst u1.
  cbn [FEED_STATUS_eqb User.feedCount User.set_feedCount]. f_equal. lia.
Qed.

Lemma deleteFeed_then_hardDeleteFeed_counts_twice_witness :
  feedCount_of store_one_like 1 = Some 1
  /\ feedCount_of
       (snd (hardDeleteFeed ReadCommitted 1 1
               (snd (deleteFeed ReadCommitted 1 1 store_one_like)))) 1
     = Some (-1).
Proof.
  split; [vm_compute; reflexivity|].
  destruct (deleteFeed_then_hardDeleteFeed_counts_twice ReadCommitted 1 1
              store_one_like (Feed.mk 1 1 "first" 1 Y 0 Y ACTIVE 100 100)
              (User.mk 1 1 N []))
    as [_ [_ [_ [H4 _]]]];
    [vm_compute; reflexivity | vm_compute; reflexivity |].
  exact H4.
Defined.

(** ** Bookmarks *)

Lemma filter_negb_of_none {A} (p : A -> bool) (l : list A) :
  filter p l = [] -> filter (fun x => negb (p x)) l = l.
Proof.
  intros H. apply filter_all. intros x Hx.
  destruct (p x) eqn:E; [|reflexivity].
  assert (In x (filter p l)) as Hin by (apply filter_In; auto).
  rewrite H in Hin. destruct Hin.
Qed.

Lemma existsb_filter_nil {A} (p : A -> bool) (l : list A) :
  existsb p l = false <-> filter p l = [].
Proof.
  induction l as [|a l IH]; simpl; [tauto|].
  destruct (p a); simpl; [split; discriminate | exact IH].
Qed.

Lemma filter_length_negb {A} (p : A -> bool) (l : list A) :
  List.length l
  = (List.length (filter (fun x => negb (p x)) l)
     + List.length (filter p l))%nat.
Proof.
  induction l as [|a l IH]; [reflexivity|].
  cbn [filter List.length]. destruct (p a); cbn [negb List.length]; lia.
Qed.

(** X8.  Bookmark, then unbookmark.  [bookmarkFeed] returns for any pair
    of ids (it looks up neither the feed nor the user) and afterwards the
    bookmark lookup of the pair answers true; [deleteBookmarkFeed] then
    makes it answer false.  When the pair had no bookmark before, the
    bookmark table is back to what it was.  The rows of every other
    (user, feed) pair are the same throughout, and neither call touches
    a user row, a feed row or any counter column. *)
Theorem bookmark_then_unbookmark_roundtrip :
  forall userId feedId db,
    let db1 := snd (bookmarkFeed userId feedId db) in
    let db2 := snd (deleteBookmarkFeed userId feedId db1) in
    fst (bookmarkFeed userId feedId db) = Ok tt
    /\ fst (deleteBookmarkFeed userId feedId db1) = Ok tt
    /\ __get_feed_bookmark_by_user db1 userId feedId = true
    /\ __get_feed_bookmark_by_user db2 userId feedId = false
    /\ (__get_feed_bookmark_by_user db userId feedId = false ->
        feedBookmarks db2 = feedBookmarks db)
    /\ (forall userId' feedId',
           userId' <> userId \/ feedId' <> feedId ->
           bookmarks_of_by db1 feedId' userId'
           = bookmarks_of_by db feedId' userId'
           /\ bookmarks_of_by db2 feedId' userId'
              = bookmarks_of_by db feedId' userId')
    /\ same_but_bookmarks db db1 /\ same_but_bookmarks db db2.
Proof.
  intros userId feedId db db1 db2. subst db2 db1.
  cbn [bookmarkFeed deleteBookmarkFeed dataSource_transaction
       bookmarkFeed_body deleteBookmarkFeed_body bind ret
       insert_FeedBookmark delete_FeedBookmark fst snd].
  unfold __get_feed_bookmark_by_user, bookmarks_of_by, same_but_bookmarks.
  cbn [feedBookmarks with_feedBookmarks users feeds feedImages feedLikes
       tags mapperFeedTags].
  set (p := fun b => (FeedBookmark.feedId b =? feedId)
                     && (FeedBookmark.userId b =? userId)).
  set (new := FeedBookmark.mk (nextFeedBookmarkId db) feedId userId).
  assert (p new = true) as Hnew
      by (unfold p, new; cbn; now rewrite !Z.eqb_refl).
  assert (filter (fun r => negb (p r)) (feedBookmarks db ++ [new])
          = filter (fun r => negb (p r)) (feedBookmarks db)) as Hdel.
  { rewrite filter_app. cbn [filter]. rewrite Hnew. cbn [negb].
    apply app_nil_r. }
  cbv beta delta [p] in Hdel.
  split; [reflexivity|]. split; [reflexivity|].
  split.
  { rewrite existsb_app. cbn [existsb]. rewrite Hnew.
    now rewrite orb_true_r. }
  split.
  { apply existsb_filter_nil. apply (filter_negb_same p). }
  split.
  { intros Hno. rewrite Hdel. apply (filter_negb_of_none p).
    now apply existsb_filter_nil. }
  split; [|tauto].
  intros userId' feedId' Hne.
  set (q := fun b => (FeedBookmark.feedId b =? feedId')
                     && (FeedBookmark.userId b =? userId')).
  assert (q new = false) as Hq.
  { unfold q, new. cbn. apply andb_false_iff.
    destruct Hne as [H|H]; [right | left]; apply Z.eqb_neq; congruence. }
  split.
  - rewrite filter_app. cbn [filter]. rewrite Hq. apply app_nil_r.
  - rewrite Hdel. apply (filter_filter_other q p). intros x Hx.
    unfold p in Hx. apply andb_true_iff in Hx. destruct Hx as [H1 H2].
    apply Z.eqb_eq in H1. apply Z.eqb_eq in H2.
    unfold q. apply andb_false_iff.
    destruct Hne as [H|H]; [right | left]; apply Z.eqb_neq; congruence.
Qed.

Lemma bookmark_then_unbookmark_roundtrip_witness :
  __get_feed_bookmark_by_user store_one_like 2 1 = false
  /\ feedBookmarks
       (snd (deleteBookmarkFeed 2 1 (snd (bookmarkFeed 2 1 store_one_like))))
     = feedBookmarks store_one_like.
Proof.
  destruct (bookmark_then_unbookmark_roundtrip 2 1 store_one_like)
    as [_ [_ [_ [_ [H _]]]]].
  split; [vm_compute; reflexivity|]. apply H. vm_compute. reflexivity.
Defined.

(** X9.  Nothing keeps a pair from being bookmarked twice: each
    [bookmarkFeed] stores one more row of the pair.  One
    [deleteBookmarkFeed] removes all of them, the table shrinks by
    exactly the rows of the pair, and a second [deleteBookmarkFeed]
    changes nothing. *)
Theorem bookmark_rows_repeat_and_go_together :
  forall userId feedId db,
    let twice :=
      snd (bookmarkFeed userId feedId (snd (bookmarkFeed userId feedId db)))
    in
    let db' := snd (deleteBookmarkFeed userId feedId db) in
    List.length (bookmarks_of_by twice feedId userId)
    = (List.length (bookmarks_of_by db feedId userId) + 2)%nat
    /\ bookmarks_of_by (snd (deleteBookmarkFeed userId feedId twice))
                       feedId userId = []
    /\ bookmarks_of_by db' feedId userId = []
    /\ List.length (feedBookmarks db)
       = (List.length (feedBookmarks db')
          + List.length (bookmarks_of_by db feedId userId))%nat
    /\ deleteBookmarkFeed userId feedId db' = (Ok tt, db').
Proof.
  intros userId feedId db twice db'. subst twice db'.
  cbn [bookmarkFeed deleteBookmarkFeed dataSource_transaction
       bookmarkFeed_body deleteBookmarkFeed_body bind ret
       insert_FeedBookmark delete_FeedBookmark fst snd].
  unfold bookmarks_of_by.
  cbn [feedBookmarks with_feedBookmarks nextFeedBookmarkId].
  set (p := fun b => (FeedBookmark.feedId b =? feedId)
                     && (FeedBookmark.userId b =? userId)).
  assert (forall k, p (FeedBookmark.mk k feedId userId) = true) as Hnew
      by (intros k; unfold p; cbn; now rewrite !Z.eqb_refl).
  split.
  { rewrite !filter_app. cbn [filter]. rewrite !Hnew.
    rewrite !length_app. cbn [List.length]. lia. }
  split; [apply (filter_negb_same p)|].
  split; [apply (filter_negb_same p)|].
  split.
  { apply (filter_length_negb p). }
  unfold with_feedBookmarks.
  cbn [feedBookmarks users feeds feedImages feedLikes tags mapperFeedTags
       nextFeedId nextFeedImageId nextFeedLikeId nextFeedBookmarkId
       nextTagId nextMapperFeedTagId].
  do 2 f_equal. rewrite filter_filter.
  apply filter_ext. intros a. apply andb_diag.
Qed.

(** ** Deleting images of a feed *)

Lemma filter_and_negb {A} (p s : A -> bool) (l : list A) :
  filter p (filter (fun x => negb (p x && s x)) l)
  = filter (fun x => negb (s x)) (filter p l).
Proof.
  induction l as [|a l IH]; [reflexivity|].
  cbn [filter]. destruct (p a) eqn:Ep; destruct (s a) eqn:Es;
    cbn [andb negb filter]; rewrite ?Ep, ?Es; cbn [negb];
    rewrite ?IH; reflexivity.
Qed.

(** X10.  [deleteFeedImage feedId sortOrder] always returns; of the
    feed's images it removes exactly those with that [sortOrder], all of
    them when several share it; the images that stay keep their place
    and their [sortOrder] (no renumbering), the images of other feeds
    and every other table are untouched, and repeating the call changes
    nothing. *)
Theorem deleteFeedImage_removes_by_sortOrder :
  forall feedId sortOrder db,
    let db' := snd (deleteFeedImage feedId sortOrder db) in
    fst (deleteFeedImage feedId sortOrder db) = Ok tt
    /\ __get_feed_images db' feedId
       = filter (fun i => negb (FeedImage.sortOrder i =? sortOrder))
                (__get_feed_images db feedId)
    /\ (forall k, k <> feedId ->
                  __get_feed_images db' k = __get_feed_images db k)
    /\ same_but_images db db'
    /\ deleteFeedImage feedId sortOrder db' = (Ok tt, db').
Proof.
  intros feedId sortOrder db db'. subst db'.
  cbn [deleteFeedImage dataSource_transaction deleteFeedImage_body
       delete_FeedImage fst snd].
  unfold __get_feed_images, same_but_images.
  cbn [feedImages with_feedImages users feeds feedLikes feedBookmarks tags
       mapperFeedTags nextFeedImageId].
  split; [reflexivity|].
  split.
  { apply (filter_and_negb (fun i => FeedImage.feedId i =? feedId)
             (fun i => FeedImage.sortOrder i =? sortOrder)). }
  split.
  { intros k Hk. apply filter_filter_other. intros x Hx.
    apply andb_true_iff in Hx. destruct Hx as [Hx _].
    apply Z.eqb_eq in Hx. apply Z.eqb_neq. congruence. }
  split; [tauto|].
  unfold with_feedImages.
  cbn [feedImages users feeds feedLikes feedBookmarks tags mapperFeedTags
       nextFeedId nextFeedImageId nextFeedLikeId nextFeedBookmarkId
       nextTagId nextMapperFeedTagId].
  do 2 f_equal. rewrite filter_filter.
  apply filter_ext. intros a. apply andb_diag.
Qed.

Lemma deleteFeedImage_removes_by_sortOrder_witness :
  map FeedImage.sortOrder
      (__get_feed_images (snd (deleteFeedImage 1 2 store_one_like)) 1) = [1].
Proof.
  destruct (deleteFeedImage_removes_by_sortOrder 1 2 store_one_like)
    as [_ [H _]].
  rewrite H. vm_compute. reflexivity.
Defined.

(** ** The like-count flag *)

Lemma likeCount_consistent_transfer db db' :
  (forall f', In f' (feeds db') ->
     exists f,
       In f (feeds db) /\ Feed.likeCount f = Feed.likeCount f'
       /\ List.length (likes_of db' (Feed.id f'))
          = List.length (likes_of db (Feed.id f))) ->
  likeCount_consistent db = true -> likeCount_consistent db' = true.
Proof.
  intros H Hc. apply likeCount_consistent_spec. intros f' Hf'.
  destruct (H f' Hf') as [f [Hin [Hl Hn]]]. rewrite <- Hl, Hn.
  now apply likeCount_consistent_spec.
Qed.

Lemma likeCount_consistent_same db db' :
  feeds db' = feeds db -> feedLikes db' = feedLikes db ->
  likeCount_consistent db = true -> likeCount_consistent db' = true.
Proof.
  intros Hf Hl. apply likeCount_consistent_transfer. intros f' Hin.
  exists f'. rewrite <- Hf. split; [exact Hin|]. split; [reflexivity|].
  unfold likes_of. now rewrite Hl.
Qed.

Lemma likeCount_consistent_saved db db' f0 x :
  In f0 (feeds db) -> Feed.id x = Feed.id f0 ->
  Feed.likeCount x = Feed.likeCount f0 ->
  feeds db' = replace_by Feed.id x (feeds db) ->
  feedLikes db' = feedLikes db ->
  likeCount_consistent db = true -> likeCount_consistent db' = true.
Proof.
  intros Hin0 Hid Hlc Hf Hl. apply likeCount_consistent_transfer.
  intros f' Hin. rewrite Hf in Hin. apply In_replace_by in Hin.
  assert (forall k, likes_of db' k = likes_of db k) as Hk
      by (intros k; unfold likes_of; now rewrite Hl).
  destruct Hin as [->|[Hin _]].
  - exists f0. rewrite Hk, Hid. auto.
  - exists f'. rewrite Hk. auto.
Qed.

(** X11.  [updateShowLikeCount] on a feed that [findOneFeed] finds
    returns the feed with the flag set to the requested value and stores
    it under the same id.  Nothing else moves: like count, status and
    description of the row are the same, the other feed rows read as
    before, no user row (hence no feed counter) and no dependent row is
    touched, and a store whose like counts match its FeedLike rows stays
    so. *)
Theorem updateShowLikeCount_sets_only_the_flag :
  forall iso feedId showLikeCountYn db found,
    findOneFeed db feedId = Ok found ->
    let f := FeedFindOneVo.feed found in
    exists feed' db',
      updateShowLikeCount iso feedId showLikeCountYn db = (Ok feed', db')
      /\ feedRepository_findOne db' feedId = Some feed'
      /\ Feed.showLikeCountYn feed' = showLikeCountYn
      /\ Feed.likeCount feed' = Feed.likeCount f
      /\ Feed.status feed' = Feed.status f
      /\ feed' = set_showLikeCountYn f showLikeCountYn
      /\ (forall k, k <> feedId ->
                    feedRepository_findOne db' k = feedRepository_findOne db k)
      /\ users db' = users db
      /\ same_dependents db db'
      /\ (likeCount_consistent db = true -> likeCount_consistent db' = true).
Proof.
  intros iso feedId y db found Hfound f. subst f.
  rewrite findOneFeed_unfold in Hfound.
  destruct (feed_by_id db feedId) as [item|] eqn:E; [|discriminate].
  injection Hfound as <-. rewrite hydrated_feed.
  destruct (feed_by_id_Some _ _ _ E) as [Hin [Hid _]].
  set (f := FeedFindOneVo.feed item) in *.
  eexists. eexists. rewrite updateShowLikeCount_eval, E.
  split; [reflexivity|].
  split.
  { eapply feed_by_id_saved; [exact E | exact Hid]. }
  split; [reflexivity|]. split; [reflexivity|]. split; [reflexivity|].
  split; [reflexivity|].
  split.
  { intros k Hk. unfold feedRepository_findOne. cbn [feeds with_feeds].
    rewrite find_replace_by_other; [reflexivity|].
    cbn [Feed.id set_showLikeCountYn]. fold f. congruence. }
  split; [reflexivity|].
  split; [unfold same_dependents; cbn; tauto|].
  apply (likeCount_consistent_saved db _ f (set_showLikeCountYn f y));
    auto.
Qed.

Lemma updateShowLikeCount_sets_only_the_flag_witness :
  exists feed' db',
    updateShowLikeCount ReadCommitted 1 N store_one_like = (Ok feed', db')
    /\ feed' = Feed.mk 1 1 "first" 1 N 0 Y ACTIVE 100 100
    /\ users db' = users store_one_like.
Proof.
  destruct (updateShowLikeCount_sets_only_the_flag ReadCommitted 1 N
              store_one_like
              (FeedFindOneVo.mk (Feed.mk 1 1 "first" 1 Y 0 Y ACTIVE 100 100)
                 (Some (User.mk 1 1 N []))
                 (__get_feed_images store_one_like 1)
                 (__get_feed_tags store_one_like 1) None None))
    as [feed' [db' [H1 [_ [_ [_ [_ [H5 [_ [H7 _]]]]]]]]]];
    [vm_compute; reflexivity|].
  exists feed', db'. split; [exact H1|]. split; [exact H5 | exact H7].
Defined.

(** ** What [createFeed] and [updateFeed] leave alone *)

Lemma same_rest_with_tags w x next : same_rest w (with_tags w x next).
Proof. unfold same_rest; cbn; tauto. Qed.

Lemma same_rest_with_mappers w x next :
  same_rest w (with_mapperFeedTags w x next).
Proof. unfold same_rest; cbn; tauto. Qed.

(** The tag callbacks of [updateFeed] write the tag tables only, whether
    they resolve or not. *)
Lemma frame_updateFeed_deleteTag iso committed feedId d :
  sat (fun _ => True) same_rest True
      (updateFeed_deleteTag iso committed feedId d)
      (fun _ => True) (fun _ _ => True).
Proof.
  unfold updateFeed_deleteTag. cbn [sat]. intros w _ _. unfold outside.
  split; [exact I|]. split; [apply same_rest_refl|].
  exists (fun _ => True). split; [apply stable_const|]. split; [exact I|].
  destruct (tagRepository_findOne_tagName (view iso committed w) d)
    as [t|]; [|cbn [sat]; auto].
  destruct (negb (Tag.id t =? 0)); [|cbn [sat]; auto].
  cbn [sat]. intros w2 _ _. unfold delete_MapperFeedTag.
  split; [exact I|]. split; [apply same_rest_with_mappers|].
  exists (fun _ => True). split; [apply stable_const|]. split; [exact I|].
  auto.
Qed.

Lemma frame_updateFeed_deletedTags iso committed feedId names :
  sat (fun _ => True) same_rest True
      (updateFeed_deletedTags iso committed feedId names)
      (fun _ => True) (fun _ _ => True).
Proof.
  unfold updateFeed_deletedTags. cbn [sat]. intros w _ _.
  unfold bind, outside, liftR.
  destruct (findOneFeed (view iso committed w) feedId) as [found|e];
    [|exact I].
  split; [exact I|]. split; [apply same_rest_refl|].
  exists (fun _ => True). split; [apply stable_const|]. split; [exact I|].
  destruct (tagNames_of (FeedFindOneVo.tags found)) as [read|e];
    [|cbn [sat]; auto].
  set (ds := filter _ (js_Set read)).
  destruct (nonempty ds); [|cbn [sat]; auto].
  apply (sat_await _ _ True _ _ (fun _ => True)
           (fun _ w => forall d : string, In d ds -> True)).
  - apply (sat_Promise_all _ _ True same_rest_trans
             (updateFeed_deleteTag iso committed feedId)
             (fun _ => True) (fun _ _ => True)).
    + apply stable_const.
    + intros d. apply stable_const.
    + intros d _. apply frame_updateFeed_deleteTag.
  - intros _. cbn [sat]. auto.
Qed.

Lemma frame_updateFeed_mapper iso committed feed feedId names t :
  sat (fun _ => True) same_rest True
      (updateFeed_mapper iso committed feed feedId names t)
      (fun _ => True) (fun _ _ => True).
Proof.
  unfold updateFeed_mapper. cbn [sat]. intros w _ _. unfold outside.
  split; [exact I|]. split; [apply same_rest_refl|].
  exists (fun _ => True). split; [apply stable_const|]. split; [exact I|].
  destruct (MapperFeedTag_findOne (view iso committed w) (Tag.id t) feedId);
    [apply frame_updateFeed_deletedTags|].
  destruct feed as [f|]; [|cbn [sat]; auto].
  cbn [sat]. intros w2 _ _. unfold insert_MapperFeedTag.
  split; [exact I|]. split; [apply same_rest_with_mappers|].
  exists (fun _ => True). split; [apply stable_const|]. split; [exact I|].
  apply frame_updateFeed_deletedTags.
Qed.

Lemma frame_updateFeed_tag iso committed feed feedId names n :
  sat (fun _ => True) same_rest True
      (updateFeed_tag iso committed feed feedId names n)
      (fun _ => True) (fun _ _ => True).
Proof.
  unfold updateFeed_tag. cbn [sat]. intros w _ _. unfold outside.
  split; [exact I|]. split; [apply same_rest_refl|].
  exists (fun _ => True). split; [apply stable_const|]. split; [exact I|].
  destruct (tagRepository_findOne_tagName (view iso committed w) n);
    [apply frame_updateFeed_mapper|].
  cbn [sat]. intros w2 _ _. unfold insert_Tag.
  split; [exact I|]. split; [apply same_rest_with_tags|].
  exists (fun _ => True). split; [apply stable_const|]. split; [exact I|].
  apply frame_updateFeed_mapper.
Qed.

Lemma updateFeed_tags_frame iso committed feed feedId names todo w r w' :
  run (Promise_all (map (updateFeed_tag iso committed feed feedId names)
                        todo)) w = Ok (r, w') ->
  same_rest w w'.
Proof.
  intros E.
  pose proof (sat_run _ _ True same_rest_refl same_rest_trans _ _ _ w
                (sat_Promise_all _ _ True same_rest_trans
                   (updateFeed_tag iso committed feed feedId names)
                   (fun _ => True) (fun _ _ => True)
                   (stable_const _ _ True)
                   (fun _ => stable_const _ _ True)
                   todo
                   (fun n _ =>
                      frame_updateFeed_tag iso committed feed feedId names n))
                I I) as H.
  rewrite E in H. apply H.
Qed.

Lemma updateFeed_frame iso now feedId dto db feed' db' :
  updateFeed iso now feedId dto db = (Ok feed', db') ->
  exists f,
    feedRepository_findOne db feedId = Some f
    /\ feed' = Feed.set_description f (FeedUpdateDto.description dto) now
    /\ feeds db' = replace_by Feed.id feed' (feeds db)
    /\ users db' = users db /\ feedImages db' = feedImages db
    /\ feedLikes db' = feedLikes db /\ feedBookmarks db' = feedBookmarks db
    /\ nextFeedId db' = nextFeedId db.
Proof.
  unfold updateFeed, dataSource_transaction, updateFeed_body.
  unfold bind at 1. unfold outside at 1. rewrite view_same.
  set (names := FeedUpdateDto.tagNames dto).
  unfold bind at 1.
  destruct ((if negb (nonempty names)
             then delete_MapperFeedTag
                    (fun m => MapperFeedTag.feedId m =? feedId)
             else ret tt) db) as [[[] w1]|e] eqn:E1; [|discriminate].
  assert (same_rest db w1) as R1.
  { revert E1. destruct (negb (nonempty names)).
    - unfold delete_MapperFeedTag. intros E. injection E as <-.
      apply same_rest_with_mappers.
    - unfold ret. intros E. injection E as <-. apply same_rest_refl. }
  unfold bind at 1. rewrite if_nonempty_Promise_all.
  unfold bind at 1.
  destruct (run _ w1) as [[l w2]|e] eqn:E2; [|discriminate].
  unfold ret at 1.
  pose proof (updateFeed_tags_frame _ _ _ _ _ _ _ _ _ E2) as R2.
  pose proof (same_rest_trans _ _ _ R1 R2) as R.
  destruct R as [Ru [Rf [Ri [Rl [Rb Rn]]]]].
  unfold bind at 1.
  destruct (feedRepository_findOne db feedId) as [f|] eqn:Hf;
    [|discriminate].
  unfold nonNull at 1. unfold ret at 1. unfold bind, save_Feed, ret.
  destruct (find_key_Some Feed.id _ _ _ Hf) as [_ [_ Ef]].
  cbn [Feed.id Feed.set_description]. rewrite Rf, Ef.
  intros E. injection E as <- <-. exists f.
  cbn [feeds users feedImages feedLikes feedBookmarks nextFeedId with_feeds].
  auto 10.
Qed.

(** X12.  [updateFeed] writes the feed's description and update time and
    nothing else outside the tag tables: when it returns, the feed row
    of the id existed, the returned feed is that row with the request's
    description and the call's time, stored under the same id with its
    like count, status, author and creation time unchanged; every other
    feed row, and all user, image, like and bookmark rows are as before.
    When it throws, the store is as before. *)
Theorem updateFeed_writes_description_and_tags_only :
  forall iso now feedId dto db,
    match updateFeed iso now feedId dto db with
    | (Ok feed', db') =>
        exists f,
          feedRepository_findOne db feedId = Some f
          /\ feed' = Feed.set_description f (FeedUpdateDto.description dto)
                                          now
          /\ feedRepository_findOne db' feedId = Some feed'
          /\ Feed.likeCount feed' = Feed.likeCount f
          /\ Feed.status feed' = Feed.status f
          /\ Feed.userId feed' = Feed.userId f
          /\ Feed.createdAt feed' = Feed.createdAt f
          /\ Feed.updatedAt feed' = now
          /\ (forall k, k <> feedId ->
                feedRepository_findOne db' k = feedRepository_findOne db k)
          /\ users db' = users db /\ feedImages db' = feedImages db
          /\ feedLikes db' = feedLikes db
          /\ feedBookmarks db' = feedBookmarks db
    | (Err _, db') => db' = db
    end.
Proof.
  intros iso now feedId dto db.
  destruct (updateFeed iso now feedId dto db) as [[feed'|e] db'] eqn:E.
  - destruct (updateFeed_frame _ _ _ _ _ _ _ E)
      as [f [Hf [-> [Hfeeds [Hu [Hi [Hl [Hb _]]]]]]]].
    destruct (find_key_Some Feed.id _ _ _ Hf) as [_ [Hid Ef]].
    exists f. split; [exact Hf|]. split; [reflexivity|].
    split.
    { unfold feedRepository_findOne. rewrite Hfeeds, <- Hid.
      exact (find_replace_by Feed.id
               (Feed.set_description f (FeedUpdateDto.description dto) now)
               (feeds db) Ef). }
    do 5 (split; [reflexivity|]).
    split.
    { intros k Hk. unfold feedRepository_findOne. rewrite Hfeeds.
      rewrite find_replace_by_other; [reflexivity|].
      cbn [Feed.id Feed.set_description]. congruence. }
    auto.
  - revert E. unfold updateFeed, dataSource_transaction.
    destruct (updateFeed_body _ _ _ _ _ _) as [[? ?]|?]; intros E;
      [discriminate | now injection E].
Qed.

Lemma updateFeed_writes_description_and_tags_only_witness :
  exists feed' db',
    updateFeed ReadCommitted 200 1 update_B_C_D store_one_like
    = (Ok feed', db')
    /\ Feed.likeCount feed' = 1
    /\ feedLikes db' = feedLikes store_one_like.
Proof.
  pose proof (updateFeed_writes_description_and_tags_only ReadCommitted 200
                1 update_B_C_D store_one_like) as H.
  destruct (updateFeed ReadCommitted 200 1 update_B_C_D store_one_like)
    as [[feed'|e] db'] eqn:E.
  - destruct H as [f [Hf [_ [_ [Hl [_ [_ [_ [_ [_ [_ [_ [Hlikes _]]]]]]]]]]]]].
    exists feed', db'. split; [reflexivity|]. split; [|exact Hlikes].
    rewrite Hl. vm_compute in Hf. injection Hf as <-. reflexivity.
  - vm_compute in E. discriminate.
Defined.

(** ** [createFeed] and the constraints of the store *)

Lemma NoDup_distinct {A} (eqb : A -> A -> bool) (l : list A) :
  (forall x y, eqb x y = true <-> x = y) ->
  NoDup l -> distinct eqb l = true.
Proof.
  intros Heq. induction 1 as [|x l Hnin _ IH]; [reflexivity|].
  cbn [distinct]. rewrite IH, andb_true_r. apply negb_true_iff.
  destruct (existsb (eqb x) l) eqn:E; [|reflexivity].
  apply existsb_exists in E. destruct E as [y [Hy Hxy]].
  apply Heq in Hxy. subst y. contradiction.
Qed.

Lemma TagKeys_ok w : TagKeys w -> tag_keys_ok w = true.
Proof.
  intros [Hnd [Hpos Hb]]. unfold tag_keys_ok.
  rewrite (NoDup_distinct Z.eqb _ Z.eqb_eq Hnd).
  replace (0 <? nextTagId w) with true by (symmetry; now apply Z.ltb_lt).
  cbn [andb]. apply forallb_forall. intros t Ht. specialize (Hb t Ht).
  apply andb_true_iff. split; apply Z.ltb_lt; lia.
Qed.

Lemma TagNames_unique w : TagNames w -> tag_names_unique w = true.
Proof. apply (NoDup_distinct String.eqb _ String.eqb_eq). Qed.

Lemma MapperFK_ok w : MapperFK w -> mappers_reference_tags w = true.
Proof.
  intros H. unfold mappers_reference_tags. apply forallb_forall.
  intros m Hm. destruct (H m Hm) as [t [Ht Hid]].
  apply existsb_exists. exists t. split; [exact Ht | now apply Z.eqb_eq].
Qed.

Lemma new_images_feedId feedId :
  forall images next i,
    In i (new_images feedId next images) -> FeedImage.feedId i = feedId.
Proof.
  induction images as [|x images IH]; intros next i; [intros []|].
  cbn [new_images]. intros [<-|H]; [reflexivity | now apply (IH _ _ H)].
Qed.

Lemma createFeed_appends iso dflt now userId dto db u :
  userRepository_findOne db userId = Some u ->
  exists db' news,
    createFeed iso dflt now userId dto db
    = (Ok (new_Feed dflt now userId dto (nextFeedId db)), db')
    /\ db' = created_store dflt now userId dto u db
    /\ users db'
       = replace_by User.id (User.set_feedCount u (User.feedCount u + 1))
                    (users db)
    /\ feeds db'
       = feeds db ++ [new_Feed dflt now userId dto (nextFeedId db)]
    /\ nextFeedId db' = nextFeedId db + 1
    /\ feedImages db'
       = feedImages db
         ++ new_images (nextFeedId db) (nextFeedImageId db)
                       (FeedCreateDto.feedImages dto)
    /\ feedLikes db' = feedLikes db
    /\ feedBookmarks db' = feedBookmarks db
    /\ (forall t, In t (tags db) -> In t (tags db'))
    /\ mapperFeedTags db' = mapperFeedTags db ++ news
    /\ List.length news = List.length (FeedCreateDto.tagNames dto)
    /\ (forall m, In m news -> MapperFeedTag.feedId m = nextFeedId db).
Proof.
  intros Hu.
  exists (created_store dflt now userId dto u db),
    (new_mappers (nextFeedId db) (nextMapperFeedTagId db)
                 (mapped_tagIds db (FeedCreateDto.tagNames dto))).
  split; [now apply createFeed_eval|].
  do 7 (split; [reflexivity|]).
  split.
  { intros t Ht. rewrite created_store_tags. apply in_or_app. now left. }
  split; [reflexivity|].
  split; [rewrite new_mappers_length; apply mapped_names_length|].
  exact (proj2 (new_mappers_spec _ _ _)).
Qed.




Lemma dataSource_transaction_Err {A} (body : Tx A) db e db' :
  dataSource_transaction body db = (Err e, db') -> db' = db.
Proof.
  unfold dataSource_transaction.
  destruct (body db) as [[a w]|e0]; intros E;
    [discriminate | now injection E].
Qed.

(** X14.  The writes that do not touch likes keep the like counts in
    step with the FeedLike rows: bookmarking and unbookmarking, deleting
    images, the status update, the soft delete, the update of
    description and tags, and the hard delete (which removes the feed
    together with its FeedLike rows), whether they return or throw. *)
Theorem likeCount_consistent_kept_by_other_writes :
  forall iso db,
    likeCount_consistent db = true ->
    (forall userId feedId,
        likeCount_consistent (snd (bookmarkFeed userId feedId db)) = true)
    /\ (forall userId feedId,
           likeCount_consistent (snd (deleteBookmarkFeed userId feedId db))
           = true)
    /\ (forall feedId sortOrder,
           likeCount_consistent (snd (deleteFeedImage feedId sortOrder db))
           = true)
    /\ (forall feedId status,
           likeCount_consistent (snd (updateFeedStatus iso feedId status db))
           = true)
    /\ (forall userId feedId,
           likeCount_consistent (snd (deleteFeed iso userId feedId db))
           = true)
    /\ (forall now feedId dto,
           likeCount_consistent (snd (updateFeed iso now feedId dto db))
           = true)
    /\ (forall userId feedId,
           likeCount_consistent (snd (hardDeleteFeed iso userId feedId db))
           = true).
Proof.
  intros iso db Hc.
  split; [intros; now apply (likeCount_consistent_same db)|].
  split; [intros; now apply (likeCount_consistent_same db)|].
  split; [intros; now apply (likeCount_consistent_same db)|].
  split.
  { intros feedId status.
    destruct (feed_by_id db feedId) as [item|] eqn:E.
    - destruct (feed_by_id_Some _ _ _ E) as [Hin [Hid [u [Hu _]]]].
      rewrite (updateFeedStatus_eval iso feedId status db item u E Hu).
      cbn [snd].
      apply (likeCount_consistent_saved db _ (FeedFindOneVo.feed item)
               (Feed.set_status (FeedFindOneVo.feed item) status));
        auto.
    - now rewrite (updateFeedStatus_no_feed iso feedId status db E). }
  split.
  { intros userId feedId.
    destruct (feedRepository_findOne db feedId) as [f|] eqn:Hf;
      [|now rewrite deleteFeed_no_feed].
    destruct (userRepository_findOne db userId) as [u|] eqn:Hu;
      [|now rewrite deleteFeed_no_user].
    rewrite (deleteFeed_eval iso _ _ _ _ _ Hf Hu). cbn [snd].
    destruct (find_key_Some Feed.id _ _ _ Hf) as [Hin _].
    apply (likeCount_consistent_saved db _ f (Feed.set_status f DELETED));
      auto. }
  split.
  { intros now feedId dto.
    destruct (updateFeed iso now feedId dto db) as [[feed'|e] db'] eqn:E.
    - destruct (updateFeed_frame _ _ _ _ _ _ _ E)
        as [f [Hf [-> [Hfeeds [_ [_ [Hl _]]]]]]].
      destruct (find_key_Some Feed.id _ _ _ Hf) as [Hin _]. cbn [snd].
      apply (likeCount_consistent_saved db db' f
               (Feed.set_description f (FeedUpdateDto.description dto) now));
        auto.
    - apply dataSource_transaction_Err in E. subst db'. exact Hc. }
  intros userId feedId.
  destruct (userRepository_findOne db userId) as [u|] eqn:Hu;
    [|now rewrite hardDeleteFeed_no_user].
  destruct (hardDeleteFeed_states iso userId feedId db u Hu) as [_ ->].
  cbn [snd]. revert Hc. apply likeCount_consistent_transfer.
  intros f' Hf'.
  unfold hd_user_saved, hd_feed_gone in Hf'.
  cbn [feeds with_users with_feeds hd_bookmarks_gone hd_likes_gone
       hd_images_gone with_feedBookmarks with_feedLikes with_feedImages]
    in Hf'.
  apply filter_In in Hf'. destruct Hf' as [Hin Hne].
  apply negb_true_iff in Hne. apply Z.eqb_neq in Hne.
  exists f'. split; [exact Hin|]. split; [reflexivity|]. f_equal.
  exact (filter_key_other FeedLike.feedId (feedLikes db) (Feed.id f')
           feedId Hne).
Qed.

Lemma likeCount_consistent_kept_by_other_writes_witness :
  likeCount_consistent (snd (hardDeleteFeed ReadCommitted 1 1 store_one_like))
  = true
  /\ likeCount_consistent
       (snd (updateFeedStatus ReadUncommitted 1 DELETED store_one_like))
     = true.
Proof.
  destruct (likeCount_consistent_kept_by_other_writes ReadCommitted
              store_one_like) as [_ [_ [_ [_ [_ [_ H7]]]]]];
    [vm_compute; reflexivity|].
  destruct (likeCount_consistent_kept_by_other_writes ReadUncommitted
              store_one_like) as [_ [_ [_ [H4 _]]]];
    [vm_compute; reflexivity|].
  split; [apply H7 | apply H4].
Defined.

(** ** The flags of the requesting user *)

Lemma feed_by_id_flags db feedId item :
  feed_by_id db feedId = Some item ->
  FeedFindOneVo.likedYn item = None /\ FeedFindOneVo.bookmarkedYn item = None.
Proof.
  unfold feed_by_id. intros H.
  assert (In item (flat_map (join_user db (fun _ => []))
                     (filter (fun f => Feed.id f =? feedId) (feeds db)))) as Hin.
  { destruct (flat_map _ _) as [|y l]; [discriminate|].
    injection H as ->. now left. }
  apply in_flat_map in Hin. destruct Hin as [f [_ Hj]].
  unfold join_user in Hj.
  destruct (userRepository_findOne db (Feed.userId f)); [|contradiction].
  destruct Hj as [<-|[]]. split; reflexivity.
Qed.

Lemma truthy_nonzero z : z <> 0 -> truthy (Some z) = Some z.
Proof. intros H. cbn. apply Z.eqb_neq in H. now rewrite H. Qed.

Lemma findOneByUser_unfold db user feedId :
  findOneByUser db user feedId
  = match feed_by_id db feedId with
    | Some item => Ok (hydrated db (Some (User.id user)) item)
    | None => Err TypeError
    end.
Proof.
  unfold findOneByUser. destruct (feed_by_id db feedId); [|reflexivity].
  apply processFeedItem_Some.
Qed.

(** X15.  [findOneByUser] finds what [findOneFeed] finds, with the same
    feed, author, images and tags.  [findOneFeed] leaves both flags
    unset.  [findOneByUser] sets them to the answers of the like and
    bookmark lookups for the requesting user, unless that user's id is
    0: the id is then taken for absent, and the result is that of
    [findOneFeed]. *)
Theorem findOneByUser_flags :
  forall db user feedId found0,
    findOneFeed db feedId = Ok found0 ->
    FeedFindOneVo.likedYn found0 = None
    /\ FeedFindOneVo.bookmarkedYn found0 = None
    /\ exists found,
         findOneByUser db user feedId = Ok found
         /\ FeedFindOneVo.feed found = FeedFindOneVo.feed found0
         /\ FeedFindOneVo.user found = FeedFindOneVo.user found0
         /\ FeedFindOneVo.feedImages found = FeedFindOneVo.feedImages found0
         /\ FeedFindOneVo.tags found = FeedFindOneVo.tags found0
         /\ (User.id user <> 0 ->
             FeedFindOneVo.likedYn found
             = Some (__get_feed_like_by_user db (User.id user) feedId)
             /\ FeedFindOneVo.bookmarkedYn found
                = Some (__get_feed_bookmark_by_user db (User.id user) feedId))
         /\ (User.id user = 0 -> found = found0).
Proof.
  intros db user feedId found0 H0.
  rewrite findOneFeed_unfold in H0. rewrite findOneByUser_unfold.
  destruct (feed_by_id db feedId) as [item|] eqn:E; [|discriminate].
  injection H0 as <-.
  destruct (feed_by_id_flags _ _ _ E) as [Hl Hb].
  destruct (feed_by_id_Some _ _ _ E) as [_ [Hid _]].
  split; [exact Hl|]. split; [exact Hb|].
  eexists. split; [reflexivity|].
  do 4 (split; [reflexivity|]).
  split.
  - intros Hnz. unfold hydrated.
    cbn [FeedFindOneVo.likedYn FeedFindOneVo.bookmarkedYn].
    rewrite (truthy_nonzero _ Hnz), Hid. split; reflexivity.
  - intros Hz. unfold hydrated. rewrite Hz. reflexivity.
Qed.

Lemma findOneByUser_flags_witness :
  exists found,
    findOneByUser store_one_like (User.mk 2 0 N []) 1 = Ok found
    /\ FeedFindOneVo.likedYn found = Some true
    /\ FeedFindOneVo.bookmarkedYn found = Some false.
Proof.
  destruct (findOneByUser_flags store_one_like (User.mk 2 0 N []) 1
              (FeedFindOneVo.mk (Feed.mk 1 1 "first" 1 Y 0 Y ACTIVE 100 100)
                 (Some (User.mk 1 1 N []))
                 (__get_feed_images store_one_like 1)
                 (__get_feed_tags store_one_like 1) None None))
    as [_ [_ [found [H1 [_ [_ [_ [_ [H6 _]]]]]]]]];
    [vm_compute; reflexivity|].
  exists found. split; [exact H1|].
  destruct H6 as [Hl Hb]; [cbn; discriminate|].
  rewrite Hl, Hb. split; vm_compute; reflexivity.
Defined.

Lemma findOneByUser_Ok db user feedId found :
  findOneByUser db user feedId = Ok found ->
  exists item,
    feed_by_id db feedId = Some item
    /\ found = hydrated db (Some (User.id user)) item.
Proof.
  rewrite findOneByUser_unfold.
  destruct (feed_by_id db feedId) as [item|]; [|discriminate].
  intros H. injection H as <-. now exists item.
Qed.

Lemma hydrated_flags db z item :
  z <> 0 ->
  FeedFindOneVo.likedYn (hydrated db (Some z) item)
  = Some (__get_feed_like_by_user db z (Feed.id (FeedFindOneVo.feed item)))
  /\ FeedFindOneVo.bookmarkedYn (hydrated db (Some z) item)
     = Some (__get_feed_bookmark_by_user db z
               (Feed.id (FeedFindOneVo.feed item))).
Proof.
  intros Hz. unfold hydrated.
  cbn [FeedFindOneVo.likedYn FeedFindOneVo.bookmarkedYn].
  rewrite (truthy_nonzero _ Hz). split; reflexivity.
Qed.

(** X16.  The flags follow the writes.  For a requesting user with a
    non-zero id and a feed that [findOneByUser] finds: after [likeFeed]
    the feed reads liked with its like count one higher and its bookmark
    flag as before; after [deleteLikeFeed] it reads not liked with its
    like count one lower; after [bookmarkFeed] it reads bookmarked and
    after [deleteBookmarkFeed] not bookmarked, in both cases with the
    same columns and the same liked flag. *)
Theorem flags_follow_like_and_bookmark :
  forall iso db user feedId found,
    User.id user <> 0 ->
    findOneByUser db user feedId = Ok found ->
    let userId := User.id user in
    (exists found1,
        findOneByUser (snd (likeFeed iso userId feedId db)) user feedId
        = Ok found1
        /\ FeedFindOneVo.likedYn found1 = Some true
        /\ Feed.likeCount (FeedFindOneVo.feed found1)
           = Feed.likeCount (FeedFindOneVo.feed found) + 1
        /\ FeedFindOneVo.bookmarkedYn found1
           = FeedFindOneVo.bookmarkedYn found)
    /\ (exists found2,
           findOneByUser (snd (deleteLikeFeed iso userId feedId db)) user
                         feedId = Ok found2
           /\ FeedFindOneVo.likedYn found2 = Some false
           /\ Feed.likeCount (FeedFindOneVo.feed found2)
              = Feed.likeCount (FeedFindOneVo.feed found) - 1
           /\ FeedFindOneVo.bookmarkedYn found2
              = FeedFindOneVo.bookmarkedYn found)
    /\ (exists found3,
           findOneByUser (snd (bookmarkFeed userId feedId db)) user feedId
           = Ok found3
           /\ FeedFindOneVo.bookmarkedYn found3 = Some true
           /\ FeedFindOneVo.feed found3 = FeedFindOneVo.feed found
           /\ FeedFindOneVo.likedYn found3 = FeedFindOneVo.likedYn found)
    /\ (exists found4,
           findOneByUser (snd (deleteBookmarkFeed userId feedId db)) user
                         feedId = Ok found4
           /\ FeedFindOneVo.bookmarkedYn found4 = Some false
           /\ FeedFindOneVo.feed found4 = FeedFindOneVo.feed found
           /\ FeedFindOneVo.likedYn found4 = FeedFindOneVo.likedYn found).
Proof.
  intros iso db user feedId found Hz Hfound userId. subst userId.
  destruct (findOneByUser_Ok _ _ _ _ Hfound) as [item [E ->]].
  destruct (feed_by_id_Some _ _ _ E) as [Hin [Hid [u [_ Hu]]]].
  set (f := FeedFindOneVo.feed item) in *.
  destruct (hydrated_flags db (User.id user) item Hz) as [Hl0 Hb0].
  fold f in Hl0, Hb0. rewrite Hid in Hl0, Hb0.
  rewrite hydrated_feed. fold f. rewrite Hl0, Hb0.
  split; [|split; [|split]].
  - rewrite likeFeed_eval, E. cbn [snd]. fold f.
    set (f1 := Feed.set_likeCount f (Feed.likeCount f + 1)).
    rewrite findOneByUser_unfold.
    rewrite (feed_by_id_after_save db (liked db (User.id user) feedId f)
               feedId item f1 u E Hid Hu eq_refl).
    eexists. split; [reflexivity|].
    destruct (hydrated_flags (liked db (User.id user) feedId f)
                (User.id user)
                (FeedFindOneVo.mk f1 (Some u) [] [] None None) Hz)
      as [Hl Hb].
    rewrite Hl, Hb. cbn [FeedFindOneVo.feed Feed.id f1 Feed.set_likeCount].
    fold f. rewrite Hid.
    split; [|split; reflexivity].
    f_equal. unfold __get_feed_like_by_user, liked. cbn [feedLikes].
    rewrite existsb_app. cbn [existsb FeedLike.feedId FeedLike.userId].
    rewrite !Z.eqb_refl. cbn. apply orb_true_r.
  - rewrite deleteLikeFeed_eval, E. cbn [snd]. fold f.
    set (f1 := Feed.set_likeCount f (Feed.likeCount f - 1)).
    rewrite findOneByUser_unfold.
    rewrite (feed_by_id_after_save db (unliked db (User.id user) feedId f)
               feedId item f1 u E Hid Hu eq_refl).
    eexists. split; [reflexivity|].
    destruct (hydrated_flags (unliked db (User.id user) feedId f)
                (User.id user)
                (FeedFindOneVo.mk f1 (Some u) [] [] None None) Hz)
      as [Hl Hb].
    rewrite Hl, Hb. cbn [FeedFindOneVo.feed Feed.id f1 Feed.set_likeCount].
    fold f. rewrite Hid.
    split; [|split; reflexivity].
    f_equal. unfold __get_feed_like_by_user, unliked. cbn [feedLikes].
    apply existsb_filter_nil.
    apply (filter_negb_same
             (fun l => (FeedLike.feedId l =? feedId)
                       && (FeedLike.userId l =? User.id user))).
  - cbn [bookmarkFeed dataSource_transaction bookmarkFeed_body bind ret
         insert_FeedBookmark snd].
    rewrite findOneByUser_unfold.
    match goal with
    | |- context [feed_by_id ?d feedId] =>
        rewrite (feed_by_id_ext d db feedId eq_refl eq_refl), E
    end.
    eexists. split; [reflexivity|].
    match goal with
    | |- context [hydrated ?d _ _] =>
        destruct (hydrated_flags d (User.id user) item Hz) as [Hl Hb]
    end.
    rewrite Hl, Hb. fold f. rewrite Hid.
    split; [|split; reflexivity].
    f_equal. unfold __get_feed_bookmark_by_user.
    cbn [feedBookmarks with_feedBookmarks].
    rewrite existsb_app.
    cbn [existsb FeedBookmark.feedId FeedBookmark.userId].
    rewrite !Z.eqb_refl. cbn. apply orb_true_r.
  - cbn [deleteBookmarkFeed dataSource_transaction deleteBookmarkFeed_body
         delete_FeedBookmark snd].
    rewrite findOneByUser_unfold.
    match goal with
    | |- context [feed_by_id ?d feedId] =>
        rewrite (feed_by_id_ext d db feedId eq_refl eq_refl), E
    end.
    eexists. split; [reflexivity|].
    match goal with
    | |- context [hydrated ?d _ _] =>
        destruct (hydrated_flags d (User.id user) item Hz) as [Hl Hb]
    end.
    rewrite Hl, Hb. fold f. rewrite Hid.
    split; [|split; reflexivity].
    f_equal. unfold __get_feed_bookmark_by_user.
    cbn [feedBookmarks with_feedBookmarks].
    apply existsb_filter_nil.
    apply (filter_negb_same
             (fun b => (FeedBookmark.feedId b =? feedId)
                       && (FeedBookmark.userId b =? User.id user))).
Qed.

Lemma flags_follow_like_and_bookmark_witness :
  exists found3,
    findOneByUser (snd (bookmarkFeed 2 1 store_one_like)) (User.mk 2 0 N []) 1
    = Ok found3
    /\ FeedFindOneVo.bookmarkedYn found3 = Some true
    /\ FeedFindOneVo.likedYn found3 = Some true.
Proof.
  destruct (flags_follow_like_and_bookmark ReadCommitted store_one_like
              (User.mk 2 0 N []) 1
              (hydrated store_one_like (Some 2)
                 (FeedFindOneVo.mk
                    (Feed.mk 1 1 "first" 1 Y 0 Y ACTIVE 100 100)
                    (Some (User.mk 1 1 N [])) [] [] None None)))
    as [_ [_ [[found3 [H1 [H2 [_ H4]]]] _]]];
    [cbn; discriminate | vm_compute; reflexivity |].
  exists found3. split; [exact H1|]. split; [exact H2|].
  rewrite H4. vm_compute. reflexivity.
Defined.

(** ** Liking twice *)

(** X17.  Nothing keeps a user from liking a feed twice, and the unlike
    does not count the rows it removes.  For a feed that [findOneFeed]
    finds and a user with no like on it: after two [likeFeed] calls the
    pair has two FeedLike rows; one [deleteLikeFeed] removes both, so the
    FeedLike table is what it was at the start, but the feed's like count
    is one higher than at the start.  A store whose like counts matched
    its FeedLike rows no longer does. *)
Theorem likeFeed_twice_then_unlike_drifts :
  forall iso userId feedId db found,
    findOneFeed db feedId = Ok found ->
    likes_of_by db feedId userId = [] ->
    let db2 :=
      snd (likeFeed iso userId feedId (snd (likeFeed iso userId feedId db)))
    in
    let db3 := snd (deleteLikeFeed iso userId feedId db2) in
    List.length (likes_of_by db2 feedId userId) = 2%nat
    /\ fst (deleteLikeFeed iso userId feedId db2) = Ok tt
    /\ feedLikes db3 = feedLikes db
    /\ option_map Feed.likeCount (feedRepository_findOne db3 feedId)
       = Some (Feed.likeCount (FeedFindOneVo.feed found) + 1)
    /\ (likeCount_consistent db = true -> likeCount_consistent db3 = false).
Proof.
  intros iso userId feedId db found Hfound Hno db2 db3. subst db3 db2.
  rewrite findOneFeed_unfold in Hfound.
  destruct (feed_by_id db feedId) as [item|] eqn:E; [|discriminate].
  injection Hfound as <-. rewrite hydrated_feed.
  destruct (feed_by_id_Some _ _ _ E) as [Hin [Hid [u [_ Hu]]]].
  set (f := FeedFindOneVo.feed item) in *.
  rewrite (likeFeed_eval iso userId feedId db), E. cbn [snd]. fold f.
  set (f1 := Feed.set_likeCount f (Feed.likeCount f + 1)).
  set (d1 := liked db userId feedId f).
  pose proof (feed_by_id_after_save db d1 feedId item f1 u E Hid Hu eq_refl)
    as E1.
  rewrite (likeFeed_eval iso userId feedId d1), E1. cbn [snd].
  cbn [FeedFindOneVo.feed].
  set (f2 := Feed.set_likeCount f1 (Feed.likeCount f1 + 1)).
  set (d2 := liked d1 userId feedId f1).
  pose proof (feed_by_id_after_save d1 d2 feedId _ f2 u E1 Hid Hu eq_refl)
    as E2.
  rewrite (deleteLikeFeed_eval iso userId feedId d2), E2. cbn [fst snd].
  cbn [FeedFindOneVo.feed].
  set (f3 := Feed.set_likeCount f2 (Feed.likeCount f2 - 1)).
  set (d3 := unliked d2 userId feedId f2).
  set (p := fun l => (FeedLike.feedId l =? feedId)
                     && (FeedLike.userId l =? userId)).
  assert (forall k, p (FeedLike.mk k feedId userId) = true) as Hnew
      by (intros k; unfold p; cbn; now rewrite !Z.eqb_refl).
  assert (feedLikes d3 = feedLikes db) as Hlikes.
  { unfold d3, unliked, d2, liked, d1, liked. cbn [feedLikes nextFeedLikeId].
    change (filter (fun l => negb (p l))
              ((feedLikes db ++ [FeedLike.mk (nextFeedLikeId db) feedId userId])
               ++ [FeedLike.mk (nextFeedLikeId db + 1) feedId userId])
            = feedLikes db).
    rewrite !filter_app. cbn [filter]. rewrite !Hnew. cbn [negb].
    rewrite !app_nil_r. now apply (filter_negb_of_none p). }
  assert (feedRepository_findOne d3 feedId = Some f3) as Hf3.
  { pose proof (feed_row_exists _ _ _ E2) as Hex. rewrite <- Hid in Hex.
    unfold feedRepository_findOne, d3, unliked. cbn [feeds]. rewrite <- Hid.
    exact (find_replace_by Feed.id f3 (feeds d2) Hex). }
  split.
  { unfold likes_of_by, d2, liked, d1, liked. cbn [feedLikes nextFeedLikeId].
    change (List.length
              (filter p
                 ((feedLikes db
                   ++ [FeedLike.mk (nextFeedLikeId db) feedId userId])
                  ++ [FeedLike.mk (nextFeedLikeId db + 1) feedId userId]))
            = 2%nat).
    rewrite !filter_app. cbn [filter]. rewrite !Hnew.
    unfold likes_of_by in Hno. change (filter p (feedLikes db) = []) in Hno.
    rewrite Hno. reflexivity. }
  split; [reflexivity|].
  split; [exact Hlikes|].
  split.
  { rewrite Hf3. cbn. f_equal. lia. }
  intros Hc.
  destruct (likeCount_consistent d3) eqn:Hc3; [|reflexivity].
  exfalso.
  pose proof (proj1 (likeCount_consistent_spec db) Hc f Hin) as H0.
  destruct (find_key_Some Feed.id _ _ _ Hf3) as [Hin3 _].
  pose proof (proj1 (likeCount_consistent_spec d3) Hc3 f3 Hin3) as H3.
  assert (likes_of d3 (Feed.id f3) = likes_of db (Feed.id f)) as Hsame.
  { unfold likes_of. rewrite Hlikes. reflexivity. }
  rewrite Hsame, <- H0 in H3. cbn in H3. lia.
Qed.

Lemma likeFeed_twice_then_unlike_drifts_witness :
  likeCount_consistent store_one_feed = true
  /\ likeCount_consistent
       (snd (deleteLikeFeed ReadCommitted 2 1
               (snd (likeFeed ReadCommitted 2 1
                       (snd (likeFeed ReadCommitted 2 1 store_one_feed))))))
     = false.
Proof.
  destruct (likeFeed_twice_then_unlike_drifts ReadCommitted 2 1
              store_one_feed
              (hydrated store_one_feed None
                 (FeedFindOneVo.mk
                    (Feed.mk 1 1 "first" 0 Y 0 Y ACTIVE 100 100)
                    (Some (User.mk 1 1 N [])) [] [] None None)))
    as [_ [_ [_ [_ H]]]];
    [vm_compute; reflexivity | vm_compute; reflexivity |].
  split; [vm_compute; reflexivity|]. apply H. vm_compute. reflexivity.
Defined.

(** ** Order of the listings *)

Lemma newest_first_cons x rest :
  newest_first (x :: rest) = true
  <-> (forall y, In y rest -> y <= x) /\ newest_first rest = true.
Proof.
  cbn [newest_first]. rewrite andb_true_iff, forallb_forall.
  split; intros [H1 H2]; (split; [|exact H2]); intros y Hy;
    specialize (H1 y Hy); [now apply Z.leb_le | now apply Z.leb_le].
Qed.

Lemma newest_first_insert_DESC {A} (key : A -> Z) x l :
  newest_first (map key l) = true ->
  newest_first (map key (insert_DESC key x l)) = true.
Proof.
  induction l as [|y rest IH]; intros H.
  - reflexivity.
  - cbn [map] in H. apply newest_first_cons in H. destruct H as [Hle Hs].
    cbn [insert_DESC]. destruct (key y <=? key x) eqn:E.
    + apply Z.leb_le in E. cbn [map]. apply newest_first_cons. split.
      * intros z [<-|Hz]; [exact E|]. specialize (Hle z Hz). lia.
      * apply newest_first_cons. auto.
    + apply Z.leb_gt in E. cbn [map]. apply newest_first_cons. split.
      * intros z Hz. apply in_map_iff in Hz. destruct Hz as [a [<- Ha]].
        apply In_insert_DESC in Ha. destruct Ha as [->|Ha]; [lia|].
        apply Hle. now apply in_map.
      * now apply IH.
Qed.

Lemma newest_first_orderBy_DESC {A} (key : A -> Z) l :
  newest_first (map key (orderBy_DESC key l)) = true.
Proof.
  unfold orderBy_DESC. induction l as [|x l IH]; [reflexivity|].
  cbn [fold_right]. now apply newest_first_insert_DESC.
Qed.

Lemma newest_first_filter {A} (key : A -> Z) (p : A -> bool) l :
  newest_first (map key l) = true ->
  newest_first (map key (filter p l)) = true.
Proof.
  induction l as [|x l IH]; intros H; [reflexivity|].
  cbn [map] in H. apply newest_first_cons in H. destruct H as [Hle Hs].
  cbn [filter]. destruct (p x); [|now apply IH].
  cbn [map]. apply newest_first_cons. split; [|now apply IH].
  intros y Hy. apply Hle. apply in_map_iff in Hy.
  destruct Hy as [a [<- Ha]]. apply filter_In in Ha. apply in_map. tauto.
Qed.

Lemma newest_first_skipn (l : list Z) :
  forall k, newest_first l = true -> newest_first (skipn k l) = true.
Proof.
  induction l as [|x l IH]; intros [|k] H; try exact H; try reflexivity.
  cbn [skipn]. apply IH. apply newest_first_cons in H. tauto.
Qed.

Lemma newest_first_firstn (l : list Z) :
  forall k, newest_first l = true -> newest_first (firstn k l) = true.
Proof.
  induction l as [|x l IH]; intros [|k] H; try reflexivity.
  apply newest_first_cons in H. destruct H as [Hle Hs].
  cbn [firstn]. apply newest_first_cons. split; [|now apply IH].
  intros y Hy. apply Hle.
  rewrite <- (firstn_skipn k l). apply in_or_app. now left.
Qed.

Lemma map_firstn_skipn {A B} (g : A -> B) (l : list A) n k :
  map g (firstn n (skipn k l)) = firstn n (skipn k (map g l)).
Proof.
  revert l n. induction k as [|k IH]; intros l n.
  - cbn [skipn]. revert l. induction n as [|n IHn]; intros [|x l];
      try reflexivity.
    cbn [firstn map]. now rewrite IHn.
  - destruct l as [|x l]; [now destruct n|]. cbn [skipn map]. apply IH.
Qed.

Lemma newest_first_window {A} (key : A -> Z) (l : list A) n k :
  newest_first (map key l) = true ->
  newest_first (map key (firstn n (skipn k l))) = true.
Proof.
  intros H. rewrite map_firstn_skipn.
  now apply newest_first_firstn, newest_first_skipn.
Qed.

Lemma created_join_user db joined (l : list Feed.t) :
  map created (flat_map (join_user db joined) l)
  = map Feed.createdAt
        (filter (fun f => match userRepository_findOne db (Feed.userId f) with
                          | Some _ => true
                          | None => false
                          end) l).
Proof.
  induction l as [|f l IH]; [reflexivity|].
  cbn [flat_map filter]. unfold join_user at 1.
  destruct (userRepository_findOne db (Feed.userId f));
    cbn [app map]; now rewrite IH.
Qed.

Lemma created_hydrated db userId (l : list FeedFindOneVo.t) :
  map created (map (hydrated db userId) l) = map created l.
Proof. rewrite map_map. apply map_ext. reflexivity. Qed.

Lemma newest_first_joined db joined (l : list Feed.t) :
  newest_first
    (map created
       (flat_map (join_user db joined) (orderBy_DESC Feed.createdAt l)))
  = true.
Proof.
  rewrite created_join_user. apply newest_first_filter.
  apply newest_first_orderBy_DESC.
Qed.

(** X18.  Every listing returns its page newest first: in the items of
    [findAll], [findAllByFollowing], [findAllByUser] and
    [findAllByBookmark] no feed is created later than a feed before it,
    for every request, page and limit (which all four accept). *)
Theorem listings_are_newest_first :
  forall db user dto,
    (forall excludeUserIds,
        exists r,
          findAll db user (Some dto) (Some excludeUserIds) = Ok r
          /\ newest_first (map created (PaginateResponseVo.items r)) = true)
    /\ (exists r,
           findAllByFollowing db user (Some dto) = Ok r
           /\ newest_first (map created (PaginateResponseVo.items r)) = true)
    /\ (forall userId,
           exists r,
             findAllByUser db userId (Some dto) = Ok r
             /\ newest_first (map created (PaginateResponseVo.items r))
                = true)
    /\ (exists r,
           findAllByBookmark db user (Some dto) = Ok r
           /\ newest_first (map created (PaginateResponseVo.items r)) = true).
Proof.
  intros db user dto. split; [|split; [|split]].
  - intros ex. rewrite findAll_eval. cbv zeta. eexists.
    split; [reflexivity|].
    unfold generatePaginatedResponse. cbn [PaginateResponseVo.items].
    rewrite created_hydrated. unfold js_slice.
    apply newest_first_window.
    assert (newest_first (map created (findAll_query db ex)) = true) as Hq
        by apply newest_first_joined.
    unfold tag_filtered. destruct (FeedListDto.tagName dto) as [t|];
      [|exact Hq].
    destruct (negb (String.eqb t "")); [|exact Hq].
    now apply newest_first_filter.
  - rewrite findAllByFollowing_eval. eexists. split; [reflexivity|].
    unfold generatePaginatedResponse. cbn [PaginateResponseVo.items].
    rewrite created_hydrated. unfold Paginate.
    apply newest_first_window. unfold findAllByFollowing_query.
    apply newest_first_filter. apply newest_first_joined.
  - intros userId. rewrite findAllByUser_eval. eexists.
    split; [reflexivity|].
    unfold generatePaginatedResponse. cbn [PaginateResponseVo.items].
    rewrite created_hydrated. unfold Paginate.
    apply newest_first_window. apply newest_first_joined.
  - rewrite findAllByBookmark_eval. eexists. split; [reflexivity|].
    unfold generatePaginatedResponse. cbn [PaginateResponseVo.items].
    rewrite created_hydrated, map_map. unfold Paginate.
    apply (newest_first_window (fun row => Feed.createdAt (snd row))).
    apply newest_first_orderBy_DESC.
Qed.

(** ** Pages of [findAll] *)

Lemma js_slice_empty_window {A} (l : list A) a b :
  (if b <? 0 then Z.max (Z.of_nat (List.length l) + b) 0
   else Z.min b (Z.of_nat (List.length l)))
  <= (if a <? 0 then Z.max (Z.of_nat (List.length l) + a) 0
      else Z.min a (Z.of_nat (List.length l))) ->
  js_slice l a b = [].
Proof.
  intros H. unfold js_slice. cbv zeta.
  match goal with
  | |- firstn (Z.to_nat ?d) _ = _ => replace (Z.to_nat d) with 0%nat
        by (destruct (a <? 0), (b <? 0); lia)
  end.
  reflexivity.
Qed.

(** X19.  The page window of [findAll].  The total count is the number of
    feeds after the tag filter, whatever the page.  For a page from 1 on
    and a non-negative limit, item [i] of the page is the hydrated feed
    at position [(page - 1) * limit + i] of the filtered list when
    [i < limit], and there is no item [i] otherwise; so consecutive pages
    neither overlap nor skip a feed, and a page past the end is empty.
    Page 0 is empty.  With page 1 and a negative limit the slice counts
    from the end: all feeds but the last [- limit] are returned. *)
Theorem findAll_page_window :
  forall db user dto excludeUserIds,
    let filtered := tag_filtered dto (findAll_query db excludeUserIds) in
    let page := FeedListDto.page dto in
    let limit := FeedListDto.limit dto in
    exists r,
      findAll db user (Some dto) (Some excludeUserIds) = Ok r
      /\ PaginateResponseVo.totalCount r = Z.of_nat (List.length filtered)
      /\ (1 <= page -> 0 <= limit ->
          forall i,
            nth_error (PaginateResponseVo.items r) i
            = if Z.of_nat i <? limit
              then option_map (hydrated db (Some (User.id user)))
                     (nth_error filtered
                                (Z.to_nat ((page - 1) * limit) + i))
              else None)
      /\ (1 <= page -> 0 <= limit ->
          Z.of_nat (List.length filtered) <= (page - 1) * limit ->
          PaginateResponseVo.items r = [])
      /\ (page = 0 -> 0 <= limit -> PaginateResponseVo.items r = [])
      /\ (page = 1 -> limit < 0 ->
          PaginateResponseVo.items r
          = map (hydrated db (Some (User.id user)))
                (firstn (Z.to_nat (Z.of_nat (List.length filtered) + limit))
                        filtered)).
Proof.
  intros db user dto ex filtered page limit.
  rewrite findAll_eval. cbv zeta. eexists. split; [reflexivity|].
  unfold generatePaginatedResponse.
  cbn [PaginateResponseVo.items PaginateResponseVo.totalCount].
  fold filtered page limit.
  split; [reflexivity|].
  clearbody filtered page limit.
  split.
  { intros Hp Hl i. rewrite (js_slice_page filtered page limit Hp Hl).
    rewrite nth_error_map, nth_error_firstn, nth_error_skipn.
    destruct (Z.of_nat i <? limit) eqn:E.
    - apply Z.ltb_lt in E.
      replace (Nat.ltb i (Z.to_nat limit)) with true
        by (symmetry; apply Nat.ltb_lt; lia).
      reflexivity.
    - apply Z.ltb_ge in E.
      replace (Nat.ltb i (Z.to_nat limit)) with false
        by (symmetry; apply Nat.ltb_ge; lia).
      reflexivity. }
  split.
  { intros Hp Hl Hend. rewrite (js_slice_page filtered page limit Hp Hl).
    rewrite skipn_all2 by lia. now rewrite firstn_nil. }
  split.
  { intros Hp Hl. subst page.
    rewrite js_slice_empty_window; [reflexivity|].
    replace ((0 - 1) * limit) with (- limit) by lia.
    destruct (- limit + limit <? 0) eqn:E1;
      destruct (- limit <? 0) eqn:E2;
      try apply Z.ltb_lt in E1; try apply Z.ltb_ge in E1;
      try apply Z.ltb_lt in E2; try apply Z.ltb_ge in E2; lia. }
  intros Hp Hl. subst page. unfold js_slice. cbv zeta.
  replace ((1 - 1) * limit) with 0 by lia. cbn [Z.ltb Z.compare].
  replace (0 + limit <? 0) with true by (symmetry; apply Z.ltb_lt; lia).
  rewrite Z.min_l by lia. cbn [Z.to_nat skipn].
  do 2 f_equal. lia.
Qed.

Lemma findAll_page_window_witness :
  exists r,
    findAll (store_many_feeds 25) (User.mk 1 25 N [])
            (Some (FeedListDto.mk None 4 10 None)) (Some []) = Ok r
    /\ PaginateResponseVo.items r = []
    /\ PaginateResponseVo.totalCount r = 25.
Proof.
  destruct (findAll_page_window (store_many_feeds 25) (User.mk 1 25 N [])
              (FeedListDto.mk None 4 10 None) [])
    as [r [H1 [H2 [_ [H4 _]]]]].
  exists r. split; [exact H1|]. split.
  - apply H4; vm_compute; congruence.
  - rewrite H2. vm_compute. reflexivity.
Defined.

(** ** Filters of [findAll] *)

Lemma has_tagName_joined db f t other u l b c :
  has_tagName t (FeedFindOneVo.mk f u l (joined_tags db f) b c) = true ->
  other = Feed.id f ->
  has_mapper db other t.
Proof.
  intros H ->. unfold has_tagName in H. cbn [FeedFindOneVo.tags] in H.
  apply existsb_exists in H. destruct H as [[tg|] [Hin Hn]];
    [|discriminate].
  apply String.eqb_eq in Hn.
  unfold joined_tags in Hin. apply in_flat_map in Hin.
  destruct Hin as [m [Hm Htg]].
  apply filter_In in Hm. destruct Hm as [Hm Hfid]. apply Z.eqb_eq in Hfid.
  apply in_map_iff in Htg. destruct Htg as [tg' [Heq Htg]].
  injection Heq as ->.
  apply filter_In in Htg. destruct Htg as [Htg Hid]. apply Z.eqb_eq in Hid.
  exists m, tg. auto.
Qed.

(** X20.  What [findAll] filters on.  No item's author is among the
    excluded user ids, and every item carries its author's user row.
    With a non-empty tag name in the request, every item is a feed that
    has a mapper row to a tag of exactly that name.  An empty tag name
    filters nothing: the result is that of the request without a tag
    name.  So does an empty exclusion list: every visible, active feed
    whose author row exists is then among the fetched feeds. *)
Theorem findAll_exclusion_and_tag_filter :
  forall db user dto excludeUserIds,
    (forall r item,
        findAll db user (Some dto) (Some excludeUserIds) = Ok r ->
        In item (PaginateResponseVo.items r) ->
        ~ In (Feed.userId (FeedFindOneVo.feed item)) excludeUserIds
        /\ (exists u,
               FeedFindOneVo.user item = Some u
               /\ userRepository_findOne db
                    (Feed.userId (FeedFindOneVo.feed item)) = Some u)
        /\ (forall t, FeedListDto.tagName dto = Some t -> t <> "" ->
                      has_mapper db (Feed.id (FeedFindOneVo.feed item)) t))
    /\ findAll db user
         (Some (FeedListDto.mk (Some "") (FeedListDto.page dto)
                               (FeedListDto.limit dto)
                               (FeedListDto.status dto)))
         (Some excludeUserIds)
       = findAll db user
           (Some (FeedListDto.mk None (FeedListDto.page dto)
                                 (FeedListDto.limit dto)
                                 (FeedListDto.status dto)))
           (Some excludeUserIds)
    /\ (forall f u,
           In f (feeds db) -> Feed.displayYn f = Y ->
           Feed.status f = ACTIVE ->
           userRepository_findOne db (Feed.userId f) = Some u ->
           exists item, In item (findAll_query db []) 
                        /\ FeedFindOneVo.feed item = f).
Proof.
  intros db user dto ex. split; [|split].
  - intros r item Hr Hin.
    destruct (findAll_items _ _ _ _ _ _ Hr Hin) as [q [Hq ->]].
    pose proof (tag_filtered_incl _ _ _ Hq) as Hq'.
    apply findAll_query_spec in Hq'.
    destruct Hq' as [_ [_ [_ [Hex [u [Hu Hshape]]]]]].
    rewrite hydrated_feed. split; [exact Hex|].
    split.
    { exists u. split; [|exact Hu].
      unfold hydrated. cbn [FeedFindOneVo.user]. rewrite Hshape.
      reflexivity. }
    intros t Ht Hne. unfold tag_filtered in Hq. rewrite Ht in Hq.
    assert (negb (String.eqb t "") = true) as Hnb.
    { apply negb_true_iff. now apply String.eqb_neq. }
    rewrite Hnb in Hq. apply filter_In in Hq. destruct Hq as [_ Hhas].
    rewrite Hshape in Hhas.
    eapply has_tagName_joined; [exact Hhas | reflexivity].
  - rewrite !findAll_eval. reflexivity.
  - intros f u Hin Hd Hs Hu.
    exists (FeedFindOneVo.mk f (Some u) [] (joined_tags db f) None None).
    split; [|reflexivity].
    apply findAll_query_spec. cbn [FeedFindOneVo.feed].
    split; [exact Hin|]. split; [exact Hd|]. split; [exact Hs|].
    split; [intros []|]. exists u. split; [exact Hu | reflexivity].
Qed.

Lemma findAll_exclusion_and_tag_filter_witness :
  exists r,
    findAll store_two_feeds (User.mk 1 1 N [])
            (Some (FeedListDto.mk (Some "E") 1 10 None)) (Some [1]) = Ok r
    /\ List.length (PaginateResponseVo.items r) = 1%nat
    /\ (forall item,
           In item (PaginateResponseVo.items r) ->
           Feed.userId (FeedFindOneVo.feed item) <> 1
           /\ has_mapper store_two_feeds
                         (Feed.id (FeedFindOneVo.feed item)) "E").
Proof.
  destruct (findAll_exclusion_and_tag_filter store_two_feeds
              (User.mk 1 1 N []) (FeedListDto.mk (Some "E") 1 10 None) [1])
    as [H _].
  eexists. split; [rewrite findAll_eval; reflexivity|].
  split; [vm_compute; reflexivity|].
  intros item Hin.
  destruct (H _ item (findAll_eval _ _ _ _) Hin) as [H1 [_ H3]]. split.
  - intros E. apply H1. left. symmetry. exact E.
  - apply H3; [reflexivity | discriminate].
Defined.

(** ** The listings by following and by bookmark *)

Lemma findAllByFollowing_query_iff db user item :
  In item (findAllByFollowing_query db user) <->
  (In (FeedFindOneVo.feed item) (feeds db)
   /\ Feed.displayYn (FeedFindOneVo.feed item) = Y
   /\ Feed.status (FeedFindOneVo.feed item) = ACTIVE
   /\ (In (Feed.userId (FeedFindOneVo.feed item)) (User.followingIds user)
       \/ Feed.userId (FeedFindOneVo.feed item) = User.id user)
   /\ exists u,
        userRepository_findOne db (Feed.userId (FeedFindOneVo.feed item))
        = Some u
        /\ User.delYn u = N
        /\ item = FeedFindOneVo.mk (FeedFindOneVo.feed item) (Some u) [] []
                    None None).
Proof.
  unfold findAllByFollowing_query. rewrite filter_In, in_flat_map. split.
  - intros [[f [Hf Hj]] Hdel].
    apply -> (In_orderBy_DESC Feed.createdAt) in Hf.
    apply filter_In in Hf. destruct Hf as [Hin Hc].
    apply andb_true_iff in Hc. destruct Hc as [Hc Hs].
    apply andb_true_iff in Hc. destruct Hc as [Ha Hd].
    apply YN_eqb_eq in Hd. apply FEED_STATUS_eqb_eq in Hs.
    apply existsb_exists in Ha. destruct Ha as [a [Ha Heq]].
    apply Z.eqb_eq in Heq. subst a.
    unfold join_user in Hj.
    destruct (userRepository_findOne db (Feed.userId f)) as [u|] eqn:Hu;
      [|contradiction].
    destruct Hj as [<-|[]]. cbn [FeedFindOneVo.feed FeedFindOneVo.user] in *.
    apply YN_eqb_eq in Hdel.
    split; [exact Hin|]. split; [exact Hd|]. split; [exact Hs|].
    split.
    { apply in_app_or in Ha. destruct Ha as [Ha|[Ha|[]]];
        [now left | right; now symmetry]. }
    exists u. auto.
  - intros [Hin [Hd [Hs [Ha [u [Hu [Hdel Hshape]]]]]]].
    split.
    + exists (FeedFindOneVo.feed item). split.
      * apply <- (In_orderBy_DESC Feed.createdAt). apply filter_In.
        split; [exact Hin|].
        apply andb_true_iff. split; [|now apply FEED_STATUS_eqb_eq].
        apply andb_true_iff. split; [|now apply YN_eqb_eq].
        apply existsb_exists.
        exists (Feed.userId (FeedFindOneVo.feed item)).
        split; [|apply Z.eqb_refl].
        apply in_or_app. destruct Ha as [Ha|Ha]; [now left|].
        right. left. now symmetry.
      * unfold join_user. rewrite Hu. left. now symmetry.
    + rewrite Hshape. cbn [FeedFindOneVo.user]. now apply YN_eqb_eq.
Qed.

(** X21.  What [findAllByFollowing] lists.  The call returns for every
    request; its total count is the size of the query's result, whatever
    the page.  The query selects exactly the feed rows that are visible
    and active, whose author is followed by the requesting user or is
    the requesting user, and whose author row exists and is not marked
    deleted; each comes with that author row.  Every item of the page is
    such a feed, hydrated for the requesting user. *)
Theorem findAllByFollowing_lists_followed_and_own :
  forall db user dto,
    (forall q,
        In q (findAllByFollowing_query db user) <->
        (In (FeedFindOneVo.feed q) (feeds db)
         /\ Feed.displayYn (FeedFindOneVo.feed q) = Y
         /\ Feed.status (FeedFindOneVo.feed q) = ACTIVE
         /\ (In (Feed.userId (FeedFindOneVo.feed q)) (User.followingIds user)
             \/ Feed.userId (FeedFindOneVo.feed q) = User.id user)
         /\ exists u,
              userRepository_findOne db (Feed.userId (FeedFindOneVo.feed q))
              = Some u
              /\ User.delYn u = N
              /\ q = FeedFindOneVo.mk (FeedFindOneVo.feed q) (Some u) [] []
                       None None))
    /\ exists r,
         findAllByFollowing db user (Some dto) = Ok r
         /\ PaginateResponseVo.totalCount r
            = Z.of_nat (List.length (findAllByFollowing_query db user))
         /\ forall item,
              In item (PaginateResponseVo.items r) ->
              exists q,
                In q (findAllByFollowing_query db user)
                /\ item = hydrated db (Some (User.id user)) q.
Proof.
  intros db user dto. split; [intros q; apply findAllByFollowing_query_iff|].
  rewrite findAllByFollowing_eval. eexists. split; [reflexivity|].
  unfold generatePaginatedResponse.
  cbn [PaginateResponseVo.items PaginateResponseVo.totalCount].
  split; [reflexivity|].
  intros item Hin. apply in_map_iff in Hin. destruct Hin as [q [<- Hq]].
  exists q. split; [|reflexivity]. eapply In_Paginate; exact Hq.
Qed.

Lemma findAllByFollowing_lists_followed_and_own_witness :
  exists r,
    findAllByFollowing store_two_feeds (User.mk 2 1 N [1])
                       (Some (FeedListDto.mk None 1 10 None)) = Ok r
    /\ PaginateResponseVo.totalCount r = 2
    /\ In (FeedFindOneVo.mk (Feed.mk 1 1 "first" 1 Y 0 Y ACTIVE 100 100)
             (Some (User.mk 1 1 N [])) [] [] None None)
          (findAllByFollowing_query store_two_feeds (User.mk 2 1 N [1])).
Proof.
  destruct (findAllByFollowing_lists_followed_and_own store_two_feeds
              (User.mk 2 1 N [1]) (FeedListDto.mk None 1 10 None))
    as [Hq [r [H1 [H2 _]]]].
  exists r. split; [exact H1|]. split.
  - rewrite H2. vm_compute. reflexivity.
  - apply Hq. cbn [FeedFindOneVo.feed Feed.displayYn Feed.status Feed.userId
                   User.followingIds].
    split; [vm_compute; tauto|]. split; [reflexivity|].
    split; [reflexivity|]. split; [left; now left|].
    exists (User.mk 1 1 N []). split; [vm_compute; reflexivity|].
    split; reflexivity.
Defined.

(** X22.  What [findAllByBookmark] lists.  The call returns for every
    request, with the size of the query's result as total count.  Every
    item is a visible, active feed row for which the requesting user has
    a bookmark row; when the user's id is not 0 its bookmark flag reads
    true.  Its author is not attached: the query joins the bookmark to
    the feed but not the feed to its user, so a bookmarked feed is
    listed even when its author row is missing. *)
Theorem findAllByBookmark_lists_bookmarked :
  forall db user dto,
    exists r,
      findAllByBookmark db user (Some dto) = Ok r
      /\ PaginateResponseVo.totalCount r
         = Z.of_nat (List.length (findAllByBookmark_query db user))
      /\ forall item,
           In item (PaginateResponseVo.items r) ->
           In (FeedFindOneVo.feed item) (feeds db)
           /\ Feed.displayYn (FeedFindOneVo.feed item) = Y
           /\ Feed.status (FeedFindOneVo.feed item) = ACTIVE
           /\ __get_feed_bookmark_by_user db (User.id user)
                (Feed.id (FeedFindOneVo.feed item)) = true
           /\ FeedFindOneVo.user item = None
           /\ (User.id user <> 0 ->
               FeedFindOneVo.bookmarkedYn item = Some true).
Proof.
  intros db user dto. rewrite findAllByBookmark_eval. eexists.
  split; [reflexivity|].
  unfold generatePaginatedResponse.
  cbn [PaginateResponseVo.items PaginateResponseVo.totalCount].
  split; [reflexivity|].
  intros item Hin. apply in_map_iff in Hin. destruct Hin as [q [<- Hq]].
  apply in_map_iff in Hq. destruct Hq as [row [<- Hrow]].
  apply In_Paginate in Hrow.
  pose proof (findAllByBookmark_query_spec _ _ _ Hrow) as [Hd [Hs [Hu Hid]]].
  assert (In (snd row) (feeds db)
          /\ In (fst row) (feedBookmarks db)) as [Hfeed Hbm].
  { unfold findAllByBookmark_query in Hrow.
    apply -> (In_orderBy_DESC
                (fun row : FeedBookmark.t * Feed.t =>
                   Feed.createdAt (snd row))) in Hrow.
    apply in_flat_map in Hrow. destruct Hrow as [b [Hb Hp]].
    apply filter_In in Hb. destruct Hb as [Hb _].
    apply in_map_iff in Hp. destruct Hp as [f [<- Hf]].
    apply filter_In in Hf. cbn [fst snd]. tauto. }
  assert (__get_feed_bookmark_by_user db (User.id user) (Feed.id (snd row))
          = true) as Hflag.
  { unfold __get_feed_bookmark_by_user. apply existsb_exists.
    exists (fst row). split; [exact Hbm|].
    rewrite Hid, Hu, !Z.eqb_refl. reflexivity. }
  rewrite hydrated_feed. cbn [FeedFindOneVo.feed].
  split; [exact Hfeed|]. split; [exact Hd|]. split; [exact Hs|].
  split; [exact Hflag|]. split; [reflexivity|].
  intros Hnz.
  match goal with
  | |- context [hydrated db _ ?it] =>
      destruct (hydrated_flags db (User.id user) it Hnz) as [_ Hb]
  end.
  rewrite Hb. cbn [FeedFindOneVo.feed]. now rewrite Hflag.
Qed.

Lemma findAllByBookmark_lists_bookmarked_witness :
  exists r,
    findAllByBookmark store_two_feeds (User.mk 1 1 N [])
                      (Some (FeedListDto.mk None 1 10 None)) = Ok r
    /\ map FeedFindOneVo.bookmarkedYn (PaginateResponseVo.items r)
       = [Some true].
Proof.
  destruct (findAllByBookmark_lists_bookmarked store_two_feeds
              (User.mk 1 1 N []) (FeedListDto.mk None 1 10 None))
    as [r [H1 [_ H3]]].
  exists r. split; [exact H1|].
  pose proof (f_equal
                (fun x => match x with
                          | Ok r0 => map FeedFindOneVo.bookmarkedYn
                                         (PaginateResponseVo.items r0)
                          | Err _ => []
                          end) H1) as H.
  cbv beta iota in H. rewrite <- H. vm_compute. reflexivity.
Defined.

(** X23.  [createFeed] keeps the constraints of the store.  For an
    existing user and a store whose tag keys are unique, positive and
    below their counter, whose mapper rows reference tag rows, and whose
    image and mapper rows reference issued feed ids: the committed store
    satisfies the same constraints.  Like rows that referenced issued
    feed ids still do.  Unique tag names stay unique when the request
    names no tag twice. *)
Theorem createFeed_keeps_store_constraints :
  forall iso dflt now userId dto db u,
    userRepository_findOne db userId = Some u ->
    tag_keys_ok db = true ->
    mappers_reference_tags db = true ->
    feed_ids_issued db = true ->
    let db' := snd (createFeed iso dflt now userId dto db) in
    tag_keys_ok db' = true
    /\ mappers_reference_tags db' = true
    /\ feed_ids_issued db' = true
    /\ (like_ids_issued db = true -> like_ids_issued db' = true)
    /\ (tag_names_unique db = true ->
        distinct String.eqb (FeedCreateDto.tagNames dto) = true ->
        tag_names_unique db' = true).
Proof.
  intros iso dflt now userId dto db u Hu Hkeys Hfk Hiss db'. subst db'.
  destruct (createFeed_appends iso dflt now userId dto db u Hu)
    as [w' [news0 [E [-> [_ [_ [Rn [Ri [Rl [_ [T [M [_ F]]]]]]]]]]]]].
  rewrite E. cbn [snd].
  apply tag_keys_ok_spec in Hkeys. apply mappers_reference_tags_spec in Hfk.
  destruct (feed_ids_issued_spec _ Hiss) as [Hm Hi].
  set (names := FeedCreateDto.tagNames dto) in *.
  split; [now apply TagKeys_ok, created_store_TagKeys|].
  split.
  { apply MapperFK_ok. intros m Hin. rewrite created_store_mappers in Hin.
    apply in_app_or in Hin. destruct Hin as [Hin|Hin].
    - destruct (Hfk m Hin) as [t [Ht Hid]]. exists t. split; [|exact Hid].
      now apply T.
    - assert (In (MapperFeedTag.tagId m) (mapped_tagIds db names)) as Hid.
      { rewrite <- (proj1 (new_mappers_spec (nextFeedId db)
                             (mapped_tagIds db names)
                             (nextMapperFeedTagId db))).
        now apply in_map. }
      rewrite mapped_tags_spec in Hid.
      apply in_map_iff in Hid. destruct Hid as [t [Hid Ht]].
      exists t. split; [|exact Hid].
      rewrite created_store_tags. apply in_or_app.
      apply in_app_or in Ht. destruct Ht as [Ht|Ht]; [left|now right].
      apply known_tags_spec in Ht. destruct Ht as [n0 [_ Ht]].
      now apply find_by_name_Some in Ht. }
  split.
  { unfold feed_ids_issued. rewrite Rn. apply andb_true_iff. split.
    - apply forallb_forall. intros m Hin. apply Z.ltb_lt.
      rewrite M in Hin. apply in_app_or in Hin. destruct Hin as [Hin|Hin].
      + specialize (Hm m Hin). lia.
      + rewrite (F m Hin). lia.
    - apply forallb_forall. intros i Hin. apply Z.ltb_lt.
      rewrite Ri in Hin. apply in_app_or in Hin. destruct Hin as [Hin|Hin].
      + specialize (Hi i Hin). lia.
      + rewrite (new_images_feedId _ _ _ _ Hin). lia. }
  split.
  { unfold like_ids_issued. rewrite Rl, Rn, !forallb_forall.
    intros H l Hl. specialize (H l Hl). apply Z.ltb_lt in H.
    apply Z.ltb_lt. lia. }
  intros Hun Hd. apply tag_names_unique_spec in Hun.
  pose proof (distinct_NoDup String.eqb _ String.eqb_eq Hd) as Hnd.
  apply TagNames_unique.
  unfold TagNames. rewrite created_store_tags, map_app, map_tagName_new_tags.
  apply NoDup_app; [exact Hun | now apply NoDup_filter |].
  intros a Ha Hb. apply in_map_iff in Ha. destruct Ha as [t [<- Ht]].
  destruct (unknown_names_spec _ _ _ Hb) as [_ Hno].
  exact (Hno t Ht eq_refl).
Qed.

Lemma createFeed_keeps_store_constraints_witness :
  let db' := snd (createFeed ReadCommitted schema_defaults 300 2
                    (FeedCreateDto.mk "second" [FeedImageDto.mk "c.png" 1]
                                      ["A"; "E"])
                    store_one_like) in
  tag_keys_ok db' = true /\ tag_names_unique db' = true.
Proof.
  destruct (createFeed_keeps_store_constraints ReadCommitted schema_defaults
              300 2
              (FeedCreateDto.mk "second" [FeedImageDto.mk "c.png" 1]
                                ["A"; "E"])
              store_one_like (User.mk 2 0 N []))
    as [H1 [_ [_ [_ H5]]]]; try (vm_compute; reflexivity).
  split; [exact H1|].
  apply H5; vm_compute; reflexivity.
Defined.



(** ** Creating a feed, then deleting it for good *)





